(** * A shallow embedding of the schema combinators of [zod.ts]

    The validators of the library are closures
    [(value: unknown, context?: Context) => Result<T>] wrapped in a [Schema]
    object.  They are embedded here as Rocq functions over a type of
    JavaScript values, in a small state-and-exception monad: the state is the
    [errors] array that every [Context] of one validation run shares, an
    exception is a thrown [Error].

    Modelling conventions:
    - an object is the list of its own enumerable data properties in the
      order [Object.entries] yields them, together with the names of the
      constructors whose prototype lies on its prototype chain, the nearest
      first ([["Object"]] for an object literal, [[]] for an object without
      prototype);
    - [Object.prototype] is the one of ECMAScript with its Annex B, as in
      Node.js and in browsers: it holds [constructor], [toString],
      [valueOf], [hasOwnProperty], ... and the accessor [__proto__].  So
      [object[key]] of a key that is not an own property gives what the
      chain holds, [key in schema] holds of the keys of [Object.prototype]
      too, and an assignment to [__proto__] creates no own property.  The
      prototype of a constructor other than [Object] is taken to hold its
      [constructor] only;
    - a property list is in the order of [Object.entries] (names that are
      array indices first); the validators store the properties they parse
      in the order of such a list, so the lists they build are in that
      order too;
    - a string is the sequence of its UTF-16 code units, each below 256;
    - a finite [number] that is an integer is represented by the integer its
      shortest decimal notation denotes, [NaN] is kept apart because [===]
      treats it specially; fractions, [-0] and the infinities are not
      represented.  The validators only apply [typeof], [===] and string
      interpolation to numbers;
    - a thrown value is represented by the message the [catch] clause of
      [transform] computes from it
      ([error instanceof Error ? error.message : String(error)]). *)

From Stdlib Require Import String Ascii List ZArith Bool Lia DecimalString.
Import ListNotations.
Open Scope string_scope.

Set Implicit Arguments.
Set Warnings "-register-all,-notation-for-abbreviation".

(* ------------------------------------------------------------------------- *)
(** ** JavaScript values *)

Inductive Number : Type :=
| NaN
| Num (z : Z).

Inductive Value : Type :=
| VUndefined
| VNull
| VBoolean (b : bool)
| VNumber (n : Number)
| VBigInt (z : Z)
| VString (s : string)
| VSymbol (description : string)
| VFunction (name : string)
| VArray (items : list Value)
| VObject (classes : list string) (entries : list (string * Value)).

(** The scalars a literal schema may be built from:
    [T extends string | number | boolean | null | undefined]. *)
Inductive Literal : Type :=
| LString (s : string)
| LNumber (n : Number)
| LBoolean (b : bool)
| LNull
| LUndefined.

Definition literalValue (literal : Literal) : Value :=
  match literal with
  | LString s => VString s
  | LNumber n => VNumber n
  | LBoolean b => VBoolean b
  | LNull => VNull
  | LUndefined => VUndefined
  end.

(** [typeof value] *)
Definition typeof (value : Value) : string :=
  match value with
  | VUndefined => "undefined"
  | VNull => "object"
  | VBoolean _ => "boolean"
  | VNumber _ => "number"
  | VBigInt _ => "bigint"
  | VString _ => "string"
  | VSymbol _ => "symbol"
  | VFunction _ => "function"
  | VArray _ => "object"
  | VObject _ _ => "object"
  end.

(** [Array.isArray(value)] *)
Definition isArray (value : Value) : bool :=
  match value with VArray _ => true | _ => false end.

Definition getType (value : Value) : string :=
  match value with
  | VUndefined => "undefined"
  | VNull => "null"
  | _ => if isArray value then "array" else typeof value
  end.

(** [a === b] on numbers: [NaN] is not equal to itself. *)
Definition numberStrictEq (a b : Number) : bool :=
  match a, b with
  | Num x, Num y => Z.eqb x y
  | _, _ => false
  end.

(** [value === literal] for a scalar [literal]. *)
Definition strictEq (value : Value) (literal : Literal) : bool :=
  match value, literal with
  | VUndefined, LUndefined => true
  | VNull, LNull => true
  | VBoolean a, LBoolean b => Bool.eqb a b
  | VNumber a, LNumber b => numberStrictEq a b
  | VString a, LString b => String.eqb a b
  | _, _ => false
  end.

(** [value instanceof ctor], [ctor] given by its name. *)
Definition instanceOf (value : Value) (ctor : string) : bool :=
  match value with
  | VObject classes _ => existsb (String.eqb ctor) classes
  | VArray _ => String.eqb ctor "Array" || String.eqb ctor "Object"
  | VFunction _ => String.eqb ctor "Function" || String.eqb ctor "Object"
  | _ => false
  end.

(** The prototype chain of an object literal [{}]. *)
Definition plain : list string := ["Object"].

(* ------------------------------------------------------------------------- *)
(** ** Strings *)

Definition natToString (n : nat) : string :=
  NilZero.string_of_uint (Nat.to_uint n).

Definition intToString (z : Z) : string :=
  NilZero.string_of_int (Z.to_int z).

(** The digits of a numeral without the zeros it ends with. *)
Fixpoint stripTrailingZeros (digits : string) : string :=
  match digits with
  | EmptyString => EmptyString
  | String digit rest =>
      match stripTrailingZeros rest with
      | EmptyString => if Ascii.eqb digit "0" then EmptyString else String digit EmptyString
      | kept => String digit kept
      end
  end.

(** The notation [d.ddde+n] of a positive integer given by its digits. *)
Definition exponentNotation (digits : string) : string :=
  match stripTrailingZeros digits with
  | EmptyString => "0"
  | String first EmptyString =>
      String first EmptyString ++ "e+" ++ natToString (String.length digits - 1)
  | String first fraction =>
      String first ("." ++ fraction) ++ "e+" ++ natToString (String.length digits - 1)
  end.

(** [`${n}`] (Number::toString): the decimal digits of an integer below
    [10^21] in absolute value, the exponent notation from there on. *)
Definition numberToString (n : Number) : string :=
  match n with
  | NaN => "NaN"
  | Num z =>
      if Z.ltb (Z.abs z) (10 ^ 21) then intToString z
      else (if Z.ltb z 0 then "-" else "") ++ exponentNotation (intToString (Z.abs z))
  end.

(** [`${literal}`] *)
Definition literalToString (literal : Literal) : string :=
  match literal with
  | LString s => s
  | LNumber n => numberToString n
  | LBoolean true => "true"
  | LBoolean false => "false"
  | LNull => "null"
  | LUndefined => "undefined"
  end.

(** [parts.join(separator)] on an array of strings. *)
Fixpoint join (separator : string) (parts : list string) : string :=
  match parts with
  | [] => ""
  | [part] => part
  | part :: rest => part ++ separator ++ join separator rest
  end.

(* ------------------------------------------------------------------------- *)
(** ** Paths, errors and results *)

Inductive PathKey : Type :=
| Key (name : string)
| Index (index : nat).

Notation Path := (list PathKey) (only parsing).

Definition pathKeyToString (k : PathKey) : string :=
  match k with
  | Key name => name
  | Index index => natToString index
  end.

Record ValidationError : Type := mkError { path : Path; message : string }.

(** The [errors] array of a [Context]. *)
Notation Errors := (list ValidationError) (only parsing).

(** [Context]: the [path] of the context.  Its [errors] field always aliases
    the array created by [safeParse], which is the state of the monad. *)
Notation Context := (list PathKey) (only parsing).

(** [Result<T>] *)
Inductive Result : Type :=
| Success (data : Value)
| Failure.

(* ------------------------------------------------------------------------- *)
(** ** The monad of validators *)

Inductive Outcome (A : Type) : Type :=
| Returned (a : A)
| Thrown (msg : string).

Arguments Returned {A} a.
Arguments Thrown {A} msg.

Definition M (A : Type) : Type := Errors -> Outcome A * Errors.

Definition ret {A} (a : A) : M A := fun errors => (Returned a, errors).

Definition bind {A B} (m : M A) (k : A -> M B) : M B :=
  fun errors =>
    match m errors with
    | (Returned a, errors') => k a errors'
    | (Thrown msg, errors') => (Thrown msg, errors')
    end.

(** [throw new Error(msg)] *)
Definition throw {A} (msg : string) : M A := fun errors => (Thrown msg, errors).

(** [try { body } catch (error) { handler }], [handler] receiving the
    message of [error]. *)
Definition tryCatch {A} (body : M A) (handler : string -> M A) : M A :=
  fun errors =>
    match body errors with
    | (Returned a, errors') => (Returned a, errors')
    | (Thrown msg, errors') => handler msg errors'
    end.

(** [context.errors.push(error)] *)
Definition push (error : ValidationError) : M unit :=
  fun errors => (Returned tt, (errors ++ [error])%list).

Declare Scope zod_scope.
Delimit Scope zod_scope with zod.
Notation "x <- m ;; k" := (bind m (fun x => k))
  (at level 61, m at next level, right associativity) : zod_scope.
Notation "m ;;; k" := (bind m (fun _ => k))
  (at level 61, right associativity) : zod_scope.
Open Scope zod_scope.

(** [if (context !== undefined) { context.errors.push({ path: context.path, message }) }] *)
Definition report (context : option Context) (msg : string) : M unit :=
  match context with
  | Some contextPath => push (mkError contextPath msg)
  | None => ret tt
  end.

(** [for (const x of xs) { body(x) }] *)
Fixpoint forOf {A} (body : A -> M unit) (xs : list A) : M unit :=
  match xs with
  | [] => ret tt
  | x :: rest => body x ;;; forOf body rest
  end.

(** The loop of every fast pass:
    [for (const x of xs) { const result = validate(x); if (!result.success) return result; store(x, result.data) }],
    [None] standing for the early [return result]. *)
Fixpoint parseEach {A Acc} (validate : A -> M Result) (store : A -> Value -> Acc -> Acc)
    (xs : list A) (acc : Acc) : M (option Acc) :=
  match xs with
  | [] => ret (Some acc)
  | x :: rest =>
      result <- validate x ;;
      match result with
      | Failure => ret None
      | Success data => parseEach validate store rest (store x data acc)
      end
  end.

(* ------------------------------------------------------------------------- *)
(** ** Schema *)

(** [safeParseFn: (value: unknown, context?: Context) => Result<T>] *)
Definition Schema : Type := Value -> option Context -> M Result.

Definition internalSafeParse (schema : Schema) (value : Value) (context : option Context) : M Result :=
  schema value context.

(** The result of the public [safeParse]. *)
Inductive SafeParseResult : Type :=
| SafeSuccess (data : Value)
| SafeFailure (msg : string) (errors : Errors).

Definition describe (e : ValidationError) : string :=
  message e ++ " (at path /" ++ join "/" (map pathKeyToString (path e)) ++ ")".

Definition summary (errors : Errors) : string :=
  "Validation failed: " ++ join ", " (map describe errors).

Definition safeParse (schema : Schema) (value : Value) : Outcome SafeParseResult :=
  match schema value (Some []) [] with
  | (Returned (Success data), _) => Returned (SafeSuccess data)
  | (Returned Failure, errors) => Returned (SafeFailure (summary errors) errors)
  | (Thrown msg, _) => Thrown msg
  end.

Definition parse (schema : Schema) (value : Value) : Outcome Value :=
  match safeParse schema value with
  | Returned (SafeSuccess data) => Returned data
  | Returned (SafeFailure msg _) => Thrown msg
  | Thrown msg => Thrown msg
  end.

(** What the callback of [transform] does on a value: it returns, or it
    throws (the payload is the message the [catch] clause derives). *)
Definition Callback : Type := Value -> Outcome Value.

Definition transform (this : Schema) (callback : Callback) : Schema :=
  fun value context =>
    tryCatch
      (result <- internalSafeParse this value context ;;
       match result with
       | Success data =>
           match callback data with
           | Returned data' => ret (Success data')
           | Thrown msg => throw msg
           end
       | Failure => ret Failure
       end)
      (fun msg => report context msg ;;; ret Failure).

(* ------------------------------------------------------------------------- *)
(** ** Objects: own properties and the prototype chain *)

Notation Entries := (list (string * Value)) (only parsing).

(** [Object.keys(object)] *)
Definition keys {A} (entries : list (string * A)) : list string := map fst entries.

(** [Object.hasOwn(object, key)] *)
Definition hasOwn {A} (key : string) (entries : list (string * A)) : bool :=
  existsb (String.eqb key) (keys entries).

(** The own property [key] of a property list, [undefined] when there is
    none. *)
Fixpoint getProperty (key : string) (entries : Entries) : Value :=
  match entries with
  | [] => VUndefined
  | (k, v) :: rest => if String.eqb key k then v else getProperty key rest
  end.

(** The properties of [Object.prototype] that hold a function. *)
Definition objectPrototypeMethods : list string :=
  ["constructor"; "__defineGetter__"; "__defineSetter__"; "hasOwnProperty";
   "__lookupGetter__"; "__lookupSetter__"; "isPrototypeOf"; "propertyIsEnumerable";
   "toString"; "valueOf"; "toLocaleString"].

(** [key in Object.prototype]: its methods and the accessor [__proto__]. *)
Definition inObjectPrototype (key : string) : bool :=
  existsb (String.eqb key) ("__proto__" :: objectPrototypeMethods).

(** What an object inherits under [key] from a prototype chain that carries
    the constructors [classes], the nearest first: [constructor] is the
    nearest constructor; where the chain ends in [Object.prototype] the
    methods of [Object.prototype] are inherited and the getter [__proto__]
    gives the prototype, an object without own enumerable properties on whose
    chain the remaining constructors lie. *)
Definition inheritedProperty (classes : list string) (key : string) : Value :=
  if String.eqb key "constructor" then
    match classes with
    | ctor :: _ => VFunction ctor
    | [] => VUndefined
    end
  else if existsb (String.eqb "Object") classes then
    if String.eqb key "__proto__" then VObject (tl classes) []
    else if existsb (String.eqb key) objectPrototypeMethods then VFunction key
    else VUndefined
  else VUndefined.

(** [object[key]]: the own property, and without one what the prototype
    chain gives. *)
Definition readProperty (key : string) (object : Value) : Value :=
  match object with
  | VObject classes entries =>
      if hasOwn key entries then getProperty key entries else inheritedProperty classes key
  | _ => VUndefined
  end.

(** The prototype chains whose properties the embedding holds in full: the
    chain of an object literal, and the empty chain of an object without
    prototype. *)
Definition literalChain (classes : list string) : Prop :=
  classes = plain \/ classes = [].

(** Creating or updating the own data property [key]. *)
Fixpoint defineProperty (key : string) (data : Value) (entries : Entries) : Entries :=
  match entries with
  | [] => [(key, data)]
  | (k, v) :: rest =>
      if String.eqb key k then (k, data) :: rest else (k, v) :: defineProperty key data rest
  end.

(** [parsedObject[key] = data] on an object that was created as [{}]: the
    key [__proto__] reaches the setter inherited from [Object.prototype],
    which creates no own property (the prototype it installs when [data] is an
    object or [null] is not kept in the property list); every other key
    becomes an own property. *)
Definition setProperty (key : string) (data : Value) (entries : Entries) : Entries :=
  if String.eqb key "__proto__" then entries else defineProperty key data entries.

(** [Object.entries(value)] of a value that passed the object guard. *)
Definition ownEntries (value : Value) : Entries :=
  match value with
  | VObject _ entries => entries
  | _ => []
  end.

(** [typeof value !== 'object' || value === null || Array.isArray(value)] *)
Definition notAnObject (value : Value) : bool :=
  negb (String.eqb (typeof value) "object")
  || match value with VNull => true | _ => false end
  || isArray value.

(* ------------------------------------------------------------------------- *)
(** ** ObjectSchema *)

Notation Shape := (list (string * Schema)) (only parsing).

(** [key in schema], [schema] being the object literal that holds the field
    schemas: an own key, or a key inherited from [Object.prototype]. *)
Definition keyIn (key : string) (schema : Shape) : bool :=
  hasOwn key schema || inObjectPrototype key.

(** The keys of [object] that fail the test [key in schema]. *)
Definition unrecognized (schema : Shape) (object : Entries) : list string :=
  filter (fun key => negb (keyIn key schema)) (keys object).

Definition objectSafeParseFn (schema : Shape) (strict : bool) : Schema :=
  fun value context =>
    if notAnObject value then
      report context ("Expected object, got " ++ getType value) ;;; ret Failure
    else
      let object := value in
      result <-
        (parsed <- parseEach
                     (fun entry => internalSafeParse (snd entry) (readProperty (fst entry) object) None)
                     (fun entry data parsedObject => setProperty (fst entry) data parsedObject)
                     schema [] ;;
         match parsed with
         | None => ret Failure
         | Some parsedObject =>
             if strict && existsb (fun key => negb (keyIn key schema)) (keys (ownEntries object))
             then ret Failure
             else ret (Success (VObject plain parsedObject))
         end) ;;
      match result with
      | Success data => ret (Success data)
      | Failure =>
          match context with
          | Some contextPath =>
              (forOf (fun entry =>
                        internalSafeParse (snd entry) (readProperty (fst entry) object)
                          (Some (contextPath ++ [Key (fst entry)])%list) ;;; ret tt)
                     schema ;;;
               if strict then
                 let unrecognizedKeys := unrecognized schema (ownEntries object) in
                 if Nat.ltb 0 (length unrecognizedKeys)
                 then push (mkError contextPath ("Unrecognized keys: " ++ join ", " unrecognizedKeys))
                 else ret tt
               else ret tt) ;;;
              ret Failure
          | None => ret Failure
          end
      end.

(** The class [ObjectSchema]: a schema that keeps its field map. *)
Record ObjectSchema : Type := newObjectSchema { shape : Shape; strictMode : bool }.

Definition toSchema (o : ObjectSchema) : Schema :=
  objectSafeParseFn (shape o) (strictMode o).

Definition createObjectSchema (schema : Shape) : Schema :=
  toSchema (newObjectSchema schema false).

Definition createStrictObjectSchema (schema : Shape) : Schema :=
  toSchema (newObjectSchema schema true).

(* ------------------------------------------------------------------------- *)
(** ** The other constructors *)

(** [[(0, x0); (1, x1); ...]]: the elements of an array with their index. *)
Fixpoint indexedFrom {A} (index : nat) (xs : list A) : list (nat * A) :=
  match xs with
  | [] => []
  | x :: rest => (index, x) :: indexedFrom (S index) rest
  end.

Definition indexed {A} (xs : list A) : list (nat * A) := indexedFrom 0 xs.

(** The items of a value that passed [Array.isArray]. *)
Definition arrayItems (value : Value) : list Value :=
  match value with
  | VArray items => items
  | _ => []
  end.

Definition createArraySchema (schema : Schema) : Schema :=
  fun value context =>
    if negb (isArray value) then
      report context ("Expected array, got " ++ getType value) ;;; ret Failure
    else
      let items := arrayItems value in
      result <-
        (parsed <- parseEach
                     (fun item => internalSafeParse schema item None)
                     (fun _ data parsedItems => (parsedItems ++ [data])%list)
                     items [] ;;
         match parsed with
         | None => ret Failure
         | Some parsedItems => ret (Success (VArray parsedItems))
         end) ;;
      match result with
      | Success data => ret (Success data)
      | Failure =>
          match context with
          | Some contextPath =>
              forOf (fun entry =>
                       internalSafeParse schema (snd entry)
                         (Some (contextPath ++ [Index (fst entry)])%list) ;;; ret tt)
                    (indexed items) ;;;
              ret Failure
          | None => ret Failure
          end
      end.

Definition createBigIntSchema : Schema :=
  fun value context =>
    if negb (String.eqb (typeof value) "bigint") then
      report context ("Expected bigint, got " ++ getType value) ;;; ret Failure
    else ret (Success value).

Definition createBooleanSchema : Schema :=
  fun value context =>
    if negb (String.eqb (typeof value) "boolean") then
      report context ("Expected boolean, got " ++ getType value) ;;; ret Failure
    else ret (Success value).

(** [schema.name] is the name of the constructor [schema]. *)
Definition createInstanceofSchema (schema : string) : Schema :=
  fun value context =>
    if negb (instanceOf value schema) then
      report context ("Expected instance of " ++ schema ++ ", got " ++ getType value) ;;; ret Failure
    else ret (Success value).

Definition createDateSchema : Schema := createInstanceofSchema "Date".

Definition createLazySchema (fn : unit -> Schema) : Schema :=
  fun value context => internalSafeParse (fn tt) value context.

(** The first loop of [createUnionSchema]:
    [for (const schema of schemas) { const result = schema.internalSafeParse(value); if (result.success) return result }],
    [Failure] standing for leaving the loop without a success. *)
Fixpoint firstSuccess (schemas : list Schema) (value : Value) : M Result :=
  match schemas with
  | [] => ret Failure
  | schema :: rest =>
      result <- internalSafeParse schema value None ;;
      match result with
      | Success data => ret (Success data)
      | Failure => firstSuccess rest value
      end
  end.

Definition createUnionSchema (schemas : list Schema) : Schema :=
  fun value context =>
    result <- firstSuccess schemas value ;;
    match result with
    | Success data => ret (Success data)
    | Failure =>
        match context with
        | Some contextPath =>
            forOf (fun schema => internalSafeParse schema value (Some contextPath) ;;; ret tt) schemas ;;;
            ret Failure
        | None => ret Failure
        end
    end.

Definition createSingleLiteralSchema (literal : Literal) : Schema :=
  fun value context =>
    if negb (strictEq value literal) then
      report context ("Expected literal " ++ literalToString literal ++ ", got " ++ getType value) ;;;
      ret Failure
    else ret (Success (literalValue literal)).

(** [literal: T | T[]] *)
Definition createLiteralSchema (literal : Literal + list Literal) : Schema :=
  match literal with
  | inr literals => createUnionSchema (map createSingleLiteralSchema literals)
  | inl single => createSingleLiteralSchema single
  end.

Definition createNullSchema : Schema :=
  fun value context =>
    if negb (match value with VNull => true | _ => false end) then
      report context ("Expected null, got " ++ getType value) ;;; ret Failure
    else ret (Success value).

Definition createUndefinedSchema : Schema :=
  fun value context =>
    if negb (match value with VUndefined => true | _ => false end) then
      report context ("Expected undefined, got " ++ getType value) ;;; ret Failure
    else ret (Success value).

Definition createOptionalSchema (schema : Schema) : Schema :=
  createUnionSchema [createUndefinedSchema; schema].

Definition createNullableSchema (schema : Schema) : Schema :=
  createUnionSchema [createNullSchema; schema].

Definition createNullishSchema (schema : Schema) : Schema :=
  createUnionSchema [createNullSchema; createUndefinedSchema; schema].

(** The methods [optional], [nullable] and [nullish] of [Schema]. *)
Definition optional (this : Schema) : Schema := createOptionalSchema this.
Definition nullable (this : Schema) : Schema := createNullableSchema this.
Definition nullish (this : Schema) : Schema := createNullishSchema this.

Definition createNumberSchema : Schema :=
  fun value context =>
    if negb (String.eqb (typeof value) "number") then
      report context ("Expected number, got " ++ getType value) ;;; ret Failure
    else ret (Success value).

Definition createRecordSchema (schema : Schema) : Schema :=
  fun record context =>
    if notAnObject record then
      throw ("Expected object, got " ++ getType record)
    else
      let entries := ownEntries record in
      result <-
        (parsed <- parseEach
                     (fun entry => internalSafeParse schema (snd entry) None)
                     (fun entry data parsedObject => setProperty (fst entry) data parsedObject)
                     entries [] ;;
         match parsed with
         | None => ret Failure
         | Some parsedObject => ret (Success (VObject plain parsedObject))
         end) ;;
      match result with
      | Success data => ret (Success data)
      | Failure =>
          match context with
          | Some contextPath =>
              forOf (fun entry =>
                       internalSafeParse schema (snd entry)
                         (Some (contextPath ++ [Key (fst entry)])%list) ;;; ret tt)
                    entries ;;;
              ret Failure
          | None => ret Failure
          end
      end.

Definition createStringSchema : Schema :=
  fun value context =>
    if negb (String.eqb (typeof value) "string") then
      report context ("Expected string, got " ++ getType value) ;;; ret Failure
    else ret (Success value).

(** [value[index]] *)
Definition itemAt (items : list Value) (index : nat) : Value := nth index items VUndefined.

Definition createTupleSchema (schema : list Schema) : Schema :=
  fun value context =>
    if negb (isArray value) then
      report context ("Expected array, got " ++ getType value) ;;; ret Failure
    else
      let items := arrayItems value in
      if negb (Nat.eqb (length items) (length schema)) then
        report context ("Expected array of length " ++ natToString (length schema)
                        ++ ", got array of length " ++ natToString (length items)) ;;;
        ret Failure
      else
        result <-
          (parsed <- parseEach
                       (fun entry => internalSafeParse (snd entry) (itemAt items (fst entry)) None)
                       (fun _ data parsedItems => (parsedItems ++ [data])%list)
                       (indexed schema) [] ;;
           match parsed with
           | None => ret Failure
           | Some parsedItems => ret (Success (VArray parsedItems))
           end) ;;
        match result with
        | Success data => ret (Success data)
        | Failure =>
            match context with
            | Some contextPath =>
                forOf (fun entry =>
                         internalSafeParse (snd entry) (itemAt items (fst entry))
                           (Some (contextPath ++ [Index (fst entry)])%list) ;;; ret tt)
                      (indexed schema) ;;;
                ret Failure
            | None => ret Failure
            end
        end.

Definition createUnknownSchema : Schema :=
  fun value _ => ret (Success value).

(* ------------------------------------------------------------------------- *)
(** ** Sample schemas and inputs *)

Definition obj (entries : Entries) : Value := VObject plain entries.
Definition num (z : Z) : Value := VNumber (Num z).

(* ------------------------------------------------------------------------- *)
(** ** Fast runs and diagnostic runs *)

(** The outcome of a computation started on an empty errors array. *)
Definition fastOutcome {A} (m : M A) : Outcome A := fst (m []).

(** [m] neither reads nor writes the errors array. *)
Definition Pure {A} (m : M A) : Prop :=
  forall errors, m errors = (fastOutcome m, errors).

(** The run [d] with a context agrees with the run [f] without one: the same
    success or the same exception with the errors array untouched, and after a
    failure of [f] no success of [d] and an array that only grew; under [ne]
    a failure that [d] returns has grown it. *)
Definition Coherent (ne : Prop) (f d : M Result) : Prop :=
  Pure f /\
  forall errors,
    match fastOutcome f with
    | Returned (Success data) => d errors = (Returned (Success data), errors)
    | Thrown msg => d errors = (Thrown msg, errors)
    | Returned Failure =>
        exists o new,
          d errors = (o, (errors ++ new)%list) /\
          (forall data, o <> Returned (Success data)) /\
          (ne -> o = Returned Failure -> new <> [])
    end.

Definition Behaves (ne : Prop) (schema : Schema) : Prop :=
  forall value contextPath,
    Coherent ne (schema value None) (schema value (Some contextPath)).

(** The shape every composite validator has: a fast pass, and after its
    failure the diagnostic pass when there is a context. *)
Definition twoPhase (fast : M Result) (diagnose : Context -> M unit)
    (context : option Context) : M Result :=
  result <- fast ;;
  match result with
  | Success data => ret (Success data)
  | Failure =>
      match context with
      | Some contextPath => diagnose contextPath ;;; ret Failure
      | None => ret Failure
      end
  end.

(** The fast pass of the composite validators: the loop, then [finish] on
    what it collected. *)
Definition fastLoop {A Acc} (validate : A -> M Result) (store : A -> Value -> Acc -> Acc)
    (xs : list A) (acc : Acc) (finish : Acc -> M Result) : M Result :=
  parsed <- parseEach validate store xs acc ;;
  match parsed with
  | None => ret Failure
  | Some collected => finish collected
  end.

(* ------------------------------------------------------------------------- *)
(** ** The schemas the constructors build *)

(** A fragment of the library: whether [transform] and [record] may be used,
    and which branch lists [union] (and a literal array) may be given. *)
Record Fragment : Type := mkFragment {
  withTransform : Prop;
  withRecord : Prop;
  unionBranches : list Schema -> Prop;
  shapeKeys : list string -> Prop
}.

(** [Constructed F schema]: [schema] is built by the constructors of the
    library within the fragment [F].  The shape of an object schema is an
    object, so its keys are distinct; a fragment may ask more of them.  A
    schema that refers to itself
    through [lazy] is covered by its unfoldings: [c_lazy] asks for the schema
    the thunk returns. *)
Inductive Constructed (F : Fragment) : Schema -> Prop :=
| c_string : Constructed F createStringSchema
| c_number : Constructed F createNumberSchema
| c_boolean : Constructed F createBooleanSchema
| c_bigint : Constructed F createBigIntSchema
| c_null : Constructed F createNullSchema
| c_undefined : Constructed F createUndefinedSchema
| c_unknown : Constructed F createUnknownSchema
| c_instanceof ctor : Constructed F (createInstanceofSchema ctor)
| c_literal literal : Constructed F (createLiteralSchema (inl literal))
| c_literals literals :
    unionBranches F (map createSingleLiteralSchema literals) ->
    Constructed F (createLiteralSchema (inr literals))
| c_array schema : Constructed F schema -> Constructed F (createArraySchema schema)
| c_tuple schema :
    (forall s, In s schema -> Constructed F s) -> Constructed F (createTupleSchema schema)
| c_object schema strict :
    NoDup (keys schema) ->
    shapeKeys F (keys schema) ->
    (forall entry, In entry schema -> Constructed F (snd entry)) ->
    Constructed F (toSchema (newObjectSchema schema strict))
| c_record schema :
    withRecord F -> Constructed F schema -> Constructed F (createRecordSchema schema)
| c_union schemas :
    unionBranches F schemas ->
    (forall s, In s schemas -> Constructed F s) -> Constructed F (createUnionSchema schemas)
| c_optional schema : Constructed F schema -> Constructed F (createOptionalSchema schema)
| c_nullable schema : Constructed F schema -> Constructed F (createNullableSchema schema)
| c_nullish schema : Constructed F schema -> Constructed F (createNullishSchema schema)
| c_lazy fn : Constructed F (fn tt) -> Constructed F (createLazySchema fn)
| c_transform this callback :
    withTransform F -> Constructed F this -> Constructed F (transform this callback).

(** Every schema of the library. *)
Definition library : Fragment :=
  {| withTransform := True; withRecord := True; unionBranches := fun _ => True;
     shapeKeys := fun _ => True |}.

(** The schemas whose unions and literal arrays have at least one branch. *)
Definition nonEmptyUnions : Fragment :=
  {| withTransform := True; withRecord := True; unionBranches := fun schemas => schemas <> [];
     shapeKeys := fun _ => True |}.

(** The schemas built without [record]. *)
Definition withoutRecord : Fragment :=
  {| withTransform := True; withRecord := False; unionBranches := fun _ => True;
     shapeKeys := fun _ => True |}.

(* ------------------------------------------------------------------------- *)
(** ** Exceptions *)

Definition NoThrow {A} (m : M A) : Prop :=
  forall errors msg, fst (m errors) <> Thrown msg.

Definition NeverThrows (schema : Schema) : Prop :=
  forall value context, NoThrow (schema value context).

(* ------------------------------------------------------------------------- *)
(** ** The value-inspection routine of the specification *)

Definition quote : string := String (ascii_of_nat 34) EmptyString.
Definition backslash : string := String (ascii_of_nat 92) EmptyString.

(** Modelled from the spec: the quoted rendering of a string inside
    [inspectValue]; quotes and backslashes are escaped as in JSON. *)
Fixpoint jsonEscape (s : string) : string :=
  match s with
  | EmptyString => EmptyString
  | String c rest =>
      if Ascii.eqb c (ascii_of_nat 34) || Ascii.eqb c (ascii_of_nat 92)
      then backslash ++ String c (jsonEscape rest)
      else String c (jsonEscape rest)
  end.

(** Modelled from the spec: the shared formatting routine [inspectValue],
    whose source is not among the files.  It renders [undefined], [null],
    [array] and [object] for the non-scalars and otherwise the type followed
    by a JSON or literal rendering of the value. *)
Definition inspectValue (value : Value) : string :=
  match value with
  | VUndefined => "undefined"
  | VNull => "null"
  | VArray _ => "array"
  | VObject _ _ => "object"
  | VString s => "string " ++ quote ++ jsonEscape s ++ quote
  | VNumber n => "number " ++ numberToString n
  | VBoolean b => "boolean " ++ (if b then "true" else "false")
  | VBigInt z => "bigint " ++ intToString z
  | VSymbol description => "symbol Symbol(" ++ description ++ ")"
  | VFunction name => "function " ++ name
  end.

(* ------------------------------------------------------------------------- *)
(** ** The messages of the primitive schemas *)

Definition primitives : list (string * Schema) :=
  [("string", createStringSchema); ("number", createNumberSchema);
   ("boolean", createBooleanSchema); ("bigint", createBigIntSchema)].

(* ------------------------------------------------------------------------- *)
(** ** What a successful fast pass collects *)

(** The accumulator after the loop has stored the data [ds] of the elements
    [xs]. *)
Fixpoint storeAll {A Acc} (store : A -> Value -> Acc -> Acc) (xs : list A) (ds : list Value)
    (acc : Acc) : Acc :=
  match xs, ds with
  | x :: xs', d :: ds' => storeAll store xs' ds' (store x d acc)
  | _, _ => acc
  end.

(* ------------------------------------------------------------------------- *)
(** ** Parsing a parsed value again *)




(** The callback [(s) => s.length]: the number of code units of a string
    and of items of an array, a [TypeError] on [null] and [undefined], the
    property [length] of an object; a number, a boolean, a bigint and a symbol
    have none (the arity of a function is not kept by the model, where
    [undefined] stands for it). *)
Definition stringLength : Callback :=
  fun value =>
    match value with
    | VString s => Returned (num (Z.of_nat (String.length s)))
    | VArray items => Returned (num (Z.of_nat (length items)))
    | VNull => Thrown "Cannot read properties of null (reading 'length')"
    | VUndefined => Thrown "Cannot read properties of undefined (reading 'length')"
    | VObject _ _ => Returned (readProperty "length" value)
    | _ => Returned VUndefined
    end.

(* ------------------------------------------------------------------------- *)
(** ** The discriminated union of the specification *)

(** [schema[key]] on a field map. *)
Fixpoint shapeLookup (key : string) (schema : Shape) : option Schema :=
  match schema with
  | [] => None
  | (k, s) :: rest => if String.eqb key k then Some s else shapeLookup key rest
  end.

(** Modelled from the spec: whether a branch declares the discriminator
    value, that is whether the schema its shape gives to the discriminator key
    accepts the value. *)
Definition declares (discriminatorKey : string) (discriminator : Value) (branch : ObjectSchema)
  : M bool :=
  match shapeLookup discriminatorKey (shape branch) with
  | None => ret false
  | Some fieldSchema =>
      result <- internalSafeParse fieldSchema discriminator None ;;
      match result with
      | Success _ => ret true
      | Failure => ret false
      end
  end.

(** Modelled from the spec: the branches that declare the discriminator value
    of the input, in declaration order. *)
Fixpoint matchingBranches (discriminatorKey : string) (discriminator : Value)
    (branchSchemas : list ObjectSchema) : M (list ObjectSchema) :=
  match branchSchemas with
  | [] => ret []
  | branch :: rest =>
      declared <- declares discriminatorKey discriminator branch ;;
      others <- matchingBranches discriminatorKey discriminator rest ;;
      ret (if declared then branch :: others else others)
  end.

(** Modelled from the spec: [discriminatedUnion(discriminatorKey, branchSchemas)],
    whose source is not among the files (its tests are).  The input must be a
    non-null, non-array object, with the message of the type check of
    [ObjectSchema]; no branch declaring the discriminator value of the input is
    the error [Invalid discriminator value <inspected value>] at the path of
    the discriminator key, several are [Ambiguous discriminator value
    <inspected value>] there, and exactly one delegates the whole validation to
    that branch. *)
Definition createDiscriminatedUnionSchema (discriminatorKey : string)
    (branchSchemas : list ObjectSchema) : Schema :=
  fun value context =>
    if notAnObject value then
      report context ("Expected object, got " ++ getType value) ;;; ret Failure
    else
      let discriminator := getProperty discriminatorKey (ownEntries value) in
      let discriminatorContext :=
        match context with
        | Some contextPath => Some (contextPath ++ [Key discriminatorKey])%list
        | None => None
        end in
      matching <- matchingBranches discriminatorKey discriminator branchSchemas ;;
      match matching with
      | [] =>
          report discriminatorContext ("Invalid discriminator value " ++ inspectValue discriminator) ;;;
          ret Failure
      | [branch] => internalSafeParse (toSchema branch) value context
      | _ =>
          report discriminatorContext ("Ambiguous discriminator value " ++ inspectValue discriminator) ;;;
          ret Failure
      end.

(** [haystack.includes(needle)] *)
Definition includes (haystack needle : string) : Prop :=
  exists before after, haystack = before ++ needle ++ after.

Definition circleSchema : ObjectSchema :=
  newObjectSchema [("kind", createLiteralSchema (inl (LString "circle")));
                   ("radius", createNumberSchema)] false.

Definition squareSchema : ObjectSchema :=
  newObjectSchema [("kind", createLiteralSchema (inl (LString "square")));
                   ("size", createNumberSchema)] false.

(** [(n) => { if (n < 0) throw new Error('Number must be positive'); return n * 2 }] *)
Definition doublePositive : Callback :=
  fun value =>
    match value with
    | VNumber (Num z) =>
        if Z.ltb z 0 then Thrown "Number must be positive" else Returned (num (z * 2))
    | _ => Returned (VNumber NaN)
    end.



(* ------------------------------------------------------------------------- *)
(** ** Further notions: composed callbacks, relocated errors *)

(** [(value) => g(f(value))], an exception of [f] passing through. *)
Definition composeCallbacks (f g : Callback) : Callback :=
  fun value =>
    match f value with
    | Returned data => g data
    | Thrown msg => Thrown msg
    end.

(** The schemas that check nothing but the type of their input, with the
    name their message gives to the type they expect. *)
Definition typeSchemas : list (string * Schema) :=
  [("string", createStringSchema);
   ("number", createNumberSchema);
   ("boolean", createBooleanSchema);
   ("bigint", createBigIntSchema);
   ("null", createNullSchema);
   ("undefined", createUndefinedSchema);
   ("array", createArraySchema createUnknownSchema);
   ("object", createObjectSchema [])].

(** An error seen from a schema that sits below [prefix]. *)
Definition relocate (prefix : Path) (e : ValidationError) : ValidationError :=
  mkError (prefix ++ path e) (message e).

(** What a schema returns and reports when it is run at the root with an
    empty errors array. *)
Definition outcomeOf (schema : Schema) (value : Value) : Outcome Result :=
  fst (schema value (Some []) []).

Definition errorsOf (schema : Schema) (value : Value) : Errors :=
  snd (schema value (Some []) []).

(** The run of a schema at any context path is its run at the root, with the
    path put before the path of every error and the errors appended to those
    already there. *)
Definition Relocatable (schema : Schema) : Prop :=
  forall value contextPath errors,
    schema value (Some contextPath) errors =
    (outcomeOf schema value, (errors ++ map (relocate contextPath) (errorsOf schema value))%list).

(** The same for a computation that depends on the context path. *)
Definition Reloc {A} (body : Context -> M A) : Prop :=
  forall contextPath errors,
    body contextPath errors =
    (fst (body [] []), (errors ++ map (relocate contextPath) (snd (body [] [])))%list).

(** A computation that appends to the errors array without reading it. *)
Definition Framed {A} (m : M A) : Prop :=
  forall errors, m errors = (fst (m []), (errors ++ snd (m []))%list).

(** The errors of the failure [safeParse] returns, none when it succeeds. *)
Definition failureErrors (schema : Schema) (value : Value) : Errors :=
  match safeParse schema value with
  | Returned (SafeFailure _ errors) => errors
  | _ => []
  end.

(* ========================================================================= *)
(** * Properties *)

(* ------------------------------------------------------------------------- *)
(** ** Sample runs *)

Example parse_object_sample :
  safeParse (createObjectSchema [("age", createNumberSchema); ("name", createStringSchema)])
            (obj [("age", num 30); ("name", VString "John"); ("email", VString "john@example.com")])
  = Returned (SafeSuccess (obj [("age", num 30); ("name", VString "John")])).
Proof. reflexivity. Qed.

Example parse_error_paths_sample :
  safeParse
    (createObjectSchema
       [("user", createObjectSchema [("name", createStringSchema); ("age", createNumberSchema)]);
        ("items", createArraySchema
                    (createObjectSchema [("id", createNumberSchema); ("price", createNumberSchema)]))])
    (obj [("user", obj [("name", VString "John"); ("age", VString "not a number")]);
          ("items", VArray [obj [("id", num 1); ("price", num 10)];
                            obj [("id", VString "two"); ("price", num 20)]])])
  = Returned
      (SafeFailure
         "Validation failed: Expected number, got string (at path /user/age), Expected number, got string (at path /items/1/id)"
         [mkError [Key "user"; Key "age"] "Expected number, got string";
          mkError [Key "items"; Index 1; Key "id"] "Expected number, got string"]).
Proof. vm_compute. reflexivity. Qed.

Example multiple_errors_sample :
  safeParse
    (createObjectSchema [("name", createStringSchema); ("age", createNumberSchema);
                         ("email", createStringSchema); ("isActive", createBooleanSchema)])
    (obj [("name", num 123); ("age", VString "thirty"); ("email", VBoolean true);
          ("isActive", VString "yes")])
  = Returned
      (SafeFailure
         "Validation failed: Expected string, got number (at path /name), Expected number, got string (at path /age), Expected string, got boolean (at path /email), Expected boolean, got string (at path /isActive)"
         [mkError [Key "name"] "Expected string, got number";
          mkError [Key "age"] "Expected number, got string";
          mkError [Key "email"] "Expected string, got boolean";
          mkError [Key "isActive"] "Expected boolean, got string"]).
Proof. vm_compute. reflexivity. Qed.

Example tuple_sample :
  parse (createTupleSchema [createStringSchema; createNumberSchema; createBooleanSchema])
        (VArray [VString "hello"; num 42; VBoolean true])
  = Returned (VArray [VString "hello"; num 42; VBoolean true]) /\
  parse (createTupleSchema [createStringSchema; createNumberSchema; createBooleanSchema])
        (VArray [VString "hello"; num 42])
  = Thrown "Validation failed: Expected array of length 3, got array of length 2 (at path /)" /\
  parse (createTupleSchema [createStringSchema; createNumberSchema; createBooleanSchema])
        (VArray [VString "hello"; VString "42"; VBoolean true])
  = Thrown "Validation failed: Expected number, got string (at path /1)".
Proof. repeat split; vm_compute; reflexivity. Qed.

Example transform_sample :
  parse (transform createNumberSchema doublePositive) (num 5) = Returned (num 10) /\
  parse (transform createNumberSchema doublePositive) (num (-5))
  = Thrown "Validation failed: Number must be positive (at path /)" /\
  parse (transform createNumberSchema doublePositive) (VString "5")
  = Thrown "Validation failed: Expected number, got string (at path /)".
Proof. repeat split; vm_compute; reflexivity. Qed.

Example literal_array_sample :
  parse (createLiteralSchema (inr [LString "red"; LString "green"; LString "blue"])) (VString "green")
  = Returned (VString "green") /\
  parse (createLiteralSchema (inr [LString "red"; LString "green"; LString "blue"])) (VString "yellow")
  = Thrown "Validation failed: Expected literal red, got string (at path /), Expected literal green, got string (at path /), Expected literal blue, got string (at path /)".
Proof. repeat split; vm_compute; reflexivity. Qed.

Example optional_fields_sample :
  parse (createObjectSchema [("required", createStringSchema);
                             ("optional", optional createStringSchema);
                             ("nullable", nullable createStringSchema);
                             ("nullish", createNullishSchema createStringSchema)])
        (obj [("required", VString "yes"); ("nullable", VNull); ("nullish", VUndefined)])
  = Returned (obj [("required", VString "yes"); ("optional", VUndefined);
                   ("nullable", VNull); ("nullish", VUndefined)]) /\
  safeParse (createObjectSchema [("required", createStringSchema);
                                 ("optional", optional createStringSchema)])
            (obj [("optional", VString "maybe")])
  = Returned (SafeFailure "Validation failed: Expected string, got undefined (at path /required)"
                [mkError [Key "required"] "Expected string, got undefined"]).
Proof. repeat split; vm_compute; reflexivity. Qed.

Example record_sample :
  parse (createRecordSchema createNumberSchema) (obj [("a", num 1); ("b", num 2); ("c", num 3)])
  = Returned (obj [("a", num 1); ("b", num 2); ("c", num 3)]) /\
  parse (createRecordSchema createNumberSchema) (obj [("a", num 1); ("b", VString "2")])
  = Thrown "Validation failed: Expected number, got string (at path /b)" /\
  parse (createDateSchema) (VObject ["Date"; "Object"] []) = Returned (VObject ["Date"; "Object"] []) /\
  parse (createDateSchema) (VString "2023-01-01")
  = Thrown "Validation failed: Expected instance of Date, got string (at path /)".
Proof. repeat split; vm_compute; reflexivity. Qed.

(* ------------------------------------------------------------------------- *)
(** ** Fast passes leave the errors array alone *)

Lemma pure_ret A (a : A) : Pure (ret a).
Proof. intros errors. reflexivity. Qed.

Lemma pure_throw A msg : Pure (@throw A msg).
Proof. intros errors. reflexivity. Qed.

Lemma pure_fastOutcome_bind A B (m : M A) (k : A -> M B) :
  Pure m ->
  fastOutcome (bind m k) =
  match fastOutcome m with
  | Returned a => fastOutcome (k a)
  | Thrown msg => Thrown msg
  end.
Proof.
  intros Hm. unfold fastOutcome at 1. unfold bind. rewrite (Hm []).
  destruct (fastOutcome m); reflexivity.
Qed.

Lemma pure_bind A B (m : M A) (k : A -> M B) :
  Pure m ->
  (forall a, fastOutcome m = Returned a -> Pure (k a)) ->
  Pure (bind m k).
Proof.
  intros Hm Hk errors. rewrite pure_fastOutcome_bind by assumption.
  unfold bind. rewrite (Hm errors).
  destruct (fastOutcome m) as [a | msg] eqn:E; [apply Hk; reflexivity | reflexivity].
Qed.

Lemma parseEach_pure A Acc (validate : A -> M Result) (store : A -> Value -> Acc -> Acc) xs :
  (forall x, In x xs -> Pure (validate x)) ->
  forall acc, Pure (parseEach validate store xs acc).
Proof.
  induction xs as [| x rest IH]; intros Hv acc; simpl.
  - apply pure_ret.
  - apply pure_bind.
    + apply Hv. left. reflexivity.
    + intros [data |] _.
      * apply IH. intros y Hy. apply Hv. right. exact Hy.
      * apply pure_ret.
Qed.

(** A fast loop that returned [None] met an element whose validation
    failed. *)
Lemma parseEach_failure A Acc (validate : A -> M Result) (store : A -> Value -> Acc -> Acc) xs :
  (forall x, In x xs -> Pure (validate x)) ->
  forall acc,
    fastOutcome (parseEach validate store xs acc) = Returned None ->
    Exists (fun x => fastOutcome (validate x) = Returned Failure) xs.
Proof.
  induction xs as [| x rest IH]; intros Hv acc; simpl.
  - unfold fastOutcome, ret. simpl. discriminate.
  - rewrite pure_fastOutcome_bind by (apply Hv; left; reflexivity).
    destruct (fastOutcome (validate x)) as [[data |] | msg] eqn:E.
    + intros H. apply Exists_cons_tl. apply (IH (fun y Hy => Hv y (or_intror Hy)) _ H).
    + intros _. apply Exists_cons_hd. exact E.
    + discriminate.
Qed.

(* ------------------------------------------------------------------------- *)
(** ** Diagnostic passes *)

(** The diagnostic loop over the elements of a failed fast loop. *)
Lemma forOf_diagnose ne A (fastRun diagRun : A -> M Result) xs :
  (forall x, In x xs -> Coherent ne (fastRun x) (diagRun x)) ->
  forall errors,
  exists o new,
    forOf (fun x => diagRun x ;;; ret tt) xs errors = (o, (errors ++ new)%list) /\
    (ne -> o = Returned tt ->
     Exists (fun x => fastOutcome (fastRun x) = Returned Failure) xs -> new <> []).
Proof.
  induction xs as [| x rest IH]; intros Hc errors.
  - exists (Returned tt), []. simpl. unfold ret. rewrite app_nil_r. split; [reflexivity |].
    intros _ _ H. inversion H.
  - assert (Hrest : forall y, In y rest -> Coherent ne (fastRun y) (diagRun y))
      by (intros y Hy; apply Hc; right; exact Hy).
    destruct (Hc x (or_introl eq_refl)) as [_ Hx]. specialize (Hx errors).
    simpl. unfold bind at 1. unfold bind at 1.
    destruct (fastOutcome (fastRun x)) as [[data |] | msg] eqn:E.
    + rewrite Hx. unfold ret at 1.
      destruct (IH Hrest errors) as (o & new & Hrun & Hne).
      exists o, new. split; [exact Hrun |].
      intros Hn Ho Hex. apply (Hne Hn Ho).
      inversion Hex as [? ? H | ? ? H]; subst; [congruence | exact H].
    + destruct Hx as (o1 & new1 & Hrun1 & Hnot & Hne1). rewrite Hrun1.
      destruct o1 as [[data |] | msg].
      * exfalso. apply (Hnot data). reflexivity.
      * unfold ret at 1.
        destruct (IH Hrest (errors ++ new1)%list) as (o & new & Hrun & _).
        exists o, (new1 ++ new)%list. rewrite app_assoc. split; [exact Hrun |].
        intros Hn _ _ Happ. apply app_eq_nil in Happ. destruct Happ as [H1 _].
        apply (Hne1 Hn eq_refl H1).
      * exists (Thrown msg), new1. split; [reflexivity |]. discriminate.
    + rewrite Hx. exists (Thrown msg), []. rewrite app_nil_r. split; [reflexivity |]. discriminate.
Qed.

Lemma twoPhase_coherent ne (fast : M Result) (diagnose : Context -> M unit) contextPath :
  Pure fast ->
  (forall errors, exists o new,
      diagnose contextPath errors = (o, (errors ++ new)%list) /\
      (ne -> o = Returned tt -> fastOutcome fast = Returned Failure -> new <> [])) ->
  Coherent ne (twoPhase fast diagnose None) (twoPhase fast diagnose (Some contextPath)).
Proof.
  intros Hp Hd.
  assert (Hfast : fastOutcome (twoPhase fast diagnose None) = fastOutcome fast).
  { unfold twoPhase. rewrite pure_fastOutcome_bind by assumption.
    destruct (fastOutcome fast) as [[data |] | msg]; reflexivity. }
  split.
  - unfold twoPhase. apply pure_bind; [assumption |].
    intros [data |] _; apply pure_ret.
  - intros errors. rewrite Hfast.
    assert (Hrun0 : twoPhase fast diagnose (Some contextPath) errors =
                    match fastOutcome fast with
                    | Returned (Success data) => (Returned (Success data), errors)
                    | Returned Failure => (diagnose contextPath ;;; ret Failure) errors
                    | Thrown msg => (Thrown msg, errors)
                    end).
    { unfold twoPhase, bind at 1. rewrite (Hp errors).
      destruct (fastOutcome fast) as [[data |] | msg]; reflexivity. }
    rewrite Hrun0. clear Hrun0.
    destruct (fastOutcome fast) as [[data |] | msg] eqn:E; try reflexivity.
    destruct (Hd errors) as (o & new & Hrun & Hne).
    unfold bind. rewrite Hrun. destruct o as [[] | msg].
    + exists (Returned Failure), new. split; [reflexivity |]. split; [discriminate |].
      intros Hn _. apply (Hne Hn); reflexivity.
    + exists (Thrown msg), new. split; [reflexivity |]. split; discriminate.
Qed.

Lemma fastLoop_pure A Acc (validate : A -> M Result) (store : A -> Value -> Acc -> Acc) xs acc finish :
  (forall x, In x xs -> Pure (validate x)) ->
  (forall collected, Pure (finish collected)) ->
  Pure (fastLoop validate store xs acc finish).
Proof.
  intros Hv Hf. unfold fastLoop. apply pure_bind.
  - apply parseEach_pure. exact Hv.
  - intros [collected |] _; [apply Hf | apply pure_ret].
Qed.

Lemma fastLoop_failure A Acc (validate : A -> M Result) (store : A -> Value -> Acc -> Acc) xs acc finish :
  (forall x, In x xs -> Pure (validate x)) ->
  fastOutcome (fastLoop validate store xs acc finish) = Returned Failure ->
  Exists (fun x => fastOutcome (validate x) = Returned Failure) xs \/
  exists collected,
    fastOutcome (parseEach validate store xs acc) = Returned (Some collected) /\
    fastOutcome (finish collected) = Returned Failure.
Proof.
  intros Hv. unfold fastLoop.
  rewrite pure_fastOutcome_bind by (apply parseEach_pure; exact Hv).
  destruct (fastOutcome (parseEach validate store xs acc)) as [[collected |] | msg] eqn:E.
  - intros H. right. exists collected. split; [reflexivity | exact H].
  - intros _. left. eapply parseEach_failure; eassumption.
  - discriminate.
Qed.

(* ------------------------------------------------------------------------- *)
(** ** Every constructor is coherent *)

(** A rejection at the validator's own path. *)
Lemma reject_coherent ne msg contextPath :
  Coherent ne (report None msg ;;; ret Failure) (report (Some contextPath) msg ;;; ret Failure).
Proof.
  split.
  - intros errors. reflexivity.
  - intros errors. cbn. exists (Returned Failure), [mkError contextPath msg].
    split; [reflexivity |]. split; discriminate.
Qed.

Lemma accept_coherent ne data :
  Coherent ne (ret (Success data)) (ret (Success data)).
Proof. split; [apply pure_ret | intros errors; reflexivity]. Qed.

Lemma check_behaves ne (failed : Value -> bool) (msg data : Value -> _) :
  Behaves ne (fun value context =>
                if failed value then report context (msg value) ;;; ret Failure
                else ret (Success (data value))).
Proof.
  intros value contextPath. destruct (failed value).
  - apply reject_coherent.
  - apply accept_coherent.
Qed.

Lemma behaves_pure ne schema value :
  Behaves ne schema -> Pure (schema value None).
Proof. intros H. destruct (H value []) as [Hp _]. exact Hp. Qed.

Lemma indexedFrom_snd A (xs : list A) index : map snd (indexedFrom index xs) = xs.
Proof.
  revert index. induction xs as [| x rest IH]; intros index; simpl;
    [reflexivity | rewrite IH; reflexivity].
Qed.

(** A composite validator whose diagnostic pass is a loop over the elements
    [map proj ys] of its fast pass. *)
Lemma loops_coherent ne A B Acc (proj : B -> A) (fastRun : A -> M Result)
    (diagRun : Context -> B -> M Result)
    (store : A -> Value -> Acc -> Acc) ys acc (wrap : Acc -> Value) contextPath :
  (forall y, In y ys -> Coherent ne (fastRun (proj y)) (diagRun contextPath y)) ->
  Coherent ne
    (twoPhase (fastLoop fastRun store (map proj ys) acc (fun collected => ret (Success (wrap collected))))
              (fun c => forOf (fun y => diagRun c y ;;; ret tt) ys) None)
    (twoPhase (fastLoop fastRun store (map proj ys) acc (fun collected => ret (Success (wrap collected))))
              (fun c => forOf (fun y => diagRun c y ;;; ret tt) ys) (Some contextPath)).
Proof.
  intros Hc.
  assert (Hp : forall x, In x (map proj ys) -> Pure (fastRun x)).
  { intros x Hx. apply in_map_iff in Hx. destruct Hx as (y & <- & Hy). apply (Hc y Hy). }
  apply twoPhase_coherent.
  - apply fastLoop_pure; [exact Hp | intros collected; apply pure_ret].
  - intros errors.
    destruct (forOf_diagnose (fun y => fastRun (proj y)) (diagRun contextPath) ys Hc errors)
      as (o & new & Hrun & Hne).
    exists o, new. split; [exact Hrun |].
    intros Hn Ho Hfail. apply (Hne Hn Ho).
    destruct (fastLoop_failure _ _ _ _ _ Hp Hfail) as [Hex | (collected & _ & Hfin)];
      [| discriminate].
    apply Exists_map in Hex. exact Hex.
Qed.

Lemma createArraySchema_behaves ne schema :
  Behaves ne schema -> Behaves ne (createArraySchema schema).
Proof.
  intros Hs value contextPath. unfold createArraySchema.
  destruct (negb (isArray value)); [apply reject_coherent |].
  pose proof (loops_coherent (ne := ne) snd
           (fun item => internalSafeParse schema item None)
           (fun c entry => internalSafeParse schema (snd entry) (Some (c ++ [Index (fst entry)])%list))
           (fun _ data parsedItems => (parsedItems ++ [data])%list)
           (indexed (arrayItems value)) [] VArray contextPath) as H.
  unfold indexed in *. rewrite indexedFrom_snd in H.
  apply H. intros y _. apply Hs.
Qed.

Lemma createTupleSchema_behaves ne schema :
  (forall s, In s schema -> Behaves ne s) -> Behaves ne (createTupleSchema schema).
Proof.
  intros Hs value contextPath. unfold createTupleSchema.
  destruct (negb (isArray value)); [apply reject_coherent |].
  destruct (negb (Nat.eqb (length (arrayItems value)) (length schema))); [apply reject_coherent |].
  pose proof (loops_coherent (ne := ne) (fun entry => entry)
           (fun entry => internalSafeParse (snd entry) (itemAt (arrayItems value) (fst entry)) None)
           (fun c entry => internalSafeParse (snd entry) (itemAt (arrayItems value) (fst entry))
                             (Some (c ++ [Index (fst entry)])%list))
           (fun _ data parsedItems => (parsedItems ++ [data])%list)
           (indexed schema) [] VArray contextPath) as H.
  rewrite map_id in H. apply H. intros [index s] Hy. apply Hs.
  unfold indexed in Hy. rewrite <- (indexedFrom_snd schema 0).
  apply (in_map snd _ _ Hy).
Qed.

Lemma throw_coherent ne msg : Coherent ne (throw msg) (throw msg).
Proof. split; [apply pure_throw | intros errors; reflexivity]. Qed.

Lemma createRecordSchema_behaves ne schema :
  Behaves ne schema -> Behaves ne (createRecordSchema schema).
Proof.
  intros Hs record contextPath. unfold createRecordSchema.
  destruct (notAnObject record); [apply throw_coherent |].
  pose proof (loops_coherent (ne := ne) (fun entry => entry)
           (fun entry => internalSafeParse schema (snd entry) None)
           (fun c entry => internalSafeParse schema (snd entry) (Some (c ++ [Key (fst entry)])%list))
           (fun entry data parsedObject => setProperty (fst entry) data parsedObject)
           (ownEntries record) [] (VObject plain) contextPath) as H.
  rewrite map_id in H. apply H. intros y _. apply Hs.
Qed.

Lemma firstSuccess_pure schemas value :
  (forall s, In s schemas -> Pure (s value None)) -> Pure (firstSuccess schemas value).
Proof.
  induction schemas as [| s rest IH]; intros Hp; simpl.
  - apply pure_ret.
  - apply pure_bind; [apply Hp; left; reflexivity |].
    intros [data |] _; [apply pure_ret |].
    apply IH. intros s' Hs'. apply Hp. right. exact Hs'.
Qed.

Lemma firstSuccess_failure schemas value :
  (forall s, In s schemas -> Pure (s value None)) ->
  fastOutcome (firstSuccess schemas value) = Returned Failure ->
  Forall (fun s => fastOutcome (s value None) = Returned Failure) schemas.
Proof.
  induction schemas as [| s rest IH]; intros Hp; simpl.
  - intros _. constructor.
  - unfold internalSafeParse.
    rewrite pure_fastOutcome_bind by (apply Hp; left; reflexivity).
    destruct (fastOutcome (s value None)) as [[data |] | msg] eqn:E; try discriminate.
    intros H. constructor; [exact E |].
    apply IH; [| exact H]. intros s' Hs'. apply Hp. right. exact Hs'.
Qed.

Lemma createUnionSchema_behaves ne schemas :
  (ne -> schemas <> []) ->
  (forall s, In s schemas -> Behaves ne s) ->
  Behaves ne (createUnionSchema schemas).
Proof.
  intros Hne Hs value contextPath. unfold createUnionSchema.
  assert (Hp : forall s, In s schemas -> Pure (s value None))
    by (intros s H; apply (behaves_pure value (Hs s H))).
  apply (@twoPhase_coherent ne (firstSuccess schemas value)
           (fun c => forOf (fun s => internalSafeParse s value (Some c) ;;; ret tt) schemas)
           contextPath).
  - apply firstSuccess_pure. exact Hp.
  - intros errors.
    destruct (forOf_diagnose (ne := ne) (fun s : Schema => s value None)
                (fun s : Schema => internalSafeParse s value (Some contextPath)) schemas
                (fun s H => Hs s H value contextPath) errors) as (o & new & Hrun & Hnew).
    exists o, new. split; [exact Hrun |].
    intros Hn Ho Hfail. apply (Hnew Hn Ho).
    pose proof (@firstSuccess_failure schemas value Hp Hfail) as Hall.
    destruct schemas as [| s rest]; [exfalso; apply (Hne Hn); reflexivity |].
    apply Exists_cons_hd. inversion Hall; assumption.
Qed.

Lemma createLazySchema_behaves ne fn :
  Behaves ne (fn tt) -> Behaves ne (createLazySchema fn).
Proof. intros H value contextPath. apply H. Qed.

Lemma transform_fastOutcome ne this callback value :
  Behaves ne this ->
  fastOutcome (transform this callback value None) =
  match fastOutcome (this value None) with
  | Returned (Success data) =>
      match callback data with
      | Returned data' => Returned (Success data')
      | Thrown _ => Returned Failure
      end
  | _ => Returned Failure
  end.
Proof.
  intros H. pose proof (behaves_pure value H) as Hp.
  unfold fastOutcome at 1. unfold transform, tryCatch, bind, internalSafeParse.
  rewrite (Hp []).
  destruct (fastOutcome (this value None)) as [[data |] | msg]; try reflexivity.
  destruct (callback data); reflexivity.
Qed.

Lemma transform_behaves ne this callback :
  Behaves ne this -> Behaves ne (transform this callback).
Proof.
  intros H value contextPath. split.
  - intros errors. rewrite (transform_fastOutcome callback value H).
    pose proof (behaves_pure value H) as Hp.
    unfold transform, tryCatch, bind, internalSafeParse. rewrite (Hp errors).
    destruct (fastOutcome (this value None)) as [[data |] | msg]; try reflexivity.
    destruct (callback data); reflexivity.
  - intros errors. rewrite (transform_fastOutcome callback value H).
    destruct (H value contextPath) as [_ Hd]. specialize (Hd errors).
    unfold transform, tryCatch, bind, internalSafeParse.
    destruct (fastOutcome (this value None)) as [[data |] | msg].
    + rewrite Hd. destruct (callback data) as [data' | msg]; [reflexivity |].
      cbn. exists (Returned Failure), [mkError contextPath msg].
      split; [reflexivity |]. split; discriminate.
    + destruct Hd as (o & new & Hrun & Hnot & Hnew). rewrite Hrun.
      destruct o as [[data |] | msg].
      * exfalso. apply (Hnot data). reflexivity.
      * exists (Returned Failure), new. split; [reflexivity |]. split; [discriminate |].
        intros Hn _. apply (Hnew Hn). reflexivity.
      * cbn. exists (Returned Failure), (new ++ [mkError contextPath msg])%list.
        rewrite app_assoc. split; [reflexivity |]. split; [discriminate |].
        intros _ _ Happ. apply app_eq_nil in Happ. destruct Happ as [_ Happ]. discriminate.
    + rewrite Hd. cbn. exists (Returned Failure), [mkError contextPath msg].
      split; [reflexivity |]. split; discriminate.
Qed.

Lemma bind_returned A B (m : M A) (k : A -> M B) errors a errors' :
  m errors = (Returned a, errors') -> bind m k errors = k a errors'.
Proof. intros H. unfold bind. rewrite H. reflexivity. Qed.

Lemma bind_thrown A B (m : M A) (k : A -> M B) errors msg errors' :
  m errors = (Thrown msg, errors') -> bind m k errors = (Thrown msg, errors').
Proof. intros H. unfold bind. rewrite H. reflexivity. Qed.

Lemma existsb_filter_nonempty A (f : A -> bool) xs :
  existsb f xs = true -> Nat.ltb 0 (length (filter f xs)) = true.
Proof.
  induction xs as [| x rest IH]; simpl; [discriminate |].
  destruct (f x); simpl; [reflexivity | exact IH].
Qed.

Lemma objectSafeParseFn_behaves ne schema strict :
  (forall entry, In entry schema -> Behaves ne (snd entry)) ->
  Behaves ne (objectSafeParseFn schema strict).
Proof.
  intros Hs value contextPath. unfold objectSafeParseFn.
  destruct (notAnObject value); [apply reject_coherent |].
  cbv zeta.
  set (fastRun := fun entry : string * Schema =>
                    internalSafeParse (snd entry) (readProperty (fst entry) value) None).
  set (diagRun := fun entry : string * Schema =>
                    internalSafeParse (snd entry) (readProperty (fst entry) value)
                      (Some (contextPath ++ [Key (fst entry)])%list)).
  set (store := fun (entry : string * Schema) data parsedObject =>
                  setProperty (fst entry) data parsedObject).
  set (finish := fun parsedObject : Entries =>
                   if strict && existsb (fun key => negb (keyIn key schema)) (keys (ownEntries value))
                   then ret Failure else ret (Success (VObject plain parsedObject))).
  assert (Hc : forall entry, In entry schema -> Coherent ne (fastRun entry) (diagRun entry))
    by (intros entry H; apply (Hs entry H)).
  assert (Hp : forall entry, In entry schema -> Pure (fastRun entry))
    by (intros entry H; apply (Hc entry H)).
  apply (@twoPhase_coherent ne (fastLoop fastRun store schema [] finish)
           (fun c =>
              forOf (fun entry =>
                       internalSafeParse (snd entry) (readProperty (fst entry) value)
                         (Some (c ++ [Key (fst entry)])%list) ;;; ret tt) schema ;;;
              if strict then
                let unrecognizedKeys := unrecognized schema (ownEntries value) in
                if Nat.ltb 0 (length unrecognizedKeys)
                then push (mkError c ("Unrecognized keys: " ++ join ", " unrecognizedKeys))
                else ret tt
              else ret tt)
           contextPath).
  - apply fastLoop_pure; [exact Hp |].
    intros parsedObject. unfold finish.
    destruct (strict && _); apply pure_ret.
  - intros errors.
    destruct (forOf_diagnose fastRun diagRun schema Hc errors) as (o & new & Hrun & Hnew).
    destruct o as [[] | msg];
      [rewrite (@bind_returned _ _ _ _ _ _ _ Hrun)
      | rewrite (@bind_thrown _ _ _ _ _ _ _ Hrun); exists (Thrown msg), new; split; [reflexivity | discriminate]].
    assert (Hfin : ne -> fastOutcome (fastLoop fastRun store schema [] finish) = Returned Failure ->
                   strict && existsb (fun key => negb (keyIn key schema)) (keys (ownEntries value)) = false ->
                   new <> []).
    { intros Hn Hfail Hstrict. apply (Hnew Hn eq_refl).
      destruct (fastLoop_failure _ _ _ _ _ Hp Hfail) as [Hex | (collected & _ & Hf)]; [exact Hex |].
      unfold finish in Hf. rewrite Hstrict in Hf. discriminate. }
    destruct strict.
    + cbv zeta. destruct (Nat.ltb 0 (length (unrecognized schema (ownEntries value)))) eqn:U.
      * unfold push. eexists (Returned tt), (new ++ [_])%list. rewrite app_assoc.
        split; [reflexivity |]. intros _ _ _ Happ.
        apply app_eq_nil in Happ. destruct Happ as [_ Happ]. discriminate.
      * exists (Returned tt), new. split; [reflexivity |].
        intros Hn _ Hfail. apply (Hfin Hn Hfail). simpl.
        destruct (existsb (fun key => negb (keyIn key schema)) (keys (ownEntries value))) eqn:Ex;
          [| reflexivity].
        apply existsb_filter_nonempty in Ex. unfold unrecognized in U. congruence.
    + exists (Returned tt), new. split; [reflexivity |].
      intros Hn _ Hfail. apply (Hfin Hn Hfail). reflexivity.
Qed.

Lemma createSingleLiteralSchema_behaves ne literal :
  Behaves ne (createSingleLiteralSchema literal).
Proof.
  apply (check_behaves ne (fun value => negb (strictEq value literal))
           (fun value => "Expected literal " ++ literalToString literal ++ ", got " ++ getType value)
           (fun _ => literalValue literal)).
Qed.

Lemma createNullSchema_behaves ne : Behaves ne createNullSchema.
Proof.
  apply (check_behaves ne (fun value => negb (match value with VNull => true | _ => false end))
           (fun value => "Expected null, got " ++ getType value) (fun value => value)).
Qed.

Lemma createUndefinedSchema_behaves ne : Behaves ne createUndefinedSchema.
Proof.
  apply (check_behaves ne (fun value => negb (match value with VUndefined => true | _ => false end))
           (fun value => "Expected undefined, got " ++ getType value) (fun value => value)).
Qed.

Lemma typeof_check_behaves ne kind :
  Behaves ne (fun value context =>
                if negb (String.eqb (typeof value) kind) then
                  report context ("Expected " ++ kind ++ ", got " ++ getType value) ;;; ret Failure
                else ret (Success value)).
Proof.
  apply (check_behaves ne (fun value => negb (String.eqb (typeof value) kind))
           (fun value => "Expected " ++ kind ++ ", got " ++ getType value) (fun value => value)).
Qed.

Theorem constructed_behaves (ne : Prop) F schema :
  (ne -> forall schemas, unionBranches F schemas -> schemas <> []) ->
  Constructed F schema -> Behaves ne schema.
Proof.
  intros HF H.
  induction H as [ | | | | | | | ctor | literal | literals Hu | schema _ IH | schema _ IH
                 | schema strict _ _ _ IH | schema _ _ IH | schemas Hu _ IH
                 | schema _ IH | schema _ IH | schema _ IH | fn _ IH | this callback _ _ IH ].
  - apply (typeof_check_behaves ne "string").
  - apply (typeof_check_behaves ne "number").
  - apply (typeof_check_behaves ne "boolean").
  - apply (typeof_check_behaves ne "bigint").
  - apply createNullSchema_behaves.
  - apply createUndefinedSchema_behaves.
  - intros value contextPath. apply accept_coherent.
  - apply (check_behaves ne (fun value => negb (instanceOf value ctor))
             (fun value => "Expected instance of " ++ ctor ++ ", got " ++ getType value)
             (fun value => value)).
  - apply createSingleLiteralSchema_behaves.
  - apply createUnionSchema_behaves.
    + intros Hn. apply (HF Hn _ Hu).
    + intros s Hs. apply in_map_iff in Hs. destruct Hs as (literal & <- & _).
      apply createSingleLiteralSchema_behaves.
  - apply createArraySchema_behaves. exact IH.
  - apply createTupleSchema_behaves. exact IH.
  - apply objectSafeParseFn_behaves. exact IH.
  - apply createRecordSchema_behaves. exact IH.
  - apply createUnionSchema_behaves; [intros Hn; apply (HF Hn _ Hu) | exact IH].
  - apply createUnionSchema_behaves; [intros _; discriminate |].
    intros s [<- | [<- | []]]; [apply createUndefinedSchema_behaves | exact IH].
  - apply createUnionSchema_behaves; [intros _; discriminate |].
    intros s [<- | [<- | []]]; [apply createNullSchema_behaves | exact IH].
  - apply createUnionSchema_behaves; [intros _; discriminate |].
    intros s [<- | [<- | [<- | []]]];
      [apply createNullSchema_behaves | apply createUndefinedSchema_behaves | exact IH].
  - apply createLazySchema_behaves. exact IH.
  - apply transform_behaves. exact IH.
Qed.

(* ------------------------------------------------------------------------- *)
(** ** [safeParse] from the fast outcome *)

Lemma safeParse_run schema value :
  safeParse schema value =
  match schema value (Some []) [] with
  | (Returned (Success data), _) => Returned (SafeSuccess data)
  | (Returned Failure, errors) => Returned (SafeFailure (summary errors) errors)
  | (Thrown msg, _) => Thrown msg
  end.
Proof. reflexivity. Qed.

(** What [safeParse] returns, from the fast outcome of the schema. *)
Lemma safeParse_success ne schema value data :
  Behaves ne schema ->
  (safeParse schema value = Returned (SafeSuccess data) <->
   fastOutcome (schema value None) = Returned (Success data)).
Proof.
  intros H. destruct (H value []) as [_ Hd]. specialize (Hd []). rewrite safeParse_run.
  destruct (fastOutcome (schema value None)) as [[d |] | msg].
  - rewrite Hd. split; intros E; inversion E; reflexivity.
  - destruct Hd as (o & new & Hrun & Hnot & _). rewrite Hrun.
    destruct o as [[d |] | msg]; [exfalso; apply (Hnot d); reflexivity | |];
      split; discriminate.
  - rewrite Hd. split; discriminate.
Qed.

Lemma safeParse_failure_nonempty schema value msg errors :
  Behaves True schema ->
  safeParse schema value = Returned (SafeFailure msg errors) ->
  errors <> [].
Proof.
  intros H. destruct (H value []) as [_ Hd]. specialize (Hd []). rewrite safeParse_run.
  destruct (fastOutcome (schema value None)) as [[d |] | m].
  - rewrite Hd. discriminate.
  - destruct Hd as (o & new & Hrun & _ & Hnew). rewrite Hrun.
    destruct o as [[d |] | m]; try discriminate.
    intros E. inversion E. subst. apply (Hnew I eq_refl).
  - rewrite Hd. discriminate.
Qed.

(* ------------------------------------------------------------------------- *)
(** ** Which validators throw *)

Lemma nothrow_ret A (a : A) : NoThrow (ret a).
Proof. intros errors msg. discriminate. Qed.

Lemma nothrow_bind A B (m : M A) (k : A -> M B) :
  NoThrow m -> (forall a, NoThrow (k a)) -> NoThrow (bind m k).
Proof.
  intros Hm Hk errors msg. unfold bind. specialize (Hm errors).
  destruct (m errors) as [[a | msg'] errors'].
  - apply Hk.
  - exfalso. apply (Hm msg'). reflexivity.
Qed.

Lemma nothrow_report context msg : NoThrow (report context msg).
Proof. intros errors m. destruct context; discriminate. Qed.

Lemma nothrow_reject context msg : NoThrow (report context msg ;;; ret Failure).
Proof. apply nothrow_bind; [apply nothrow_report | intros _; apply nothrow_ret]. Qed.

Lemma nothrow_forOf A (body : A -> M unit) xs :
  (forall x, In x xs -> NoThrow (body x)) -> NoThrow (forOf body xs).
Proof.
  induction xs as [| x rest IH]; intros H; simpl.
  - apply nothrow_ret.
  - apply nothrow_bind; [apply H; left; reflexivity |].
    intros _. apply IH. intros y Hy. apply H. right. exact Hy.
Qed.

Lemma nothrow_parseEach A Acc (validate : A -> M Result) (store : A -> Value -> Acc -> Acc) xs :
  (forall x, In x xs -> NoThrow (validate x)) ->
  forall acc, NoThrow (parseEach validate store xs acc).
Proof.
  induction xs as [| x rest IH]; intros H acc; simpl.
  - apply nothrow_ret.
  - apply nothrow_bind; [apply H; left; reflexivity |].
    intros [data |]; [| apply nothrow_ret].
    apply IH. intros y Hy. apply H. right. exact Hy.
Qed.

Lemma nothrow_firstSuccess schemas value :
  (forall s, In s schemas -> NeverThrows s) -> NoThrow (firstSuccess schemas value).
Proof.
  induction schemas as [| s rest IH]; intros H; simpl.
  - apply nothrow_ret.
  - apply nothrow_bind; [apply H; left; reflexivity |].
    intros [data |]; [apply nothrow_ret |].
    apply IH. intros s' Hs'. apply H. right. exact Hs'.
Qed.

Lemma nothrow_twoPhase (fast : M Result) diagnose context :
  NoThrow fast -> (forall c, NoThrow (diagnose c)) -> NoThrow (twoPhase fast diagnose context).
Proof.
  intros Hf Hd. unfold twoPhase. apply nothrow_bind; [exact Hf |].
  intros [data |]; [apply nothrow_ret |].
  destruct context as [c |]; [| apply nothrow_ret].
  apply nothrow_bind; [apply Hd | intros _; apply nothrow_ret].
Qed.

Lemma nothrow_fastLoop A Acc (validate : A -> M Result) (store : A -> Value -> Acc -> Acc)
    xs acc finish :
  (forall x, In x xs -> NoThrow (validate x)) ->
  (forall collected, NoThrow (finish collected)) ->
  NoThrow (fastLoop validate store xs acc finish).
Proof.
  intros Hv Hf. unfold fastLoop. apply nothrow_bind; [apply nothrow_parseEach; exact Hv |].
  intros [collected |]; [apply Hf | apply nothrow_ret].
Qed.

Lemma createUnionSchema_neverThrows schemas :
  (forall s, In s schemas -> NeverThrows s) -> NeverThrows (createUnionSchema schemas).
Proof.
  intros H value context.
  apply (@nothrow_twoPhase (firstSuccess schemas value)
           (fun c => forOf (fun s => internalSafeParse s value (Some c) ;;; ret tt) schemas) context).
  - apply nothrow_firstSuccess. exact H.
  - intros c. apply nothrow_forOf. intros s Hs.
    apply nothrow_bind; [apply (H s Hs) | intros _; apply nothrow_ret].
Qed.

Lemma check_neverThrows (failed : Value -> bool) (msg data : Value -> _) :
  NeverThrows (fun value context =>
                 if failed value then report context (msg value) ;;; ret Failure
                 else ret (Success (data value))).
Proof.
  intros value context. destruct (failed value); [apply nothrow_reject | apply nothrow_ret].
Qed.

Lemma createSingleLiteralSchema_neverThrows literal :
  NeverThrows (createSingleLiteralSchema literal).
Proof.
  apply (check_neverThrows (fun value => negb (strictEq value literal))
           (fun value => "Expected literal " ++ literalToString literal ++ ", got " ++ getType value)
           (fun _ => literalValue literal)).
Qed.

Lemma createNullSchema_neverThrows : NeverThrows createNullSchema.
Proof.
  apply (check_neverThrows (fun value => negb (match value with VNull => true | _ => false end))
           (fun value => "Expected null, got " ++ getType value) (fun value => value)).
Qed.

Lemma createUndefinedSchema_neverThrows : NeverThrows createUndefinedSchema.
Proof.
  apply (check_neverThrows (fun value => negb (match value with VUndefined => true | _ => false end))
           (fun value => "Expected undefined, got " ++ getType value) (fun value => value)).
Qed.

Lemma typeof_check_neverThrows kind :
  NeverThrows (fun value context =>
                 if negb (String.eqb (typeof value) kind) then
                   report context ("Expected " ++ kind ++ ", got " ++ getType value) ;;; ret Failure
                 else ret (Success value)).
Proof.
  apply (check_neverThrows (fun value => negb (String.eqb (typeof value) kind))
           (fun value => "Expected " ++ kind ++ ", got " ++ getType value) (fun value => value)).
Qed.

(** [transform] catches whatever its schema or its callback throws. *)
Lemma transform_neverThrows this callback : NeverThrows (transform this callback).
Proof.
  intros value context errors msg. unfold transform, tryCatch.
  match goal with
  | |- fst (match ?run with _ => _ end) <> _ => destruct run as [[a | m] errors']
  end; [discriminate |].
  apply nothrow_reject.
Qed.

(** Only [record] throws: a schema built without it never does. *)
Theorem constructed_neverThrows schema :
  Constructed withoutRecord schema -> NeverThrows schema.
Proof.
  intros H.
  induction H as [ | | | | | | | ctor | literal | literals Hu | schema _ IH | schema _ IH
                 | schema strict _ _ _ IH | schema Hr _ IH | schemas Hu _ IH
                 | schema _ IH | schema _ IH | schema _ IH | fn _ IH | this callback _ _ IH ].
  - apply (typeof_check_neverThrows "string").
  - apply (typeof_check_neverThrows "number").
  - apply (typeof_check_neverThrows "boolean").
  - apply (typeof_check_neverThrows "bigint").
  - apply createNullSchema_neverThrows.
  - apply createUndefinedSchema_neverThrows.
  - intros value context. apply nothrow_ret.
  - apply (check_neverThrows (fun value => negb (instanceOf value ctor))
             (fun value => "Expected instance of " ++ ctor ++ ", got " ++ getType value)
             (fun value => value)).
  - apply createSingleLiteralSchema_neverThrows.
  - apply createUnionSchema_neverThrows.
    intros s Hs. apply in_map_iff in Hs. destruct Hs as (literal & <- & _).
    apply createSingleLiteralSchema_neverThrows.
  - intros value context. unfold createArraySchema.
    destruct (negb (isArray value)); [apply nothrow_reject |].
    apply (@nothrow_twoPhase
             (fastLoop (fun item => internalSafeParse schema item None)
                (fun _ data parsedItems => (parsedItems ++ [data])%list) (arrayItems value) []
                (fun parsedItems => ret (Success (VArray parsedItems))))
             (fun c => forOf (fun entry => internalSafeParse schema (snd entry)
                                             (Some (c ++ [Index (fst entry)])%list) ;;; ret tt)
                         (indexed (arrayItems value))) context).
    + apply nothrow_fastLoop; [intros x _; apply IH | intros c; apply nothrow_ret].
    + intros c. apply nothrow_forOf. intros x _.
      apply nothrow_bind; [apply IH | intros _; apply nothrow_ret].
  - intros value context. unfold createTupleSchema.
    destruct (negb (isArray value)); [apply nothrow_reject |].
    destruct (negb (Nat.eqb _ _)); [apply nothrow_reject |].
    assert (Hin : forall entry, In entry (indexed schema) -> NeverThrows (snd entry)).
    { intros [index s] Hy. apply IH. unfold indexed in Hy.
      rewrite <- (indexedFrom_snd schema 0). apply (in_map snd _ _ Hy). }
    apply (@nothrow_twoPhase
             (fastLoop (fun entry => internalSafeParse (snd entry)
                                       (itemAt (arrayItems value) (fst entry)) None)
                (fun _ data parsedItems => (parsedItems ++ [data])%list) (indexed schema) []
                (fun parsedItems => ret (Success (VArray parsedItems))))
             (fun c => forOf (fun entry => internalSafeParse (snd entry)
                                             (itemAt (arrayItems value) (fst entry))
                                             (Some (c ++ [Index (fst entry)])%list) ;;; ret tt)
                         (indexed schema)) context).
    + apply nothrow_fastLoop; [intros x Hx; apply (Hin x Hx) | intros c; apply nothrow_ret].
    + intros c. apply nothrow_forOf. intros x Hx.
      apply nothrow_bind; [apply (Hin x Hx) | intros _; apply nothrow_ret].
  - intros value context. unfold toSchema, objectSafeParseFn. simpl shape. simpl strictMode.
    destruct (notAnObject value); [apply nothrow_reject |].
    apply nothrow_bind.
    + apply nothrow_bind; [apply nothrow_parseEach; intros x Hx; apply (IH x Hx) |].
      intros [collected |]; [| apply nothrow_ret].
      destruct (strict && _); apply nothrow_ret.
    + intros [data |]; [apply nothrow_ret |].
      destruct context as [c |]; [| apply nothrow_ret].
      apply nothrow_bind; [| intros _; apply nothrow_ret].
      apply nothrow_bind.
      * apply nothrow_forOf. intros x Hx.
        apply nothrow_bind; [apply (IH x Hx) | intros _; apply nothrow_ret].
      * intros _. destruct strict; [| apply nothrow_ret].
        cbv zeta. destruct (Nat.ltb _ _); [| apply nothrow_ret].
        intros errors msg. discriminate.
  - destruct Hr.
  - apply createUnionSchema_neverThrows. exact IH.
  - apply createUnionSchema_neverThrows.
    intros s [<- | [<- | []]]; [apply createUndefinedSchema_neverThrows | exact IH].
  - apply createUnionSchema_neverThrows.
    intros s [<- | [<- | []]]; [apply createNullSchema_neverThrows | exact IH].
  - apply createUnionSchema_neverThrows.
    intros s [<- | [<- | [<- | []]]];
      [apply createNullSchema_neverThrows | apply createUndefinedSchema_neverThrows | exact IH].
  - intros value context. apply IH.
  - apply transform_neverThrows.
Qed.

(* ------------------------------------------------------------------------- *)
(** ** What the unions of [optional], [nullable] and [nullish] accept *)

Lemma createUnionSchema_fastOutcome schemas value :
  (forall s, In s schemas -> Pure (s value None)) ->
  fastOutcome (createUnionSchema schemas value None) = fastOutcome (firstSuccess schemas value).
Proof.
  intros Hp. unfold createUnionSchema.
  rewrite pure_fastOutcome_bind by (apply firstSuccess_pure; exact Hp).
  destruct (fastOutcome (firstSuccess schemas value)) as [[data |] | msg]; reflexivity.
Qed.

Lemma firstSuccess_cons schema rest value :
  Pure (schema value None) ->
  fastOutcome (firstSuccess (schema :: rest) value) =
  match fastOutcome (schema value None) with
  | Returned (Success data) => Returned (Success data)
  | Returned Failure => fastOutcome (firstSuccess rest value)
  | Thrown msg => Thrown msg
  end.
Proof.
  intros Hp. simpl. unfold internalSafeParse. rewrite pure_fastOutcome_bind by exact Hp.
  destruct (fastOutcome (schema value None)) as [[data |] | msg]; reflexivity.
Qed.

Lemma firstSuccess_single schema value :
  Pure (schema value None) ->
  fastOutcome (firstSuccess [schema] value) = fastOutcome (schema value None).
Proof.
  intros Hp. rewrite firstSuccess_cons by exact Hp.
  destruct (fastOutcome (schema value None)) as [[data |] | msg]; reflexivity.
Qed.

Lemma pure_null value : Pure (createNullSchema value None).
Proof. apply (behaves_pure value (createNullSchema_behaves False)). Qed.

Lemma pure_undefined value : Pure (createUndefinedSchema value None).
Proof. apply (behaves_pure value (createUndefinedSchema_behaves False)). Qed.

Lemma createOptionalSchema_fastOutcome schema value :
  Behaves False schema ->
  fastOutcome (createOptionalSchema schema value None) =
  match value with
  | VUndefined => Returned (Success VUndefined)
  | _ => fastOutcome (schema value None)
  end.
Proof.
  intros H. pose proof (behaves_pure value H) as Hp. unfold createOptionalSchema.
  rewrite createUnionSchema_fastOutcome
    by (intros s [<- | [<- | []]]; [apply pure_undefined | exact Hp]).
  rewrite firstSuccess_cons by apply pure_undefined.
  destruct value; try reflexivity; (apply firstSuccess_single; exact Hp).
Qed.

Lemma createNullableSchema_fastOutcome schema value :
  Behaves False schema ->
  fastOutcome (createNullableSchema schema value None) =
  match value with
  | VNull => Returned (Success VNull)
  | _ => fastOutcome (schema value None)
  end.
Proof.
  intros H. pose proof (behaves_pure value H) as Hp. unfold createNullableSchema.
  rewrite createUnionSchema_fastOutcome
    by (intros s [<- | [<- | []]]; [apply pure_null | exact Hp]).
  rewrite firstSuccess_cons by apply pure_null.
  destruct value; try reflexivity; (apply firstSuccess_single; exact Hp).
Qed.

Lemma createNullishSchema_fastOutcome schema value :
  Behaves False schema ->
  fastOutcome (createNullishSchema schema value None) =
  match value with
  | VNull => Returned (Success VNull)
  | VUndefined => Returned (Success VUndefined)
  | _ => fastOutcome (schema value None)
  end.
Proof.
  intros H. pose proof (behaves_pure value H) as Hp. unfold createNullishSchema.
  rewrite createUnionSchema_fastOutcome
    by (intros s [<- | [<- | [<- | []]]]; [apply pure_null | apply pure_undefined | exact Hp]).
  rewrite firstSuccess_cons by apply pure_null.
  destruct value; try reflexivity;
    (rewrite firstSuccess_cons by apply pure_undefined); try reflexivity;
    (apply firstSuccess_single; exact Hp).
Qed.

Lemma library_behaves schema :
  Constructed library schema -> Behaves False schema.
Proof. intros H. apply (constructed_behaves (F := library)); [intros [] | exact H]. Qed.

(* ------------------------------------------------------------------------- *)
(** ** The value-inspection routine of the specification *)

Example inspectValue_samples :
  inspectValue VUndefined = "undefined" /\
  inspectValue VNull = "null" /\
  inspectValue (VArray [num 1; num 2; num 3]) = "array" /\
  inspectValue (obj []) = "object" /\
  inspectValue (VString "hello") = "string " ++ quote ++ "hello" ++ quote /\
  inspectValue (num 123) = "number 123" /\
  inspectValue (VBoolean true) = "boolean true" /\
  inspectValue (VBigInt 123) = "bigint 123".
Proof. repeat split. Qed.

(* ------------------------------------------------------------------------- *)
(** ** [safeParse] and exceptions *)

Lemma createRecordSchema_throws schema value context errors :
  notAnObject value = true ->
  createRecordSchema schema value context errors =
  (Thrown ("Expected object, got " ++ getType value), errors).
Proof. intros H. unfold createRecordSchema. rewrite H. reflexivity. Qed.

(** C1, evaluated on the code: [record(number()).safeParse] of [null], of an
    array and of a number does not return a failure result, it throws the
    [Error] of the guard of [createRecordSchema]; the same guard in
    [ObjectSchema] returns a failure with one error. *)
Theorem record_safeParse_throws_on_non_object :
  safeParse (createRecordSchema createNumberSchema) VNull = Thrown "Expected object, got null" /\
  safeParse (createRecordSchema createNumberSchema) (VArray []) = Thrown "Expected object, got array" /\
  safeParse (createRecordSchema createNumberSchema) (num 5) = Thrown "Expected object, got number" /\
  safeParse (createObjectSchema []) VNull =
    Returned (SafeFailure "Validation failed: Expected object, got null (at path /)"
                [mkError [] "Expected object, got null"]).
Proof. repeat split. Qed.

(** In the embedding, [safeParse] of a schema built without [record] returns:
    the guard of [record] is the one [throw] statement of the validators that
    is not inside the [try] of [transform]. *)
Corollary safeParse_returns_without_record schema value :
  Constructed withoutRecord schema ->
  exists result, safeParse schema value = Returned result.
Proof.
  intros H. pose proof (constructed_neverThrows H value (Some []) []) as Hn.
  rewrite safeParse_run.
  destruct (schema value (Some []) []) as [[[data |] | msg] errors]; simpl in Hn.
  - eexists. reflexivity.
  - eexists. reflexivity.
  - exfalso. apply (Hn msg). reflexivity.
Qed.

(* ------------------------------------------------------------------------- *)
(** ** Failures carry errors *)

(** C2, evaluated on the code: [union([]).safeParse(1)] and
    [literal([]).safeParse(1)] return a failure whose [errors] list is empty
    and whose message is [Validation failed: ] followed by nothing. *)
Lemma empty_union_fails_without_errors :
  safeParse (createUnionSchema []) (num 1) = Returned (SafeFailure "Validation failed: " []) /\
  safeParse (createLiteralSchema (inr [])) (num 1) = Returned (SafeFailure "Validation failed: " []).
Proof. split; reflexivity. Qed.

(** X23: for every schema built by the constructors whose unions and
    literal arrays have at least one branch, a failure returned by [safeParse]
    carries at least one error. *)
Theorem safeParse_failure_has_errors schema value msg errors :
  Constructed nonEmptyUnions schema ->
  safeParse schema value = Returned (SafeFailure msg errors) ->
  1 <= length errors.
Proof.
  intros Hc Hf.
  assert (Hb : Behaves True schema).
  { apply (constructed_behaves (F := nonEmptyUnions)); [| exact Hc].
    intros _ schemas Hs. exact Hs. }
  pose proof (safeParse_failure_nonempty value Hb Hf) as Hne.
  destruct errors; [contradiction | simpl; lia].
Qed.

Lemma safeParse_failure_has_errors_witness :
  Constructed nonEmptyUnions (createUnionSchema [createStringSchema; createNumberSchema]) /\
  safeParse (createUnionSchema [createStringSchema; createNumberSchema]) (VBoolean true) =
    Returned (SafeFailure
                "Validation failed: Expected string, got boolean (at path /), Expected number, got boolean (at path /)"
                [mkError [] "Expected string, got boolean"; mkError [] "Expected number, got boolean"]) /\
  1 <= length [mkError [] "Expected string, got boolean"; mkError [] "Expected number, got boolean"].
Proof.
  assert (Hc : Constructed nonEmptyUnions (createUnionSchema [createStringSchema; createNumberSchema])).
  { apply c_union; [discriminate |]. intros s [<- | [<- | []]]; constructor. }
  split; [exact Hc |]. split; [reflexivity |].
  eapply (@safeParse_failure_has_errors _ (VBoolean true)); [exact Hc | reflexivity].
Defined.

(* ------------------------------------------------------------------------- *)
(** ** Strict objects and nested paths *)

(** C5: the strict object schema rejects [{name: "a", extra: 1}] with the
    single error [Unrecognized keys: extra] at its own path (also below a
    field, with several keys joined), and the non-strict schema accepts the
    input and drops [extra]. *)
Theorem strict_object_unrecognized_keys :
  safeParse (createStrictObjectSchema [("name", createStringSchema)])
            (obj [("name", VString "a"); ("extra", num 1)])
  = Returned (SafeFailure "Validation failed: Unrecognized keys: extra (at path /)"
                [mkError [] "Unrecognized keys: extra"]) /\
  safeParse (createObjectSchema [("inner", createStrictObjectSchema [("name", createStringSchema)])])
            (obj [("inner", obj [("name", VString "a"); ("extra", num 1); ("more", num 2)])])
  = Returned (SafeFailure "Validation failed: Unrecognized keys: extra, more (at path /inner)"
                [mkError [Key "inner"] "Unrecognized keys: extra, more"]) /\
  safeParse (createObjectSchema [("name", createStringSchema)])
            (obj [("name", VString "a"); ("extra", num 1)])
  = Returned (SafeSuccess (obj [("name", VString "a")])).
Proof. repeat split. Qed.

(** C6: [object({a: object({b: object({c: number})})})] on
    [{a: {b: {c: "x"}}}] fails with exactly one error, at path
    [["a", "b", "c"]]. *)
Theorem nested_path_reporting :
  safeParse
    (createObjectSchema
       [("a", createObjectSchema [("b", createObjectSchema [("c", createNumberSchema)])])])
    (obj [("a", obj [("b", obj [("c", VString "x")])])])
  = Returned (SafeFailure "Validation failed: Expected number, got string (at path /a/b/c)"
                [mkError [Key "a"; Key "b"; Key "c"] "Expected number, got string"]).
Proof. reflexivity. Qed.

(** C7, evaluated on the code: [number().safeParse("hello")] reports
    [Expected number, got string]; the actual value is rendered by [getType],
    as its type alone, and not as the type followed by the value
    ([string "hello"]). *)
Lemma number_schema_reports_type_only :
  safeParse createNumberSchema (VString "hello")
  = Returned (SafeFailure "Validation failed: Expected number, got string (at path /)"
                [mkError [] "Expected number, got string"]) /\
  "Expected number, got string" <> "Expected number, got " ++ inspectValue (VString "hello").
Proof. split; [reflexivity | discriminate]. Qed.

(** What the code does in place of C7: for each of the schemas string,
    number, boolean and bigint and every input whose [typeof] is not the
    expected kind, [safeParse] fails with the single error [Expected <kind>, got <actual>] at the root,
    where [<actual>] is [getType] of the input: [undefined], [null], [array],
    and otherwise its [typeof] ([object] for an object), without a rendering
    of the value. *)
Theorem primitive_mismatch_message kind schema value :
  In (kind, schema) primitives ->
  typeof value <> kind ->
  safeParse schema value =
    Returned (SafeFailure
                ("Validation failed: Expected " ++ kind ++ ", got " ++ getType value ++ " (at path /)")
                [mkError [] ("Expected " ++ kind ++ ", got " ++ getType value)]) /\
  getType value = match value with
                  | VUndefined => "undefined"
                  | VNull => "null"
                  | VArray _ => "array"
                  | _ => typeof value
                  end.
Proof.
  intros Hin Hty. split; [| destruct value; reflexivity].
  apply String.eqb_neq in Hty.
  destruct Hin as [E | [E | [E | [E | []]]]]; inversion E; subst; clear E;
    unfold safeParse, createStringSchema, createNumberSchema, createBooleanSchema,
      createBigIntSchema;
    rewrite Hty; reflexivity.
Qed.

Lemma primitive_mismatch_message_witness :
  In ("number", createNumberSchema) primitives /\
  typeof (VString "hello") <> "number" /\
  safeParse createNumberSchema (VString "hello") =
    Returned (SafeFailure
                ("Validation failed: Expected " ++ "number" ++ ", got "
                 ++ getType (VString "hello") ++ " (at path /)")
                [mkError [] ("Expected " ++ "number" ++ ", got " ++ getType (VString "hello"))]).
Proof.
  assert (Hin : In ("number", createNumberSchema) primitives) by (right; left; reflexivity).
  assert (Hty : typeof (VString "hello") <> "number") by discriminate.
  split; [exact Hin |]. split; [exact Hty |].
  apply (@primitive_mismatch_message "number" createNumberSchema (VString "hello") Hin Hty).
Defined.

(* ------------------------------------------------------------------------- *)
(** ** [optional], [nullable] and [nullish] *)

Lemma optional_accepts schema value data :
  Behaves False schema ->
  value <> VUndefined ->
  (safeParse (createOptionalSchema schema) value = Returned (SafeSuccess data) <->
   safeParse schema value = Returned (SafeSuccess data)).
Proof.
  intros Hb Hv.
  assert (Hu : Behaves False (createOptionalSchema schema)).
  { apply createUnionSchema_behaves; [intros [] |].
    intros s [<- | [<- | []]]; [apply createUndefinedSchema_behaves | exact Hb]. }
  rewrite (safeParse_success value data Hu), (safeParse_success value data Hb).
  rewrite createOptionalSchema_fastOutcome by exact Hb.
  destruct value; try reflexivity. contradiction.
Qed.

Lemma nullable_accepts schema value data :
  Behaves False schema ->
  value <> VNull ->
  (safeParse (createNullableSchema schema) value = Returned (SafeSuccess data) <->
   safeParse schema value = Returned (SafeSuccess data)).
Proof.
  intros Hb Hv.
  assert (Hu : Behaves False (createNullableSchema schema)).
  { apply createUnionSchema_behaves; [intros [] |].
    intros s [<- | [<- | []]]; [apply createNullSchema_behaves | exact Hb]. }
  rewrite (safeParse_success value data Hu), (safeParse_success value data Hb).
  rewrite createNullableSchema_fastOutcome by exact Hb.
  destruct value; try reflexivity. contradiction.
Qed.

Lemma nullish_accepts schema value data :
  Behaves False schema ->
  value <> VNull -> value <> VUndefined ->
  (safeParse (createNullishSchema schema) value = Returned (SafeSuccess data) <->
   safeParse schema value = Returned (SafeSuccess data)).
Proof.
  intros Hb Hn Hv.
  assert (Hu : Behaves False (createNullishSchema schema)).
  { apply createUnionSchema_behaves; [intros [] |].
    intros s [<- | [<- | [<- | []]]];
      [apply createNullSchema_behaves | apply createUndefinedSchema_behaves | exact Hb]. }
  rewrite (safeParse_success value data Hu), (safeParse_success value data Hb).
  rewrite createNullishSchema_fastOutcome by exact Hb.
  destruct value; try reflexivity; contradiction.
Qed.

(** C8: for every schema [s] of the library, [s.optional()] parses
    [undefined] to [undefined] and on every other input succeeds exactly when
    [s] does, with the same data; [s.nullable()] does the same for [null];
    [s.nullish()] for both; each is the union of the singleton schema(s)
    followed by [s]. *)
Theorem optional_nullable_nullish schema :
  Constructed library schema ->
  (safeParse (optional schema) VUndefined = Returned (SafeSuccess VUndefined) /\
   forall value data, value <> VUndefined ->
     (safeParse (optional schema) value = Returned (SafeSuccess data) <->
      safeParse schema value = Returned (SafeSuccess data))) /\
  (safeParse (nullable schema) VNull = Returned (SafeSuccess VNull) /\
   forall value data, value <> VNull ->
     (safeParse (nullable schema) value = Returned (SafeSuccess data) <->
      safeParse schema value = Returned (SafeSuccess data))) /\
  (safeParse (nullish schema) VNull = Returned (SafeSuccess VNull) /\
   safeParse (nullish schema) VUndefined = Returned (SafeSuccess VUndefined) /\
   forall value data, value <> VNull -> value <> VUndefined ->
     (safeParse (nullish schema) value = Returned (SafeSuccess data) <->
      safeParse schema value = Returned (SafeSuccess data))) /\
  optional schema = createUnionSchema [createUndefinedSchema; schema] /\
  nullable schema = createUnionSchema [createNullSchema; schema] /\
  nullish schema = createUnionSchema [createNullSchema; createUndefinedSchema; schema].
Proof.
  intros Hc. pose proof (library_behaves Hc) as Hb.
  unfold optional, nullable, nullish.
  split; [split; [reflexivity |] |].
  { intros value data Hv. apply optional_accepts; assumption. }
  split; [split; [reflexivity |] |].
  { intros value data Hv. apply nullable_accepts; assumption. }
  split; [split; [reflexivity | split; [reflexivity |]] |].
  { intros value data Hn Hv. apply nullish_accepts; assumption. }
  repeat split.
Qed.

Lemma optional_nullable_nullish_witness :
  Constructed library createStringSchema /\
  safeParse (optional createStringSchema) VUndefined = Returned (SafeSuccess VUndefined) /\
  safeParse (nullable createStringSchema) VNull = Returned (SafeSuccess VNull) /\
  safeParse (nullish createStringSchema) VNull = Returned (SafeSuccess VNull) /\
  safeParse (nullish createStringSchema) VUndefined = Returned (SafeSuccess VUndefined).
Proof.
  pose proof (@optional_nullable_nullish createStringSchema (c_string library)) as H.
  destruct H as ((H1 & _) & (H2 & _) & (H3 & H4 & _) & _).
  split; [apply c_string |].
  split; [exact H1 |]. split; [exact H2 |]. split; [exact H3 | exact H4].
Defined.

(* ------------------------------------------------------------------------- *)
(** ** Validation with and without a context *)

(** C10, evaluated on the code: on [{a: "x", b: null}] the schema
    [object({a: number(), b: record(number())})] returns a failure without a
    context, and with a context its diagnostic pass reaches the record
    validator, which throws. *)
Theorem context_changes_the_verdict :
  internalSafeParse
    (createObjectSchema [("a", createNumberSchema); ("b", createRecordSchema createNumberSchema)])
    (obj [("a", VString "x"); ("b", VNull)]) None []
  = (Returned Failure, []) /\
  internalSafeParse
    (createObjectSchema [("a", createNumberSchema); ("b", createRecordSchema createNumberSchema)])
    (obj [("a", VString "x"); ("b", VNull)]) (Some []) []
  = (Thrown "Expected object, got null", [mkError [Key "a"] "Expected number, got string"]).
Proof. split; reflexivity. Qed.

(** X18: with or without a context: the same success, the same exception of
    the fast pass; after a failure without a context no success with one, and the
    errors array only grows. *)
Corollary context_independent_verdict schema value contextPath errors :
  Constructed library schema ->
  match fastOutcome (internalSafeParse schema value None) with
  | Returned (Success data) =>
      internalSafeParse schema value None errors = (Returned (Success data), errors) /\
      internalSafeParse schema value (Some contextPath) errors = (Returned (Success data), errors)
  | Thrown msg =>
      internalSafeParse schema value None errors = (Thrown msg, errors) /\
      internalSafeParse schema value (Some contextPath) errors = (Thrown msg, errors)
  | Returned Failure =>
      internalSafeParse schema value None errors = (Returned Failure, errors) /\
      exists o new,
        internalSafeParse schema value (Some contextPath) errors = (o, (errors ++ new)%list) /\
        forall data, o <> Returned (Success data)
  end.
Proof.
  intros Hc. destruct (library_behaves Hc value contextPath) as [Hp Hd].
  specialize (Hd errors). specialize (Hp errors). unfold internalSafeParse.
  destruct (fastOutcome (schema value None)) as [[data |] | msg].
  - split; assumption.
  - split; [assumption |]. destruct Hd as (o & new & Hrun & Hnot & _).
    exists o, new. split; assumption.
  - split; assumption.
Qed.

(** X19: without [record] the verdict is the same with and without a context. *)
Corollary context_independent_verdict_without_record schema value contextPath errors :
  Constructed withoutRecord schema ->
  exists new,
    internalSafeParse schema value None errors =
      (fastOutcome (internalSafeParse schema value None), errors) /\
    internalSafeParse schema value (Some contextPath) errors =
      (fastOutcome (internalSafeParse schema value None), (errors ++ new)%list).
Proof.
  intros Hc.
  assert (Hb : Behaves False schema)
    by (apply (constructed_behaves (F := withoutRecord)); [intros [] | exact Hc]).
  destruct (Hb value contextPath) as [Hp Hd].
  specialize (Hd errors). specialize (Hp errors).
  pose proof (constructed_neverThrows Hc value (Some contextPath) errors) as Hn.
  pose proof (constructed_neverThrows Hc value None []) as Hn0.
  unfold internalSafeParse. fold (fastOutcome (schema value None)) in Hn0.
  destruct (fastOutcome (schema value None)) as [[data |] | msg].
  - exists []. rewrite app_nil_r. split; assumption.
  - destruct Hd as (o & new & Hrun & Hnot & _). exists new. split; [assumption |].
    rewrite Hrun in *. simpl in Hn.
    destruct o as [[data |] | msg]; [exfalso; apply (Hnot data) | | exfalso; apply (Hn msg)];
      reflexivity.
  - exfalso. apply (Hn0 msg). reflexivity.
Qed.

(* ------------------------------------------------------------------------- *)
(** ** What a successful fast pass collects *)

Lemma parseEach_success A Acc (validate : A -> M Result) (store : A -> Value -> Acc -> Acc) xs :
  (forall x, In x xs -> Pure (validate x)) ->
  forall acc collected,
    fastOutcome (parseEach validate store xs acc) = Returned (Some collected) ->
    exists ds,
      Forall2 (fun x d => fastOutcome (validate x) = Returned (Success d)) xs ds /\
      collected = storeAll store xs ds acc.
Proof.
  induction xs as [| x rest IH]; intros Hv acc collected; simpl.
  - unfold fastOutcome, ret. simpl. intros E. inversion E. exists []. split; [constructor | reflexivity].
  - rewrite pure_fastOutcome_bind by (apply Hv; left; reflexivity).
    destruct (fastOutcome (validate x)) as [[data |] | msg] eqn:E; try discriminate.
    intros H. destruct (IH (fun y Hy => Hv y (or_intror Hy)) _ _ H) as (ds & Hds & Hc).
    exists (data :: ds). split; [constructor; assumption | exact Hc].
Qed.

Lemma parseEach_success_intro A Acc (validate : A -> M Result) (store : A -> Value -> Acc -> Acc)
    xs ds :
  (forall x, In x xs -> Pure (validate x)) ->
  Forall2 (fun x d => fastOutcome (validate x) = Returned (Success d)) xs ds ->
  forall acc,
    fastOutcome (parseEach validate store xs acc) = Returned (Some (storeAll store xs ds acc)).
Proof.
  intros Hv H. induction H as [| x d xs ds Hx _ IH]; intros acc; simpl.
  - reflexivity.
  - rewrite pure_fastOutcome_bind by (apply Hv; left; reflexivity).
    rewrite Hx. apply IH. intros y Hy. apply Hv. right. exact Hy.
Qed.

Lemma fastLoop_success A Acc (validate : A -> M Result) (store : A -> Value -> Acc -> Acc)
    xs acc finish data :
  (forall x, In x xs -> Pure (validate x)) ->
  fastOutcome (fastLoop validate store xs acc finish) = Returned (Success data) ->
  exists ds,
    Forall2 (fun x d => fastOutcome (validate x) = Returned (Success d)) xs ds /\
    fastOutcome (finish (storeAll store xs ds acc)) = Returned (Success data).
Proof.
  intros Hv. unfold fastLoop.
  rewrite pure_fastOutcome_bind by (apply parseEach_pure; exact Hv).
  destruct (fastOutcome (parseEach validate store xs acc)) as [[collected |] | msg] eqn:E;
    try discriminate.
  intros H. destruct (@parseEach_success _ _ validate store xs Hv acc collected E) as (ds & Hds & ->).
  exists ds. split; assumption.
Qed.

Lemma fastLoop_success_intro A Acc (validate : A -> M Result) (store : A -> Value -> Acc -> Acc)
    xs ds acc finish :
  (forall x, In x xs -> Pure (validate x)) ->
  Forall2 (fun x d => fastOutcome (validate x) = Returned (Success d)) xs ds ->
  fastOutcome (fastLoop validate store xs acc finish) =
  fastOutcome (finish (storeAll store xs ds acc)).
Proof.
  intros Hv H. unfold fastLoop.
  rewrite pure_fastOutcome_bind by (apply parseEach_pure; exact Hv).
  rewrite (@parseEach_success_intro _ _ validate store xs ds Hv H). reflexivity.
Qed.

Lemma twoPhase_fastOutcome (fast : M Result) diagnose :
  Pure fast -> fastOutcome (twoPhase fast diagnose None) = fastOutcome fast.
Proof.
  intros Hp. unfold twoPhase. rewrite pure_fastOutcome_bind by assumption.
  destruct (fastOutcome fast) as [[data |] | msg]; reflexivity.
Qed.

Lemma notAnObject_false value :
  notAnObject value = false -> exists classes entries, value = VObject classes entries.
Proof. destruct value; try discriminate. intros _. eexists. eexists. reflexivity. Qed.

Lemma defineProperty_fresh key data entries :
  ~ In key (keys entries) -> defineProperty key data entries = (entries ++ [(key, data)])%list.
Proof.
  induction entries as [| [k v] rest IH]; simpl; intros Hn; [reflexivity |].
  destruct (String.eqb key k) eqn:E.
  - apply String.eqb_eq in E. exfalso. apply Hn. left. symmetry. exact E.
  - rewrite IH; [reflexivity |]. intros H. apply Hn. right. exact H.
Qed.

Lemma setProperty_stored key data entries :
  key <> "__proto__" -> setProperty key data entries = defineProperty key data entries.
Proof.
  intros Hk. unfold setProperty. destruct (String.eqb key "__proto__") eqn:E; [| reflexivity].
  apply String.eqb_eq in E. contradiction.
Qed.

(** Storing into a property list that has none of the keys yet. *)
Lemma setProperty_fresh key data entries :
  key <> "__proto__" ->
  ~ In key (keys entries) -> setProperty key data entries = (entries ++ [(key, data)])%list.
Proof.
  intros Hk Hn. rewrite setProperty_stored by exact Hk. apply defineProperty_fresh. exact Hn.
Qed.

Lemma keys_app A (xs ys : list (string * A)) : keys (xs ++ ys) = (keys xs ++ keys ys)%list.
Proof. apply map_app. Qed.

Lemma storeAll_fields B (schema : list (string * B)) ds acc :
  length ds = length schema ->
  ~ In "__proto__" (keys schema) ->
  NoDup (keys acc ++ keys schema) ->
  storeAll (fun (entry : string * B) data parsedObject =>
              setProperty (fst entry) data parsedObject) schema ds acc
  = (acc ++ combine (keys schema) ds)%list.
Proof.
  revert ds acc. induction schema as [| [k s] rest IH]; intros ds acc Hlen Hproto Hnd.
  - simpl. rewrite app_nil_r. reflexivity.
  - destruct ds as [| d ds]; [discriminate |]. simpl.
    assert (Hk : ~ In k (keys acc)).
    { intros Hin. simpl in Hnd. apply NoDup_remove_2 in Hnd. apply Hnd.
      apply in_or_app. left. exact Hin. }
    rewrite setProperty_fresh; [| intros ->; apply Hproto; left; reflexivity | exact Hk].
    rewrite IH.
    + rewrite <- app_assoc. reflexivity.
    + simpl in Hlen. lia.
    + intros Hin. apply Hproto. right. exact Hin.
    + rewrite keys_app. simpl. rewrite <- app_assoc. exact Hnd.
Qed.

Lemma getProperty_field (R : string * Schema -> Value -> Prop) (schema : Shape) ds key s :
  Forall2 R schema ds ->
  NoDup (keys schema) ->
  In (key, s) schema ->
  R (key, s) (getProperty key (combine (keys schema) ds)).
Proof.
  intros H. induction H as [| [k s'] d rest ds Hx _ IH]; intros Hnd Hin; [destruct Hin |].
  simpl in *. inversion Hnd as [| ? ? Hk Hnd']. subst.
  destruct Hin as [E | Hin].
  - inversion E. subst. rewrite String.eqb_refl. exact Hx.
  - destruct (String.eqb key k) eqn:E.
    + apply String.eqb_eq in E. subst. exfalso. apply Hk.
      apply (in_map fst _ _ Hin).
    + apply IH; assumption.
Qed.

Lemma getProperty_absent key entries :
  ~ In key (keys entries) -> getProperty key entries = VUndefined.
Proof.
  induction entries as [| [k v] rest IH]; simpl; intros Hn; [reflexivity |].
  destruct (String.eqb key k) eqn:E.
  - apply String.eqb_eq in E. exfalso. apply Hn. left. symmetry. exact E.
  - apply IH. intros H. apply Hn. right. exact H.
Qed.

Lemma keys_combine (ks : list string) (ds : list Value) :
  length ds = length ks -> keys (combine ks ds) = ks.
Proof.
  revert ds. induction ks as [| k ks IH]; intros [| d ds] Hlen; simpl in *;
    try reflexivity; try discriminate.
  rewrite IH by lia. reflexivity.
Qed.

Lemma Forall2_length_eq A B (R : A -> B -> Prop) xs ys :
  Forall2 R xs ys -> length ys = length xs.
Proof. intros H. induction H; simpl; congruence. Qed.

Lemma objectSafeParseFn_fastOutcome schema strict classes object :
  (forall entry, In entry schema -> Behaves False (snd entry)) ->
  fastOutcome (objectSafeParseFn schema strict (VObject classes object) None) =
  fastOutcome
    (fastLoop (fun entry => internalSafeParse (snd entry) (readProperty (fst entry) (VObject classes object)) None)
       (fun entry data parsedObject => setProperty (fst entry) data parsedObject)
       schema []
       (fun parsedObject =>
          if strict && existsb (fun key => negb (keyIn key schema)) (keys object)
          then ret Failure else ret (Success (VObject plain parsedObject)))).
Proof.
  intros Hs. unfold objectSafeParseFn. simpl notAnObject. cbv iota zeta. simpl ownEntries.
  apply (@twoPhase_fastOutcome _
           (fun c =>
              forOf (fun entry =>
                       internalSafeParse (snd entry) (readProperty (fst entry) (VObject classes object))
                         (Some (c ++ [Key (fst entry)])%list) ;;; ret tt) schema ;;;
              if strict then
                let unrecognizedKeys := unrecognized schema object in
                if Nat.ltb 0 (length unrecognizedKeys)
                then push (mkError c ("Unrecognized keys: " ++ join ", " unrecognizedKeys))
                else ret tt
              else ret tt)).
  apply fastLoop_pure.
  - intros entry Hin. apply (behaves_pure _ (Hs entry Hin)).
  - intros parsedObject. destruct (strict && _); apply pure_ret.
Qed.

Lemma fields_accepted (schema : Shape) object :
  (forall key fieldSchema, In (key, fieldSchema) schema ->
     exists data, fastOutcome (fieldSchema (readProperty key object) None) = Returned (Success data)) ->
  exists ds,
    Forall2 (fun (entry : string * Schema) d =>
               fastOutcome (internalSafeParse (snd entry) (readProperty (fst entry) object) None)
               = Returned (Success d)) schema ds.
Proof.
  induction schema as [| [k s] rest IH]; intros H.
  - exists []. constructor.
  - destruct (H k s (or_introl eq_refl)) as (d & Hd).
    destruct IH as (ds & Hds); [intros key fs Hin; apply (H key fs); right; exact Hin |].
    exists (d :: ds). constructor; assumption.
Qed.

(* ------------------------------------------------------------------------- *)
(** ** The result of an object schema *)

Lemma readProperty_absent key classes object :
  hasOwn key object = false -> inObjectPrototype key = false ->
  readProperty key (VObject classes object) = VUndefined.
Proof.
  intros Hown Hproto. unfold readProperty. rewrite Hown.
  assert (Hall : forall name, In name ("__proto__" :: objectPrototypeMethods) ->
                              String.eqb key name = false).
  { intros name Hin. destruct (String.eqb key name) eqn:E; [| reflexivity].
    assert (Ht : existsb (String.eqb key) ("__proto__" :: objectPrototypeMethods) = true)
      by (apply existsb_exists; exists name; split; assumption).
    unfold inObjectPrototype in Hproto. congruence. }
  unfold inheritedProperty.
  rewrite (Hall "constructor") by (right; left; reflexivity).
  destruct (existsb (String.eqb "Object") classes); [| reflexivity].
  rewrite (Hall "__proto__") by (left; reflexivity).
  assert (Hm : existsb (String.eqb key) objectPrototypeMethods = false).
  { apply not_true_is_false. intros H. apply existsb_exists in H.
    destruct H as (name & Hin & E). rewrite (Hall name) in E by (right; exact Hin).
    discriminate. }
  rewrite Hm. reflexivity.
Qed.

(** C4, evaluated on the code: a declared key that the input does not have
    is read with [object[key]], which finds the properties of
    [Object.prototype]: for the declared key [toString] the field schema
    receives the inherited function instead of [undefined] and the empty
    object is rejected, where for the key [name] it receives [undefined] and
    the object is accepted; and the declared key [__proto__] is not in the
    result, the assignment that should store it creating no property. *)
Theorem absent_key_reads_the_prototype :
  safeParse (createObjectSchema [("toString", createOptionalSchema createStringSchema)]) (obj [])
  = Returned (SafeFailure
                "Validation failed: Expected undefined, got function (at path /toString), Expected string, got function (at path /toString)"
                [mkError [Key "toString"] "Expected undefined, got function";
                 mkError [Key "toString"] "Expected string, got function"]) /\
  safeParse (createObjectSchema [("name", createOptionalSchema createStringSchema)]) (obj [])
  = Returned (SafeSuccess (obj [("name", VUndefined)])) /\
  safeParse (createObjectSchema [("__proto__", createNumberSchema)]) (obj [("__proto__", num 1)])
  = Returned (SafeSuccess (obj [])).
Proof. repeat split. Qed.

(** X22: for a shape whose keys are distinct and do not include
    [__proto__], a value accepted by the object schema (strict or not) is an
    object; when it is an object literal (or an object without prototype) the
    result is a new object with exactly the declared keys, each holding the
    data its field schema parses from [object[key]]: from [undefined] when
    the key is neither an own property of the input nor a property of
    [Object.prototype].  A key of the input that the shape does not declare is
    not in the result.  In non-strict mode acceptance depends on the declared
    fields only. *)
Theorem object_result_has_declared_keys schema strict :
  NoDup (keys schema) ->
  ~ In "__proto__" (keys schema) ->
  (forall entry, In entry schema -> Constructed library (snd entry)) ->
  (forall value result,
     safeParse (toSchema (newObjectSchema schema strict)) value = Returned (SafeSuccess result) ->
     exists classes object, value = VObject classes object) /\
  (forall classes object result,
     literalChain classes ->
     safeParse (toSchema (newObjectSchema schema strict)) (VObject classes object)
     = Returned (SafeSuccess result) ->
     exists parsedObject,
       result = VObject plain parsedObject /\
       keys parsedObject = keys schema /\
       (forall key fieldSchema, In (key, fieldSchema) schema ->
          safeParse fieldSchema (readProperty key (VObject classes object))
          = Returned (SafeSuccess (getProperty key parsedObject)) /\
          (hasOwn key object = false -> inObjectPrototype key = false ->
           safeParse fieldSchema VUndefined
           = Returned (SafeSuccess (getProperty key parsedObject)))) /\
       (forall key, In key (keys object) -> ~ In key (keys schema) ->
          ~ In key (keys parsedObject))) /\
  (strict = false ->
   forall classes object,
     literalChain classes ->
     (forall key fieldSchema, In (key, fieldSchema) schema ->
        exists data,
          safeParse fieldSchema (readProperty key (VObject classes object))
          = Returned (SafeSuccess data)) ->
     exists result,
       safeParse (toSchema (newObjectSchema schema strict)) (VObject classes object)
       = Returned (SafeSuccess result)).
Proof.
  intros Hnd Hproto Hc.
  assert (Hb : forall entry, In entry schema -> Behaves False (snd entry))
    by (intros entry Hin; apply library_behaves; apply (Hc entry Hin)).
  assert (Hp : forall object (entry : string * Schema), In entry schema ->
               Pure (internalSafeParse (snd entry) (readProperty (fst entry) object) None))
    by (intros object entry Hin; apply (behaves_pure _ (Hb entry Hin))).
  assert (Ho : Behaves False (toSchema (newObjectSchema schema strict)))
    by (apply objectSafeParseFn_behaves; exact Hb).
  split; [| split].
  - intros value result Hs.
    apply (safeParse_success value result Ho) in Hs. unfold toSchema in Hs.
    cbn [shape strictMode] in Hs.
    destruct (notAnObject value) eqn:N.
    { unfold objectSafeParseFn in Hs. rewrite N in Hs. discriminate. }
    apply (notAnObject_false _ N).
  - intros classes object result _ Hs.
    apply (safeParse_success _ result Ho) in Hs. unfold toSchema in Hs.
    cbn [shape strictMode] in Hs.
    rewrite (@objectSafeParseFn_fastOutcome schema strict classes object Hb) in Hs.
    destruct (@fastLoop_success _ _ _ _ schema [] _ result (Hp (VObject classes object)) Hs)
      as (ds & Hds & Hfin).
    pose proof (@Forall2_length_eq _ _ _ _ _ Hds) as Hlen.
    rewrite storeAll_fields in Hfin by (simpl; assumption). simpl in Hfin.
    destruct (strict && _); [discriminate |]. inversion Hfin. subst result.
    exists (combine (keys schema) ds).
    assert (Hkeys : keys (combine (keys schema) ds) = keys schema)
      by (apply keys_combine; unfold keys; rewrite length_map; exact Hlen).
    split; [reflexivity |]. split; [exact Hkeys |]. split.
    + intros key fieldSchema Hin.
      pose proof (@getProperty_field _ schema ds key fieldSchema Hds Hnd Hin) as Hf. simpl in Hf.
      assert (Hsafe : safeParse fieldSchema (readProperty key (VObject classes object))
                      = Returned (SafeSuccess (getProperty key (combine (keys schema) ds))))
        by (apply (safeParse_success _ _ (Hb _ Hin)); exact Hf).
      split; [exact Hsafe |].
      intros Hown Hinherited.
      rewrite (@readProperty_absent key classes object Hown Hinherited) in Hsafe. exact Hsafe.
    + intros key _ Hn. rewrite Hkeys. exact Hn.
  - intros -> classes object _ Hall.
    destruct (@fields_accepted schema (VObject classes object)) as (ds & Hds).
    { intros key fieldSchema Hin. destruct (Hall key fieldSchema Hin) as (data & Hd).
      exists data. apply (safeParse_success _ _ (Hb _ Hin)). exact Hd. }
    eexists. apply (safeParse_success _ _ Ho). unfold toSchema. cbn [shape strictMode].
    rewrite (@objectSafeParseFn_fastOutcome schema false classes object Hb).
    rewrite (@fastLoop_success_intro _ _ _ _ schema ds [] _ (Hp (VObject classes object)) Hds).
    reflexivity.
Qed.

Lemma object_result_has_declared_keys_witness :
  NoDup (keys [("name", createStringSchema); ("age", createOptionalSchema createNumberSchema)]) /\
  ~ In "__proto__"
       (keys [("name", createStringSchema); ("age", createOptionalSchema createNumberSchema)]) /\
  (forall entry,
     In entry [("name", createStringSchema); ("age", createOptionalSchema createNumberSchema)] ->
     Constructed library (snd entry)) /\
  literalChain plain /\
  safeParse
    (createObjectSchema [("name", createStringSchema);
                         ("age", createOptionalSchema createNumberSchema)])
    (VObject plain [("extra", num 1); ("name", VString "a")])
  = Returned (SafeSuccess (obj [("name", VString "a"); ("age", VUndefined)])) /\
  exists parsedObject,
    obj [("name", VString "a"); ("age", VUndefined)] = VObject plain parsedObject /\
    keys parsedObject = ["name"; "age"] /\
    safeParse (createOptionalSchema createNumberSchema) VUndefined
    = Returned (SafeSuccess (getProperty "age" parsedObject)) /\
    ~ In "extra" (keys parsedObject).
Proof.
  assert (Hnd : NoDup (keys [("name", createStringSchema);
                             ("age", createOptionalSchema createNumberSchema)]))
    by (repeat constructor; simpl; intuition discriminate).
  assert (Hproto : ~ In "__proto__"
                        (keys [("name", createStringSchema);
                               ("age", createOptionalSchema createNumberSchema)]))
    by (simpl; intuition discriminate).
  assert (Hc : forall entry,
             In entry [("name", createStringSchema);
                       ("age", createOptionalSchema createNumberSchema)] ->
             Constructed library (snd entry))
    by (intros entry [<- | [<- | []]]; [apply c_string | apply c_optional; apply c_number]).
  assert (Hchain : literalChain plain) by (left; reflexivity).
  split; [exact Hnd |]. split; [exact Hproto |]. split; [exact Hc |]. split; [exact Hchain |].
  split; [reflexivity |].
  destruct (@object_result_has_declared_keys _ false Hnd Hproto Hc) as (_ & Hparsed & _).
  destruct (Hparsed plain [("extra", num 1); ("name", VString "a")]
              (obj [("name", VString "a"); ("age", VUndefined)]) Hchain eq_refl)
    as (parsedObject & Hr & Hk & Hfields & Hextra).
  exists parsedObject. split; [exact Hr |]. split; [exact Hk |]. split.
  - apply (Hfields "age" (createOptionalSchema createNumberSchema));
      [right; left; reflexivity | reflexivity | reflexivity].
  - apply (Hextra "extra"); [left; reflexivity | simpl; intuition discriminate].
Defined.

(* ------------------------------------------------------------------------- *)
(** ** Parsing a parsed value again *)



Lemma strictEq_literal value literal :
  strictEq value literal = true -> value = literalValue literal.
Proof.
  destruct value, literal; simpl; try discriminate; intros E; try reflexivity.
  - apply Bool.eqb_prop in E. subst. reflexivity.
  - destruct n, n0; simpl in E; try discriminate. apply Z.eqb_eq in E. subst. reflexivity.
  - apply String.eqb_eq in E. subst. reflexivity.
Qed.







Lemma Forall2_impl_in A B (R R' : A -> B -> Prop) xs ys :
  (forall x y, In x xs -> R x y -> R' x y) ->
  Forall2 R xs ys -> Forall2 R' xs ys.
Proof.
  intros H HF. induction HF as [| x y xs ys Hxy _ IH]; constructor.
  - apply H; [left; reflexivity | exact Hxy].
  - apply IH. intros x' y' Hin. apply H. right. exact Hin.
Qed.




Lemma storeAll_push A (xs : list A) ds (acc : list Value) :
  length ds = length xs ->
  storeAll (fun _ data parsedItems => (parsedItems ++ [data])%list) xs ds acc = (acc ++ ds)%list.
Proof.
  revert ds acc. induction xs as [| x rest IH]; intros [| d ds] acc Hlen; simpl in *;
    try discriminate; try (rewrite app_nil_r; reflexivity).
  rewrite IH by lia. rewrite <- app_assoc. reflexivity.
Qed.

Lemma createArraySchema_fastOutcome schema items :
  Behaves False schema ->
  fastOutcome (createArraySchema schema (VArray items) None) =
  fastOutcome
    (fastLoop (fun item => internalSafeParse schema item None)
       (fun _ data parsedItems => (parsedItems ++ [data])%list) items []
       (fun parsedItems => ret (Success (VArray parsedItems)))).
Proof.
  intros Hb. unfold createArraySchema. simpl isArray. cbv iota. simpl arrayItems.
  apply (@twoPhase_fastOutcome _
           (fun c => forOf (fun entry => internalSafeParse schema (snd entry)
                                           (Some (c ++ [Index (fst entry)])%list) ;;; ret tt)
                       (indexed items))).
  apply fastLoop_pure; [| intros collected; apply pure_ret].
  intros item _. apply (behaves_pure item Hb).
Qed.


Lemma indexed_in A (xs : list A) index x : In (index, x) (indexed xs) -> In x xs.
Proof.
  intros Hin. unfold indexed in Hin. rewrite <- (indexedFrom_snd xs 0).
  apply (in_map snd _ _ Hin).
Qed.

Lemma createTupleSchema_fastOutcome schema items :
  (forall s, In s schema -> Behaves False s) ->
  Nat.eqb (length items) (length schema) = true ->
  fastOutcome (createTupleSchema schema (VArray items) None) =
  fastOutcome
    (fastLoop (fun entry => internalSafeParse (snd entry) (itemAt items (fst entry)) None)
       (fun _ data parsedItems => (parsedItems ++ [data])%list) (indexed schema) []
       (fun parsedItems => ret (Success (VArray parsedItems)))).
Proof.
  intros Hb Hlen. unfold createTupleSchema. simpl isArray. cbv iota. simpl arrayItems.
  rewrite Hlen. simpl negb. cbv iota.
  apply (@twoPhase_fastOutcome _
           (fun c => forOf (fun entry => internalSafeParse (snd entry) (itemAt items (fst entry))
                                           (Some (c ++ [Index (fst entry)])%list) ;;; ret tt)
                       (indexed schema))).
  apply fastLoop_pure; [| intros collected; apply pure_ret].
  intros [index s] Hin. apply (behaves_pure _ (Hb s (@indexed_in _ _ _ _ Hin))).
Qed.








Lemma createRecordSchema_fastOutcome schema classes entries :
  Behaves False schema ->
  fastOutcome (createRecordSchema schema (VObject classes entries) None) =
  fastOutcome
    (fastLoop (fun entry => internalSafeParse schema (snd entry) None)
       (fun entry data parsedObject => setProperty (fst entry) data parsedObject) entries []
       (fun parsedObject => ret (Success (VObject plain parsedObject)))).
Proof.
  intros Hb. unfold createRecordSchema. simpl notAnObject. cbv iota. simpl ownEntries.
  apply (@twoPhase_fastOutcome _
           (fun c => forOf (fun entry => internalSafeParse schema (snd entry)
                                           (Some (c ++ [Key (fst entry)])%list) ;;; ret tt)
                       entries)).
  apply fastLoop_pure; [| intros collected; apply pure_ret].
  intros entry _. apply (behaves_pure _ Hb).
Qed.




















(* ------------------------------------------------------------------------- *)
(** ** The discriminated union of the specification *)

Lemma append_assoc (a b c : string) : (a ++ b) ++ c = a ++ b ++ c.
Proof. induction a as [| ch a IH]; simpl; [reflexivity | rewrite IH; reflexivity]. Qed.

Lemma includes_summary text msg p :
  includes text msg -> includes (summary [mkError p text]) msg.
Proof.
  intros (before & after & ->). unfold summary, includes.
  exists ("Validation failed: " ++ before),
         (after ++ " (at path /" ++ join "/" (map pathKeyToString p) ++ ")").
  cbn [map join]. unfold describe. cbn [message path].
  rewrite !append_assoc. reflexivity.
Qed.

(** C3: with the branches [{kind: "circle", radius: number}] and
    [{kind: "square", size: number}], the discriminated union on [kind] parses
    [{kind: "circle", radius: 10}] to itself and fails on [{kind: "triangle"}]
    with a message that includes [Invalid discriminator value]; two branches
    that both declare [kind: "same"] fail on every object whose [kind] is
    ["same"] with a message that includes [Ambiguous discriminator value]. *)
Theorem discriminated_union_round_trip :
  parse (createDiscriminatedUnionSchema "kind" [circleSchema; squareSchema])
        (obj [("kind", VString "circle"); ("radius", num 10)])
  = Returned (obj [("kind", VString "circle"); ("radius", num 10)]) /\
  (exists msg,
     parse (createDiscriminatedUnionSchema "kind" [circleSchema; squareSchema])
           (obj [("kind", VString "triangle")]) = Thrown msg /\
     includes msg "Invalid discriminator value") /\
  (forall first second classes entries,
     shapeLookup "kind" (shape first) = Some (createLiteralSchema (inl (LString "same"))) ->
     shapeLookup "kind" (shape second) = Some (createLiteralSchema (inl (LString "same"))) ->
     getProperty "kind" entries = VString "same" ->
     exists msg errors,
       safeParse (createDiscriminatedUnionSchema "kind" [first; second]) (VObject classes entries)
       = Returned (SafeFailure msg errors) /\
       parse (createDiscriminatedUnionSchema "kind" [first; second]) (VObject classes entries)
       = Thrown msg /\
       includes msg "Ambiguous discriminator value").
Proof.
  split; [reflexivity |]. split.
  - eexists. split; [reflexivity |].
    apply (@includes_summary _ _ [Key "kind"]).
    exists "", (" " ++ inspectValue (VString "triangle")). reflexivity.
  - intros first second classes entries H1 H2 Hk.
    assert (Hrun : createDiscriminatedUnionSchema "kind" [first; second] (VObject classes entries)
                     (Some []) []
                   = (Returned Failure,
                      [mkError [Key "kind"]
                         ("Ambiguous discriminator value " ++ inspectValue (VString "same"))])).
    { unfold createDiscriminatedUnionSchema.
      change (notAnObject (VObject classes entries)) with false.
      change (ownEntries (VObject classes entries)) with entries.
      cbv iota zeta. rewrite Hk. unfold matchingBranches, declares. rewrite H1, H2.
      reflexivity. }
    eexists. eexists. unfold parse. rewrite safeParse_run, Hrun.
    split; [reflexivity |]. split; [reflexivity |].
    apply (@includes_summary _ _ [Key "kind"]).
    exists "", (" " ++ inspectValue (VString "same")). reflexivity.
Qed.

Lemma discriminated_union_round_trip_witness :
  exists msg errors,
    safeParse (createDiscriminatedUnionSchema "kind"
                 [newObjectSchema [("kind", createLiteralSchema (inl (LString "same")));
                                   ("value", createNumberSchema)] false;
                  newObjectSchema [("kind", createLiteralSchema (inl (LString "same")));
                                   ("other", createStringSchema)] false])
              (obj [("kind", VString "same"); ("value", num 1); ("other", VString "two")])
    = Returned (SafeFailure msg errors) /\
    includes msg "Ambiguous discriminator value".
Proof.
  destruct discriminated_union_round_trip as (_ & _ & Hsame).
  destruct (Hsame
              (newObjectSchema [("kind", createLiteralSchema (inl (LString "same")));
                                ("value", createNumberSchema)] false)
              (newObjectSchema [("kind", createLiteralSchema (inl (LString "same")));
                                ("other", createStringSchema)] false)
              plain [("kind", VString "same"); ("value", num 1); ("other", VString "two")]
              eq_refl eq_refl eq_refl) as (msg & errors & Hsafe & _ & Hinc).
  exists msg, errors. split; [exact Hsafe | exact Hinc].
Defined.

(* ------------------------------------------------------------------------- *)
(** ** [getType] and the guards *)

Lemma array_of_unknown_accepts items :
  safeParse (createArraySchema createUnknownSchema) (VArray items)
  = Returned (SafeSuccess (VArray items)).
Proof.
  assert (Hb : Behaves False createUnknownSchema)
    by (intros value contextPath; apply accept_coherent).
  apply (safeParse_success _ _ (createArraySchema_behaves Hb)).
  rewrite createArraySchema_fastOutcome by exact Hb.
  assert (Hds : Forall2 (fun x d => fastOutcome (internalSafeParse createUnknownSchema x None)
                                    = Returned (Success d)) items items)
    by (induction items; constructor; [reflexivity | assumption]).
  rewrite (@fastLoop_success_intro _ _ _ _ items items [] _
             (fun x _ => behaves_pure x Hb) Hds).
  rewrite storeAll_push by reflexivity. reflexivity.
Qed.

(** X1: each of the schemas string, number, boolean, bigint, null, undefined,
    array(unknown) and object({}) accepts exactly the values that [getType]
    names as its kind, and fails on every other value with the single error
    [Expected <kind>, got <getType of the value>] at the root; so the message
    of a type error never reads [Expected <kind>, got <kind>]. *)
Theorem getType_agrees_with_guards kind schema value :
  In (kind, schema) typeSchemas ->
  (getType value = kind -> exists data, safeParse schema value = Returned (SafeSuccess data)) /\
  (getType value <> kind ->
   safeParse schema value =
   Returned (SafeFailure
               ("Validation failed: Expected " ++ kind ++ ", got " ++ getType value ++ " (at path /)")
               [mkError [] ("Expected " ++ kind ++ ", got " ++ getType value)])).
Proof.
  intros Hin.
  repeat (destruct Hin as [E | Hin]; [inversion E; subst; clear E |]); [.. | destruct Hin];
    (split; [intros H | intros H]);
    destruct value; simpl in H; try discriminate H; try (exfalso; apply H; reflexivity);
    try reflexivity; try (eexists; reflexivity).
  eexists. apply array_of_unknown_accepts.
Qed.

Lemma getType_agrees_with_guards_witness :
  In ("object", createObjectSchema []) typeSchemas /\
  getType VNull <> "object" /\
  safeParse (createObjectSchema []) VNull =
  Returned (SafeFailure "Validation failed: Expected object, got null (at path /)"
              [mkError [] "Expected object, got null"]).
Proof.
  assert (Hin : In ("object", createObjectSchema []) typeSchemas)
    by (do 7 right; left; reflexivity).
  assert (Hne : getType VNull <> "object") by discriminate.
  split; [exact Hin |]. split; [exact Hne |].
  destruct (@getType_agrees_with_guards "object" (createObjectSchema []) VNull Hin) as [_ H].
  apply (H Hne).
Defined.

(* ------------------------------------------------------------------------- *)
(** ** [transform] *)

(** X2: [safeParse] of a transformed schema always returns, whatever the
    schema and the callback do: an exception of the schema (the guard of
    [record]) or of the callback becomes a failure whose last error carries
    the message of the exception at the root path. *)
Theorem transform_safeParse_returns this callback value :
  (exists result, safeParse (transform this callback) value = Returned result) /\
  (forall msg errors,
     this value (Some []) [] = (Thrown msg, errors) ->
     safeParse (transform this callback) value =
     Returned (SafeFailure (summary (errors ++ [mkError [] msg])%list)
                 (errors ++ [mkError [] msg])%list)) /\
  (forall data msg errors,
     this value (Some []) [] = (Returned (Success data), errors) ->
     callback data = Thrown msg ->
     safeParse (transform this callback) value =
     Returned (SafeFailure (summary (errors ++ [mkError [] msg])%list)
                 (errors ++ [mkError [] msg])%list)).
Proof.
  split; [| split].
  - pose proof (@transform_neverThrows this callback value (Some []) []) as Hn.
    rewrite safeParse_run.
    destruct (transform this callback value (Some []) []) as [[[data |] | msg] errors];
      simpl in Hn; [eexists; reflexivity | eexists; reflexivity |].
    exfalso. apply (Hn msg). reflexivity.
  - intros msg errors H. rewrite safeParse_run.
    unfold transform, tryCatch, bind, internalSafeParse. rewrite H. reflexivity.
  - intros data msg errors H Hcb. rewrite safeParse_run.
    unfold transform, tryCatch, bind, internalSafeParse. rewrite H, Hcb. reflexivity.
Qed.

Lemma transform_safeParse_returns_witness :
  createRecordSchema createNumberSchema VNull (Some []) [] = (Thrown "Expected object, got null", []) /\
  safeParse (transform (createRecordSchema createNumberSchema) stringLength) VNull =
  Returned (SafeFailure "Validation failed: Expected object, got null (at path /)"
              [mkError [] "Expected object, got null"]).
Proof.
  split; [reflexivity |].
  destruct (@transform_safeParse_returns (createRecordSchema createNumberSchema) stringLength VNull)
    as (_ & Hthrow & _).
  apply (Hthrow "Expected object, got null" [] eq_refl).
Defined.

(** X3: transforming twice is transforming once with the composed callback:
    the two schemas run alike on every input, with and without a context. *)
Theorem transform_composes this f g value context errors :
  transform (transform this f) g value context errors =
  transform this (composeCallbacks f g) value context errors.
Proof.
  unfold transform, composeCallbacks, tryCatch, bind, internalSafeParse.
  destruct (this value context errors) as [[[data |] | msg] errors'].
  - destruct (f data) as [data' | msg]; [| destruct context; reflexivity].
    unfold ret. destruct (g data') as [data'' | msg]; reflexivity.
  - reflexivity.
  - destruct context; reflexivity.
Qed.

(* ------------------------------------------------------------------------- *)
(** ** Errors are relative to the context path *)

Lemma relocate_nil errors : map (relocate []) errors = errors.
Proof.
  induction errors as [| [p m] rest IH]; simpl; [reflexivity | rewrite IH; reflexivity].
Qed.

Lemma relocate_app p q errors :
  map (relocate p) (map (relocate q) errors) = map (relocate (p ++ q)) errors.
Proof.
  induction errors as [| [r m] rest IH]; simpl; [reflexivity |].
  rewrite IH. unfold relocate. simpl. rewrite app_assoc. reflexivity.
Qed.

Lemma reloc_const A (m : M A) : Pure m -> Reloc (fun _ => m).
Proof.
  intros Hp p errors. rewrite (Hp errors), (Hp []). simpl. rewrite app_nil_r. reflexivity.
Qed.

Lemma reloc_ret A (a : A) : Reloc (fun _ => ret a).
Proof. apply reloc_const. apply pure_ret. Qed.

Lemma reloc_throw A msg : Reloc (fun _ => @throw A msg).
Proof. apply reloc_const. apply pure_throw. Qed.

Lemma reloc_push msg : Reloc (fun p => push (mkError p msg)).
Proof.
  intros p errors. unfold push. simpl. unfold relocate. simpl. rewrite app_nil_r. reflexivity.
Qed.

Lemma reloc_bind A B (m : Context -> M A) (k : Context -> A -> M B) :
  Reloc m -> (forall a, Reloc (fun p => k p a)) -> Reloc (fun p => bind (m p) (k p)).
Proof.
  intros Hm Hk p errors. unfold bind.
  rewrite (Hm p errors).
  destruct (m [] []) as [o Em] eqn:E0. simpl.
  destruct o as [a | msg].
  - rewrite (Hk a p). rewrite (Hk a [] Em). simpl.
    rewrite relocate_nil, map_app, app_assoc. reflexivity.
  - reflexivity.
Qed.

Lemma reloc_tryCatch A (body : Context -> M A) (handler : Context -> string -> M A) :
  Reloc body -> (forall msg, Reloc (fun p => handler p msg)) ->
  Reloc (fun p => tryCatch (body p) (handler p)).
Proof.
  intros Hb Hh p errors. unfold tryCatch.
  rewrite (Hb p errors).
  destruct (body [] []) as [o Eb] eqn:E0. simpl.
  destruct o as [a | msg].
  - reflexivity.
  - rewrite (Hh msg p). rewrite (Hh msg [] Eb). simpl.
    rewrite relocate_nil, map_app, app_assoc. reflexivity.
Qed.

Lemma reloc_forOf A (body : Context -> A -> M unit) xs :
  (forall x, In x xs -> Reloc (fun p => body p x)) -> Reloc (fun p => forOf (body p) xs).
Proof.
  induction xs as [| x rest IH]; intros H; simpl.
  - apply reloc_ret.
  - apply (@reloc_bind _ _ (fun p => body p x) (fun p _ => forOf (body p) rest)).
    + apply H. left. reflexivity.
    + intros _. apply IH. intros y Hy. apply H. right. exact Hy.
Qed.

Lemma reloc_reject msg : Reloc (fun p => report (Some p) msg ;;; ret Failure).
Proof.
  apply (@reloc_bind _ _ (fun p => push (mkError p msg)) (fun _ _ => ret Failure)).
  - apply reloc_push.
  - intros _. apply reloc_ret.
Qed.

Lemma reloc_child schema value suffix :
  Relocatable schema -> Reloc (fun p => schema value (Some (p ++ suffix)%list)).
Proof.
  intros H p errors. rewrite (H value (p ++ suffix)%list errors).
  simpl. rewrite (H value suffix []). simpl. rewrite relocate_app. reflexivity.
Qed.

Lemma reloc_same schema value :
  Relocatable schema -> Reloc (fun p => schema value (Some p)).
Proof. intros H p errors. apply (H value p errors). Qed.

Lemma reloc_visit (run : Context -> M Result) :
  Reloc run -> Reloc (fun p => run p ;;; ret tt).
Proof.
  intros H. apply (@reloc_bind _ _ run (fun _ _ => ret tt)); [exact H |].
  intros _. apply reloc_ret.
Qed.

Lemma reloc_twoPhase (fast : M Result) (diagnose : Context -> M unit) :
  Pure fast -> Reloc diagnose -> Reloc (fun p => twoPhase fast diagnose (Some p)).
Proof.
  intros Hp Hd. unfold twoPhase.
  apply (@reloc_bind _ _ (fun _ => fast)
           (fun p result => match result with
                            | Success data => ret (Success data)
                            | Failure => diagnose p ;;; ret Failure
                            end)).
  - apply reloc_const. exact Hp.
  - intros [data |]; [apply reloc_ret |].
    apply (@reloc_bind _ _ diagnose (fun _ _ => ret Failure)); [exact Hd |].
    intros _. apply reloc_ret.
Qed.

Lemma check_relocatable (failed : Value -> bool) (msg data : Value -> _) :
  Relocatable (fun value context =>
                 if failed value then report context (msg value) ;;; ret Failure
                 else ret (Success (data value))).
Proof.
  intros value p errors. unfold outcomeOf, errorsOf. cbv beta.
  destruct (failed value).
  - exact (@reloc_reject (msg value) p errors).
  - exact (@reloc_ret _ (Success (data value)) p errors).
Qed.

Lemma loops_relocatable A B Acc (fastRun : A -> M Result) (diagRun : Context -> B -> M Result)
    (store : A -> Value -> Acc -> Acc) xs ys acc (wrap : Acc -> Value) :
  (forall x, In x xs -> Pure (fastRun x)) ->
  (forall y, In y ys -> Reloc (fun p => diagRun p y)) ->
  Reloc (fun p =>
           twoPhase (fastLoop fastRun store xs acc (fun collected => ret (Success (wrap collected))))
                    (fun c => forOf (fun y => diagRun c y ;;; ret tt) ys) (Some p)).
Proof.
  intros Hp Hd. apply reloc_twoPhase.
  - apply fastLoop_pure; [exact Hp | intros collected; apply pure_ret].
  - apply (@reloc_forOf _ (fun p y => diagRun p y ;;; ret tt)).
    intros y Hy. apply (@reloc_visit (fun p => diagRun p y)). apply (Hd y Hy).
Qed.

Lemma createArraySchema_relocatable schema :
  Behaves False schema -> Relocatable schema -> Relocatable (createArraySchema schema).
Proof.
  intros Hb Hr value p errors. unfold outcomeOf, errorsOf, createArraySchema.
  destruct (negb (isArray value)); [exact (@reloc_reject _ p errors) |].
  exact (@loops_relocatable _ _ _
           (fun item => internalSafeParse schema item None)
           (fun c entry => internalSafeParse schema (snd entry) (Some (c ++ [Index (fst entry)])%list))
           (fun _ data parsedItems => (parsedItems ++ [data])%list)
           (arrayItems value) (indexed (arrayItems value)) [] VArray
           (fun x _ => behaves_pure x Hb)
           (fun y _ => reloc_child (snd y) [Index (fst y)] Hr) p errors).
Qed.

Lemma createTupleSchema_relocatable schema :
  (forall s, In s schema -> Behaves False s) ->
  (forall s, In s schema -> Relocatable s) ->
  Relocatable (createTupleSchema schema).
Proof.
  intros Hb Hr value p errors. unfold outcomeOf, errorsOf, createTupleSchema.
  destruct (negb (isArray value)); [exact (@reloc_reject _ p errors) |].
  destruct (negb (Nat.eqb _ _)); [exact (@reloc_reject _ p errors) |].
  exact (@loops_relocatable _ _ _
           (fun entry => internalSafeParse (snd entry) (itemAt (arrayItems value) (fst entry)) None)
           (fun c entry => internalSafeParse (snd entry) (itemAt (arrayItems value) (fst entry))
                             (Some (c ++ [Index (fst entry)])%list))
           (fun _ data parsedItems => (parsedItems ++ [data])%list)
           (indexed schema) (indexed schema) [] VArray
           (fun x Hx => behaves_pure _ (Hb (snd x) (@indexed_in _ _ (fst x) (snd x)
                                                    (eq_ind _ (fun e => In e _) Hx _
                                                       (surjective_pairing x)))))
           (fun y Hy => reloc_child _ [Index (fst y)]
                          (Hr (snd y) (@indexed_in _ _ (fst y) (snd y)
                                         (eq_ind _ (fun e => In e _) Hy _
                                            (surjective_pairing y))))) p errors).
Qed.

Lemma createRecordSchema_relocatable schema :
  Behaves False schema -> Relocatable schema -> Relocatable (createRecordSchema schema).
Proof.
  intros Hb Hr record p errors. unfold outcomeOf, errorsOf, createRecordSchema.
  destruct (notAnObject record); [exact (@reloc_throw _ _ p errors) |].
  exact (@loops_relocatable _ _ _
           (fun entry => internalSafeParse schema (snd entry) None)
           (fun c entry => internalSafeParse schema (snd entry) (Some (c ++ [Key (fst entry)])%list))
           (fun entry data parsedObject => setProperty (fst entry) data parsedObject)
           (ownEntries record) (ownEntries record) [] (VObject plain)
           (fun x _ => behaves_pure _ Hb)
           (fun y _ => reloc_child (snd y) [Key (fst y)] Hr) p errors).
Qed.

Lemma createUnionSchema_relocatable schemas :
  (forall s, In s schemas -> Behaves False s) ->
  (forall s, In s schemas -> Relocatable s) ->
  Relocatable (createUnionSchema schemas).
Proof.
  intros Hb Hr value p errors. unfold outcomeOf, errorsOf, createUnionSchema.
  refine (@reloc_twoPhase (firstSuccess schemas value)
            (fun c => forOf (fun s => internalSafeParse s value (Some c) ;;; ret tt) schemas)
            _ _ p errors).
  - apply firstSuccess_pure. intros s Hs. apply (behaves_pure value (Hb s Hs)).
  - apply (@reloc_forOf _ (fun c (s : Schema) => internalSafeParse s value (Some c) ;;; ret tt)).
    intros s Hs. apply (@reloc_visit (fun c => s value (Some c))).
    apply reloc_same. apply (Hr s Hs).
Qed.

Lemma objectSafeParseFn_relocatable schema strict :
  (forall entry, In entry schema -> Behaves False (snd entry)) ->
  (forall entry, In entry schema -> Relocatable (snd entry)) ->
  Relocatable (objectSafeParseFn schema strict).
Proof.
  intros Hb Hr value p errors. unfold outcomeOf, errorsOf, objectSafeParseFn.
  destruct (notAnObject value); [exact (@reloc_reject _ p errors) |].
  cbv zeta. set (object := ownEntries value).
  refine (@reloc_twoPhase
            (fastLoop (fun entry => internalSafeParse (snd entry) (readProperty (fst entry) value) None)
               (fun entry data parsedObject => setProperty (fst entry) data parsedObject)
               schema []
               (fun parsedObject =>
                  if strict && existsb (fun key => negb (keyIn key schema)) (keys object)
                  then ret Failure else ret (Success (VObject plain parsedObject))))
            (fun c =>
               forOf (fun entry =>
                        internalSafeParse (snd entry) (readProperty (fst entry) value)
                          (Some (c ++ [Key (fst entry)])%list) ;;; ret tt) schema ;;;
               if strict then
                 let unrecognizedKeys := unrecognized schema object in
                 if Nat.ltb 0 (length unrecognizedKeys)
                 then push (mkError c ("Unrecognized keys: " ++ join ", " unrecognizedKeys))
                 else ret tt
               else ret tt)
            _ _ p errors).
  - apply fastLoop_pure.
    + intros entry Hin. apply (behaves_pure _ (Hb entry Hin)).
    + intros parsedObject. destruct (strict && _); apply pure_ret.
  - apply (@reloc_bind _ _
             (fun c => forOf (fun entry =>
                                internalSafeParse (snd entry) (readProperty (fst entry) value)
                                  (Some (c ++ [Key (fst entry)])%list) ;;; ret tt) schema)
             (fun c _ =>
                if strict then
                  let unrecognizedKeys := unrecognized schema object in
                  if Nat.ltb 0 (length unrecognizedKeys)
                  then push (mkError c ("Unrecognized keys: " ++ join ", " unrecognizedKeys))
                  else ret tt
                else ret tt)).
    + apply (@reloc_forOf _ (fun c (entry : string * Schema) =>
                               internalSafeParse (snd entry) (readProperty (fst entry) value)
                                 (Some (c ++ [Key (fst entry)])%list) ;;; ret tt)).
      intros entry Hin.
      apply (@reloc_visit (fun c => snd entry (readProperty (fst entry) value)
                                      (Some (c ++ [Key (fst entry)])%list))).
      apply reloc_child. apply (Hr entry Hin).
    + intros _. destruct strict; [| apply reloc_ret]. cbv zeta.
      destruct (Nat.ltb _ _); [apply reloc_push | apply reloc_ret].
Qed.

Lemma transform_relocatable this callback :
  Relocatable this -> Relocatable (transform this callback).
Proof.
  intros Hr value p errors. unfold outcomeOf, errorsOf, transform.
  refine (@reloc_tryCatch _
            (fun c => result <- internalSafeParse this value (Some c) ;;
                      match result with
                      | Success data =>
                          match callback data with
                          | Returned data' => ret (Success data')
                          | Thrown msg => throw msg
                          end
                      | Failure => ret Failure
                      end)
            (fun c msg => report (Some c) msg ;;; ret Failure) _ _ p errors).
  - apply (@reloc_bind _ _ (fun c => this value (Some c))
             (fun _ result => match result with
                              | Success data =>
                                  match callback data with
                                  | Returned data' => ret (Success data')
                                  | Thrown msg => throw msg
                                  end
                              | Failure => ret Failure
                              end)).
    + apply reloc_same. exact Hr.
    + intros [data |]; [| apply reloc_ret].
      destruct (callback data); [apply reloc_ret | apply reloc_throw].
  - intros msg. apply reloc_reject.
Qed.

Theorem constructed_relocatable schema :
  Constructed library schema -> Relocatable schema.
Proof.
  intros H.
  induction H as [ | | | | | | | ctor | literal | literals Hu | schema Hc IH | schema Hc IH
                 | schema strict Hnd Hkeys Hc IH | schema _ Hc IH | schemas Hu Hc IH
                 | schema Hc IH | schema Hc IH | schema Hc IH | fn _ IH | this callback _ _ IH ].
  - apply (check_relocatable (fun value => negb (String.eqb (typeof value) "string"))
             (fun value => "Expected string, got " ++ getType value) (fun value => value)).
  - apply (check_relocatable (fun value => negb (String.eqb (typeof value) "number"))
             (fun value => "Expected number, got " ++ getType value) (fun value => value)).
  - apply (check_relocatable (fun value => negb (String.eqb (typeof value) "boolean"))
             (fun value => "Expected boolean, got " ++ getType value) (fun value => value)).
  - apply (check_relocatable (fun value => negb (String.eqb (typeof value) "bigint"))
             (fun value => "Expected bigint, got " ++ getType value) (fun value => value)).
  - apply (check_relocatable (fun value => negb (match value with VNull => true | _ => false end))
             (fun value => "Expected null, got " ++ getType value) (fun value => value)).
  - apply (check_relocatable
             (fun value => negb (match value with VUndefined => true | _ => false end))
             (fun value => "Expected undefined, got " ++ getType value) (fun value => value)).
  - intros value p errors. exact (@reloc_ret _ (Success value) p errors).
  - apply (check_relocatable (fun value => negb (instanceOf value ctor))
             (fun value => "Expected instance of " ++ ctor ++ ", got " ++ getType value)
             (fun value => value)).
  - apply (check_relocatable (fun value => negb (strictEq value literal))
             (fun value => "Expected literal " ++ literalToString literal ++ ", got " ++ getType value)
             (fun _ => literalValue literal)).
  - apply createUnionSchema_relocatable;
      intros s Hs; apply in_map_iff in Hs; destruct Hs as (literal & <- & _).
    + apply createSingleLiteralSchema_behaves.
    + apply (check_relocatable (fun value => negb (strictEq value literal))
               (fun value => "Expected literal " ++ literalToString literal ++ ", got "
                             ++ getType value)
               (fun _ => literalValue literal)).
  - apply createArraySchema_relocatable; [apply library_behaves; exact Hc | exact IH].
  - apply createTupleSchema_relocatable; [| exact IH].
    intros s Hs. apply library_behaves. apply (Hc s Hs).
  - apply objectSafeParseFn_relocatable; [| exact IH].
    intros entry Hin. apply library_behaves. apply (Hc entry Hin).
  - apply createRecordSchema_relocatable; [apply library_behaves; exact Hc | exact IH].
  - apply createUnionSchema_relocatable; [| exact IH].
    intros s Hs. apply library_behaves. apply (Hc s Hs).
  - apply createUnionSchema_relocatable.
    + intros s [<- | [<- | []]];
        [apply createUndefinedSchema_behaves | apply library_behaves; exact Hc].
    + intros s [<- | [<- | []]]; [| exact IH].
      apply (check_relocatable
               (fun value => negb (match value with VUndefined => true | _ => false end))
               (fun value => "Expected undefined, got " ++ getType value) (fun value => value)).
  - apply createUnionSchema_relocatable.
    + intros s [<- | [<- | []]];
        [apply createNullSchema_behaves | apply library_behaves; exact Hc].
    + intros s [<- | [<- | []]]; [| exact IH].
      apply (check_relocatable
               (fun value => negb (match value with VNull => true | _ => false end))
               (fun value => "Expected null, got " ++ getType value) (fun value => value)).
  - apply createUnionSchema_relocatable.
    + intros s [<- | [<- | [<- | []]]];
        [apply createNullSchema_behaves | apply createUndefinedSchema_behaves
        | apply library_behaves; exact Hc].
    + intros s [<- | [<- | [<- | []]]]; [| | exact IH].
      * apply (check_relocatable
                 (fun value => negb (match value with VNull => true | _ => false end))
                 (fun value => "Expected null, got " ++ getType value) (fun value => value)).
      * apply (check_relocatable
                 (fun value => negb (match value with VUndefined => true | _ => false end))
                 (fun value => "Expected undefined, got " ++ getType value) (fun value => value)).
  - intros value p errors. apply (IH value p errors).
  - apply transform_relocatable. exact IH.
Qed.

(** X4: for every schema of the library, validating below a context path is
    validating at the root: the outcome is the same, the errors are the same
    with the context path put before each of their paths, and they are
    appended to the errors the array already holds. *)
Theorem errors_are_relative_to_the_context schema value contextPath errors :
  Constructed library schema ->
  internalSafeParse schema value (Some contextPath) errors =
  (fst (internalSafeParse schema value (Some []) []),
   (errors ++ map (relocate contextPath) (snd (internalSafeParse schema value (Some []) [])))%list).
Proof. intros Hc. apply (constructed_relocatable Hc value contextPath errors). Qed.

Lemma errors_are_relative_to_the_context_witness :
  Constructed library (createObjectSchema [("c", createNumberSchema)]) /\
  internalSafeParse (createObjectSchema [("c", createNumberSchema)]) (obj [("c", VString "x")])
    (Some [Key "a"; Index 2]) [mkError [] "earlier"]
  = (Returned Failure,
     [mkError [] "earlier"; mkError [Key "a"; Index 2; Key "c"] "Expected number, got string"]).
Proof.
  assert (Hc : Constructed library (createObjectSchema [("c", createNumberSchema)])).
  { apply (@c_object library _ false); [repeat constructor; intros [] | exact I |].
    intros entry [<- | []]. apply c_number. }
  split; [exact Hc |].
  rewrite (@errors_are_relative_to_the_context _ (obj [("c", VString "x")])
             [Key "a"; Index 2] [mkError [] "earlier"] Hc).
  reflexivity.
Defined.

(* ------------------------------------------------------------------------- *)
(** ** The errors of a composite are the errors of its parts *)

Lemma bind_returned_inv A B (m : M A) (k : A -> M B) errors b errors' :
  bind m k errors = (Returned b, errors') ->
  exists a errors1, m errors = (Returned a, errors1) /\ k a errors1 = (Returned b, errors').
Proof.
  unfold bind. destruct (m errors) as [[a | msg] errors1]; [| discriminate].
  intros H. exists a, errors1. split; [reflexivity | exact H].
Qed.

Lemma relocatable_framed schema value q :
  Relocatable schema -> Framed (schema value (Some q)).
Proof.
  intros Hr errors. rewrite (Hr value q errors), (Hr value q []). reflexivity.
Qed.

(** A diagnostic loop that came to its end has appended the errors of every
    visit, in order, and no visit threw. *)
Lemma visits_errors B (child : B -> M Result) ys :
  (forall y, In y ys -> Framed (child y)) ->
  forall errors errors',
    forOf (fun y => child y ;;; ret tt) ys errors = (Returned tt, errors') ->
    errors' = (errors ++ concat (map (fun y => snd (child y [])) ys))%list /\
    Forall (fun y => forall msg, fst (child y []) <> Thrown msg) ys.
Proof.
  induction ys as [| y rest IH]; intros Hf errors errors' H; simpl in *.
  - inversion H. rewrite app_nil_r. split; [reflexivity | constructor].
  - apply bind_returned_inv in H. destruct H as ([] & errors1 & Hy & Hrest).
    apply bind_returned_inv in Hy. destruct Hy as (r & errors2 & Hy & Hret).
    inversion Hret. subst errors2. clear Hret.
    rewrite (Hf y (or_introl eq_refl) errors) in Hy. inversion Hy as [[Ho He]]. subst errors1.
    destruct (IH (fun z Hz => Hf z (or_intror Hz)) _ _ Hrest) as [-> Hall].
    split; [rewrite <- app_assoc; reflexivity |].
    constructor; [| exact Hall]. intros msg. rewrite Ho. discriminate.
Qed.

Lemma errorsOf_failureErrors schema value :
  Behaves False schema ->
  (forall msg, outcomeOf schema value <> Thrown msg) ->
  errorsOf schema value = failureErrors schema value.
Proof.
  intros Hb Hn. destruct (Hb value []) as [_ Hd]. specialize (Hd []).
  unfold outcomeOf, errorsOf, failureErrors in *. rewrite safeParse_run.
  destruct (fastOutcome (schema value None)) as [[d |] | m].
  - rewrite Hd. reflexivity.
  - destruct Hd as (o & new & Hrun & Hnot & _). rewrite Hrun in *. simpl in *.
    destruct o as [[d |] | m]; [exfalso; apply (Hnot d) | | exfalso; apply (Hn m)]; reflexivity.
  - rewrite Hd in Hn. exfalso. apply (Hn m). reflexivity.
Qed.

Lemma child_errors schema value q :
  Behaves False schema -> Relocatable schema ->
  (forall msg, fst (schema value (Some q) []) <> Thrown msg) ->
  snd (schema value (Some q) []) = map (relocate q) (failureErrors schema value).
Proof.
  intros Hb Hr Hn. rewrite (Hr value q []) in *. simpl in *.
  rewrite errorsOf_failureErrors by assumption. reflexivity.
Qed.

Lemma safeParse_failure_run schema value msg errors :
  Behaves False schema ->
  safeParse schema value = Returned (SafeFailure msg errors) ->
  fastOutcome (schema value None) = Returned Failure /\
  schema value (Some []) [] = (Returned Failure, errors).
Proof.
  intros Hb. destruct (Hb value []) as [_ Hd]. specialize (Hd []). rewrite safeParse_run.
  destruct (fastOutcome (schema value None)) as [[d |] | m].
  - rewrite Hd. discriminate.
  - destruct Hd as (o & new & Hrun & _). rewrite Hrun.
    destruct o as [[d |] | m]; try discriminate.
    intros E. inversion E. split; reflexivity.
  - rewrite Hd. discriminate.
Qed.

Lemma twoPhase_run_failed (fast : M Result) diagnose p errors :
  Pure fast -> fastOutcome fast = Returned Failure ->
  twoPhase fast diagnose (Some p) errors = (diagnose p ;;; ret Failure) errors.
Proof.
  intros Hp Hf. unfold twoPhase, bind at 1. rewrite (Hp errors), Hf. reflexivity.
Qed.

(** The errors of a loop over children, each reported below its own key. *)
Lemma loop_errors B (child : B -> M Result) (schemaOf : B -> Schema) (valueOf : B -> Value)
    (pathOf : B -> Path) ys errors errors' :
  (forall y, In y ys -> child y = schemaOf y (valueOf y) (Some (pathOf y))) ->
  (forall y, In y ys -> Behaves False (schemaOf y)) ->
  (forall y, In y ys -> Relocatable (schemaOf y)) ->
  forOf (fun y => child y ;;; ret tt) ys errors = (Returned tt, errors') ->
  errors' = (errors ++ concat (map (fun y => map (relocate (pathOf y))
                                               (failureErrors (schemaOf y) (valueOf y))) ys))%list.
Proof.
  intros Hchild Hb Hr H.
  destruct (@visits_errors _ child ys) with (errors := errors) (errors' := errors')
    as [-> Hall]; [| exact H |].
  { intros y Hy. rewrite (Hchild y Hy). apply relocatable_framed. apply (Hr y Hy). }
  f_equal. f_equal. apply map_ext_in. intros y Hy.
  rewrite Forall_forall in Hall. specialize (Hall y Hy).
  rewrite (Hchild y Hy) in *.
  apply child_errors; [apply (Hb y Hy) | apply (Hr y Hy) | exact Hall].
Qed.

(** X5: the errors of an array that fails are, item after item, the errors
    [safeParse] of the item schema reports for the item, with the index of the
    item put before their paths; an item that passes adds none. *)
Theorem array_errors schema items msg errors :
  Constructed library schema ->
  safeParse (createArraySchema schema) (VArray items) = Returned (SafeFailure msg errors) ->
  errors = concat (map (fun entry => map (relocate [Index (fst entry)])
                                         (failureErrors schema (snd entry)))
                       (indexed items)).
Proof.
  intros Hc Hs.
  pose proof (library_behaves Hc) as Hb. pose proof (constructed_relocatable Hc) as Hr.
  destruct (safeParse_failure_run _ (createArraySchema_behaves Hb) Hs) as [Hfast Hrun].
  rewrite createArraySchema_fastOutcome in Hfast by exact Hb.
  unfold createArraySchema in Hrun. simpl isArray in Hrun. cbv iota in Hrun.
  simpl negb in Hrun. cbv iota in Hrun. simpl arrayItems in Hrun. cbv zeta in Hrun.
  change (twoPhase
            (fastLoop (fun item => internalSafeParse schema item None)
               (fun _ data parsedItems => (parsedItems ++ [data])%list) items []
               (fun parsedItems => ret (Success (VArray parsedItems))))
            (fun c => forOf (fun entry => internalSafeParse schema (snd entry)
                                            (Some (c ++ [Index (fst entry)])%list) ;;; ret tt)
                        (indexed items)) (Some []) [] = (Returned Failure, errors)) in Hrun.
  rewrite twoPhase_run_failed in Hrun; [| | exact Hfast].
  2: { apply fastLoop_pure; [| intros c; apply pure_ret].
       intros x _. apply (behaves_pure x Hb). }
  apply bind_returned_inv in Hrun. destruct Hrun as ([] & errors1 & Hloop & Hret).
  inversion Hret. subst errors1.
  apply (@loop_errors _ _ (fun _ => schema) snd (fun entry => [Index (fst entry)]) _ [] errors)
    in Hloop; auto.
Qed.

Lemma array_errors_witness :
  Constructed library createNumberSchema /\
  safeParse (createArraySchema createNumberSchema) (VArray [VString "a"; num 1; VNull])
  = Returned (SafeFailure
                "Validation failed: Expected number, got string (at path /0), Expected number, got null (at path /2)"
                [mkError [Index 0] "Expected number, got string";
                 mkError [Index 2] "Expected number, got null"]) /\
  [mkError [Index 0] "Expected number, got string"; mkError [Index 2] "Expected number, got null"]
  = concat (map (fun entry => map (relocate [Index (fst entry)])
                                  (failureErrors createNumberSchema (snd entry)))
                (indexed [VString "a"; num 1; VNull])).
Proof.
  split; [apply c_number |]. split; [vm_compute; reflexivity |].
  eapply (@array_errors createNumberSchema [VString "a"; num 1; VNull]);
    [apply c_number | vm_compute; reflexivity].
Defined.

(** X6: the errors of an object schema that fails on an object literal (or
    on an object without prototype) are, field after field in the order of the shape, the errors [safeParse] of the field
    schema reports for [object[key]] (the own property, and without one what
    the object inherits: a method of [Object.prototype], or [undefined]), with
    the key put before their paths; in strict mode they are followed by the
    one error that lists the own keys of the object for which [key in schema]
    is false, when there are any.  The shape does not declare [__proto__]. *)
Theorem object_errors schema strict classes object msg errors :
  ~ In "__proto__" (keys schema) ->
  literalChain classes ->
  (forall entry, In entry schema -> Constructed library (snd entry)) ->
  safeParse (toSchema (newObjectSchema schema strict)) (VObject classes object)
  = Returned (SafeFailure msg errors) ->
  errors =
  (concat (map (fun entry => map (relocate [Key (fst entry)])
                                 (failureErrors (snd entry)
                                    (readProperty (fst entry) (VObject classes object))))
               schema)
   ++ if strict && Nat.ltb 0 (length (unrecognized schema object))
      then [mkError [] ("Unrecognized keys: " ++ join ", " (unrecognized schema object))]
      else [])%list.
Proof.
  intros _ _ Hc Hs.
  assert (Hb : forall entry, In entry schema -> Behaves False (snd entry))
    by (intros entry Hin; apply library_behaves; apply (Hc entry Hin)).
  assert (Hr : forall entry, In entry schema -> Relocatable (snd entry))
    by (intros entry Hin; apply constructed_relocatable; apply (Hc entry Hin)).
  unfold toSchema in Hs. cbn [shape strictMode] in Hs.
  destruct (safeParse_failure_run _ (@objectSafeParseFn_behaves False schema strict Hb) Hs)
    as [Hfast Hrun].
  rewrite (@objectSafeParseFn_fastOutcome schema strict classes object Hb) in Hfast.
  change (twoPhase
            (fastLoop (fun entry => internalSafeParse (snd entry)
                                      (readProperty (fst entry) (VObject classes object)) None)
               (fun entry data parsedObject => setProperty (fst entry) data parsedObject)
               schema []
               (fun parsedObject =>
                  if strict && existsb (fun key => negb (keyIn key schema)) (keys object)
                  then ret Failure else ret (Success (VObject plain parsedObject))))
            (fun c =>
               forOf (fun entry =>
                        internalSafeParse (snd entry)
                          (readProperty (fst entry) (VObject classes object))
                          (Some (c ++ [Key (fst entry)])%list) ;;; ret tt) schema ;;;
               if strict then
                 let unrecognizedKeys := unrecognized schema object in
                 if Nat.ltb 0 (length unrecognizedKeys)
                 then push (mkError c ("Unrecognized keys: " ++ join ", " unrecognizedKeys))
                 else ret tt
               else ret tt)
            (Some []) [] = (Returned Failure, errors)) in Hrun.
  rewrite twoPhase_run_failed in Hrun; [| | exact Hfast].
  2: { apply fastLoop_pure.
       - intros entry Hin. apply (behaves_pure _ (Hb entry Hin)).
       - intros parsedObject. destruct (strict && _); apply pure_ret. }
  apply bind_returned_inv in Hrun. destruct Hrun as ([] & errors1 & Hdiag & Hret).
  inversion Hret. subst errors1. clear Hret.
  apply bind_returned_inv in Hdiag. destruct Hdiag as ([] & errors2 & Hloop & Hextra).
  apply (@loop_errors _ _ snd (fun entry => readProperty (fst entry) (VObject classes object))
           (fun entry => [Key (fst entry)]) _ [] errors2) in Hloop; auto.
  simpl in Hloop. subst errors2.
  destruct strict; simpl andb; cbv zeta in Hextra.
  - destruct (Nat.ltb 0 (length (unrecognized schema object))).
    + inversion Hextra. reflexivity.
    + inversion Hextra. rewrite app_nil_r. reflexivity.
  - inversion Hextra. rewrite app_nil_r. reflexivity.
Qed.

Lemma object_errors_witness :
  ~ In "__proto__" (keys [("name", createStringSchema); ("valueOf", createNumberSchema)]) /\
  literalChain plain /\
  (forall entry, In entry [("name", createStringSchema); ("valueOf", createNumberSchema)] ->
                 Constructed library (snd entry)) /\
  safeParse (createStrictObjectSchema [("name", createStringSchema);
                                       ("valueOf", createNumberSchema)])
            (obj [("extra", num 1); ("toString", num 2)])
  = Returned (SafeFailure
                "Validation failed: Expected string, got undefined (at path /name), Expected number, got function (at path /valueOf), Unrecognized keys: extra (at path /)"
                [mkError [Key "name"] "Expected string, got undefined";
                 mkError [Key "valueOf"] "Expected number, got function";
                 mkError [] "Unrecognized keys: extra"]).
Proof.
  assert (Hproto : ~ In "__proto__"
                        (keys [("name", createStringSchema); ("valueOf", createNumberSchema)]))
    by (simpl; intuition discriminate).
  assert (Hc : forall entry,
             In entry [("name", createStringSchema); ("valueOf", createNumberSchema)] ->
             Constructed library (snd entry))
    by (intros entry [<- | [<- | []]]; constructor).
  assert (Hchain : literalChain plain) by (left; reflexivity).
  split; [exact Hproto |]. split; [exact Hchain |]. split; [exact Hc |].
  assert (Hs : exists msg errors,
             safeParse (createStrictObjectSchema
                          [("name", createStringSchema); ("valueOf", createNumberSchema)])
                       (obj [("extra", num 1); ("toString", num 2)])
             = Returned (SafeFailure msg errors))
    by (eexists; eexists; vm_compute; reflexivity).
  destruct Hs as (msg & errors & Hs).
  pose proof (@object_errors _ true plain _ msg errors Hproto Hchain Hc Hs) as He.
  vm_compute in He. subst errors. rewrite Hs. f_equal. f_equal.
  vm_compute in Hs. inversion Hs. reflexivity.
Defined.

(** X7: the errors of a union that fails are the errors [safeParse] of each
    branch reports for the value, branch after branch, all at the path of the
    union itself; the union adds no error of its own. *)
Theorem union_errors schemas value msg errors :
  (forall s, In s schemas -> Constructed library s) ->
  safeParse (createUnionSchema schemas) value = Returned (SafeFailure msg errors) ->
  errors = concat (map (fun s => failureErrors s value) schemas).
Proof.
  intros Hc Hs.
  assert (Hb : forall s, In s schemas -> Behaves False s)
    by (intros s Hin; apply library_behaves; apply (Hc s Hin)).
  assert (Hr : forall s, In s schemas -> Relocatable s)
    by (intros s Hin; apply constructed_relocatable; apply (Hc s Hin)).
  assert (Hu : Behaves False (createUnionSchema schemas))
    by (apply createUnionSchema_behaves; [intros [] | exact Hb]).
  destruct (safeParse_failure_run _ Hu Hs) as [Hfast Hrun].
  assert (Hp : forall s, In s schemas -> Pure (s value None))
    by (intros s Hin; apply (behaves_pure value (Hb s Hin))).
  rewrite createUnionSchema_fastOutcome in Hfast by exact Hp.
  change (twoPhase (firstSuccess schemas value)
            (fun c => forOf (fun s => internalSafeParse s value (Some c) ;;; ret tt) schemas)
            (Some []) [] = (Returned Failure, errors)) in Hrun.
  rewrite twoPhase_run_failed in Hrun; [| apply firstSuccess_pure; exact Hp | exact Hfast].
  apply bind_returned_inv in Hrun. destruct Hrun as ([] & errors1 & Hloop & Hret).
  inversion Hret. subst errors1.
  apply (@loop_errors _ _ (fun s => s) (fun _ => value) (fun _ => []) _ [] errors) in Hloop; auto.
  simpl in Hloop. rewrite Hloop. f_equal. apply map_ext. intros s. apply relocate_nil.
Qed.

Lemma union_errors_witness :
  (forall s, In s [createStringSchema; createNumberSchema] -> Constructed library s) /\
  safeParse (createUnionSchema [createStringSchema; createNumberSchema]) (VBoolean true)
  = Returned (SafeFailure
                "Validation failed: Expected string, got boolean (at path /), Expected number, got boolean (at path /)"
                (concat (map (fun s => failureErrors s (VBoolean true))
                             [createStringSchema; createNumberSchema]))).
Proof.
  assert (Hc : forall s, In s [createStringSchema; createNumberSchema] -> Constructed library s)
    by (intros s [<- | [<- | []]]; constructor).
  split; [exact Hc |].
  assert (Hs : safeParse (createUnionSchema [createStringSchema; createNumberSchema]) (VBoolean true)
               = Returned (SafeFailure
                   "Validation failed: Expected string, got boolean (at path /), Expected number, got boolean (at path /)"
                   [mkError [] "Expected string, got boolean";
                    mkError [] "Expected number, got boolean"]))
    by (vm_compute; reflexivity).
  rewrite <- (@union_errors _ _ _ _ Hc Hs). exact Hs.
Defined.

(* ------------------------------------------------------------------------- *)
(** ** What the composite schemas accept *)

Lemma Forall2_safeParse A (schemaOf : A -> Schema) (valueOf : A -> Value) xs ds :
  (forall x, In x xs -> Behaves False (schemaOf x)) ->
  (Forall2 (fun x d => fastOutcome (internalSafeParse (schemaOf x) (valueOf x) None)
                       = Returned (Success d)) xs ds <->
   Forall2 (fun x d => safeParse (schemaOf x) (valueOf x) = Returned (SafeSuccess d)) xs ds).
Proof.
  intros Hb. split; intros H; (eapply Forall2_impl_in; [| exact H]);
    intros x d Hin Hx; apply (safeParse_success _ _ (Hb x Hin)); exact Hx.
Qed.

(** X8: an array schema accepts exactly the arrays whose items the item
    schema accepts, and returns the array of the parsed items, in the order
    of the input. *)
Theorem array_accepts schema value result :
  Constructed library schema ->
  (safeParse (createArraySchema schema) value = Returned (SafeSuccess result) <->
   exists items parsedItems,
     value = VArray items /\ result = VArray parsedItems /\
     Forall2 (fun item data => safeParse schema item = Returned (SafeSuccess data))
             items parsedItems).
Proof.
  intros Hc. pose proof (library_behaves Hc) as Hb.
  assert (Hp : forall items x, In x items -> Pure (internalSafeParse schema x None))
    by (intros items x _; apply (behaves_pure x Hb)).
  rewrite (safeParse_success value result (createArraySchema_behaves Hb)). split.
  - intros E. destruct value; try discriminate E.
    rewrite createArraySchema_fastOutcome in E by exact Hb.
    destruct (@fastLoop_success _ _ _ _ items [] _ result (Hp items) E) as (ds & Hds & Hfin).
    rewrite storeAll_push in Hfin by (apply (Forall2_length_eq Hds)).
    simpl in Hfin. inversion Hfin.
    exists items, ds. split; [reflexivity |]. split; [reflexivity |].
    apply (@Forall2_safeParse _ (fun _ => schema) (fun x => x)); [intros; exact Hb | exact Hds].
  - intros (items & ds & -> & -> & Hds).
    apply (@Forall2_safeParse _ (fun _ => schema) (fun x => x)) in Hds; [| intros; exact Hb].
    rewrite createArraySchema_fastOutcome by exact Hb.
    rewrite (@fastLoop_success_intro _ _ _ _ items ds [] _ (Hp items) Hds).
    rewrite storeAll_push by (apply (Forall2_length_eq Hds)). reflexivity.
Qed.

Lemma array_accepts_witness :
  Constructed library (createOptionalSchema createNumberSchema) /\
  safeParse (createArraySchema (createOptionalSchema createNumberSchema))
            (VArray [num 1; VUndefined])
  = Returned (SafeSuccess (VArray [num 1; VUndefined])).
Proof.
  assert (Hc : Constructed library (createOptionalSchema createNumberSchema))
    by (apply c_optional; apply c_number).
  split; [exact Hc |].
  apply (@array_accepts _ (VArray [num 1; VUndefined]) (VArray [num 1; VUndefined]) Hc).
  exists [num 1; VUndefined], [num 1; VUndefined].
  repeat split. repeat constructor.
Defined.

(** X9: a tuple schema accepts exactly the arrays that have as many items as
    it has schemas and whose item at each index the schema of that index
    accepts; it returns the array of the parsed items. *)
Theorem tuple_accepts schema value result :
  (forall s, In s schema -> Constructed library s) ->
  (safeParse (createTupleSchema schema) value = Returned (SafeSuccess result) <->
   exists items parsedItems,
     value = VArray items /\ result = VArray parsedItems /\
     length items = length schema /\
     Forall2 (fun (entry : nat * Schema) data =>
                safeParse (snd entry) (itemAt items (fst entry)) = Returned (SafeSuccess data))
             (indexed schema) parsedItems).
Proof.
  intros Hc.
  assert (Hb : forall s, In s schema -> Behaves False s)
    by (intros s Hs; apply library_behaves; apply (Hc s Hs)).
  assert (Hbi : forall entry : nat * Schema, In entry (indexed schema) -> Behaves False (snd entry))
    by (intros [index s] Hin; apply (Hb s (@indexed_in _ _ _ _ Hin))).
  assert (Hp : forall items (entry : nat * Schema), In entry (indexed schema) ->
               Pure (internalSafeParse (snd entry) (itemAt items (fst entry)) None))
    by (intros items entry Hin; apply (behaves_pure _ (Hbi entry Hin))).
  rewrite (safeParse_success value result (createTupleSchema_behaves schema Hb)). split.
  - intros E. destruct value; try discriminate E.
    destruct (Nat.eqb (length items) (length schema)) eqn:L.
    2: { unfold createTupleSchema in E. simpl in E. rewrite L in E. discriminate E. }
    rewrite createTupleSchema_fastOutcome in E by assumption.
    destruct (@fastLoop_success _ _ _ _ (indexed schema) [] _ result (Hp items) E)
      as (ds & Hds & Hfin).
    rewrite storeAll_push in Hfin by (apply (Forall2_length_eq Hds)).
    simpl in Hfin. inversion Hfin.
    exists items, ds. split; [reflexivity |]. split; [reflexivity |].
    split; [apply Nat.eqb_eq; exact L |].
    apply (@Forall2_safeParse _ snd (fun entry => itemAt items (fst entry))); assumption.
  - intros (items & ds & -> & -> & Hlen & Hds).
    apply (@Forall2_safeParse _ snd (fun entry => itemAt items (fst entry))) in Hds;
      [| exact Hbi].
    rewrite createTupleSchema_fastOutcome; [| exact Hb | apply Nat.eqb_eq; exact Hlen].
    rewrite (@fastLoop_success_intro _ _ _ _ (indexed schema) ds [] _ (Hp items) Hds).
    rewrite storeAll_push by (apply (Forall2_length_eq Hds)). reflexivity.
Qed.

Lemma tuple_accepts_witness :
  (forall s, In s [createStringSchema; createNumberSchema] -> Constructed library s) /\
  safeParse (createTupleSchema [createStringSchema; createNumberSchema])
            (VArray [VString "a"; num 1])
  = Returned (SafeSuccess (VArray [VString "a"; num 1])).
Proof.
  assert (Hc : forall s, In s [createStringSchema; createNumberSchema] -> Constructed library s)
    by (intros s [<- | [<- | []]]; constructor).
  split; [exact Hc |].
  apply (@tuple_accepts _ (VArray [VString "a"; num 1]) (VArray [VString "a"; num 1]) Hc).
  exists [VString "a"; num 1], [VString "a"; num 1].
  repeat split. repeat constructor.
Defined.

(** X10: on an object that has no own key [__proto__], a record schema
    succeeds exactly when the value schema accepts every property value; the
    result is a new plain object with the keys of the input, in their order,
    each holding the parsed value. *)
Theorem record_accepts schema classes entries result :
  Constructed library schema ->
  NoDup (keys entries) ->
  ~ In "__proto__" (keys entries) ->
  (safeParse (createRecordSchema schema) (VObject classes entries) = Returned (SafeSuccess result) <->
   exists parsedValues,
     result = VObject plain (combine (keys entries) parsedValues) /\
     Forall2 (fun (entry : string * Value) data =>
                safeParse schema (snd entry) = Returned (SafeSuccess data))
             entries parsedValues).
Proof.
  intros Hc Hnd Hproto. pose proof (library_behaves Hc) as Hb.
  assert (Hp : forall entry : string * Value, In entry entries ->
               Pure (internalSafeParse schema (snd entry) None))
    by (intros entry _; apply (behaves_pure _ Hb)).
  rewrite (safeParse_success _ result (createRecordSchema_behaves Hb)).
  rewrite createRecordSchema_fastOutcome by exact Hb. split.
  - intros E.
    destruct (@fastLoop_success _ _ _ _ entries [] _ result Hp E) as (ds & Hds & Hfin).
    rewrite storeAll_fields in Hfin;
      [| apply (Forall2_length_eq Hds) | exact Hproto | simpl; exact Hnd].
    simpl in Hfin. inversion Hfin.
    exists ds. split; [reflexivity |].
    apply (@Forall2_safeParse _ (fun _ => schema) snd); [intros; exact Hb | exact Hds].
  - intros (ds & -> & Hds).
    apply (@Forall2_safeParse _ (fun _ => schema) snd) in Hds; [| intros; exact Hb].
    rewrite (@fastLoop_success_intro _ _ _ _ entries ds [] _ Hp Hds).
    rewrite storeAll_fields;
      [reflexivity | apply (Forall2_length_eq Hds) | exact Hproto | simpl; exact Hnd].
Qed.

Lemma record_accepts_witness :
  Constructed library createNumberSchema /\
  NoDup (keys [("a", num 1); ("b", num 2)]) /\
  ~ In "__proto__" (keys [("a", num 1); ("b", num 2)]) /\
  safeParse (createRecordSchema createNumberSchema) (VObject ["Date"; "Object"] [("a", num 1); ("b", num 2)])
  = Returned (SafeSuccess (obj [("a", num 1); ("b", num 2)])).
Proof.
  assert (Hnd : NoDup (keys [("a", num 1); ("b", num 2)]))
    by (repeat constructor; simpl; intuition discriminate).
  assert (Hproto : ~ In "__proto__" (keys [("a", num 1); ("b", num 2)]))
    by (simpl; intuition discriminate).
  split; [apply c_number |]. split; [exact Hnd |]. split; [exact Hproto |].
  apply (@record_accepts createNumberSchema ["Date"; "Object"] [("a", num 1); ("b", num 2)]
           (obj [("a", num 1); ("b", num 2)]) (c_number library) Hnd Hproto).
  exists [num 1; num 2]. split; [reflexivity | repeat constructor].
Defined.

(** X11: a union returns the data of the first branch that accepts the
    value: when it succeeds the branches split into branches that do not
    accept the value, the branch whose data is returned, and branches that were
    not tried. *)
Theorem union_returns_first_match schemas value result :
  (forall s, In s schemas -> Constructed library s) ->
  safeParse (createUnionSchema schemas) value = Returned (SafeSuccess result) ->
  exists before branch after,
    schemas = (before ++ branch :: after)%list /\
    safeParse branch value = Returned (SafeSuccess result) /\
    forall s, In s before -> forall data, safeParse s value <> Returned (SafeSuccess data).
Proof.
  intros Hc.
  assert (Hb : forall s, In s schemas -> Behaves False s)
    by (intros s Hin; apply library_behaves; apply (Hc s Hin)).
  rewrite (safeParse_success value result
             (@createUnionSchema_behaves False schemas (fun f : False => match f with end) Hb)).
  rewrite createUnionSchema_fastOutcome
    by (intros s Hin; apply (behaves_pure value (Hb s Hin))).
  clear Hc. induction schemas as [| s rest IH]; [discriminate |].
  rewrite firstSuccess_cons by (apply (behaves_pure value (Hb s (or_introl eq_refl)))).
  destruct (fastOutcome (s value None)) as [[d |] | m] eqn:E; try discriminate.
  - intros H. inversion H. subst d.
    exists [], s, rest. split; [reflexivity |].
    split; [apply (safeParse_success _ _ (Hb s (or_introl eq_refl))); exact E |].
    intros s' [].
  - intros H. destruct (IH (fun s' Hs' => Hb s' (or_intror Hs')) H)
      as (before & branch & after & -> & Hbranch & Hbefore).
    exists (s :: before), branch, after. split; [reflexivity |]. split; [exact Hbranch |].
    intros s' [<- | Hin] data; [| apply (Hbefore s' Hin)].
    intros Hs. apply (safeParse_success _ _ (Hb s (or_introl eq_refl))) in Hs. congruence.
Qed.

Lemma union_returns_first_match_witness :
  (forall s, In s [createStringSchema; createUnknownSchema; createNumberSchema] ->
             Constructed library s) /\
  safeParse (createUnionSchema [createStringSchema; createUnknownSchema; createNumberSchema]) (num 1)
  = Returned (SafeSuccess (num 1)) /\
  exists before branch after,
    [createStringSchema; createUnknownSchema; createNumberSchema]
    = (before ++ branch :: after)%list /\
    safeParse branch (num 1) = Returned (SafeSuccess (num 1)).
Proof.
  assert (Hc : forall s, In s [createStringSchema; createUnknownSchema; createNumberSchema] ->
                         Constructed library s)
    by (intros s [<- | [<- | [<- | []]]]; constructor).
  split; [exact Hc |]. split; [reflexivity |].
  destruct (@union_returns_first_match _ (num 1) (num 1) Hc eq_refl)
    as (before & branch & after & Hsplit & Hbranch & _).
  exists before, branch, after. split; assumption.
Defined.

(* ------------------------------------------------------------------------- *)
(** ** Strict and non-strict objects *)

Lemma existsb_false_filter A (f : A -> bool) xs :
  existsb f xs = false <-> filter f xs = [].
Proof.
  induction xs as [| x rest IH]; simpl; [split; reflexivity |].
  destruct (f x); simpl; [split; discriminate | exact IH].
Qed.

(** X12: a strict object schema accepts a value exactly when the non-strict
    schema of the same shape accepts it and [key in schema] holds of every
    own key of the value, that is when each is declared by the shape or is a
    key of [Object.prototype] ([toString], [constructor], ...); the two then
    return the same result. *)
Theorem strict_object_accepts schema value result :
  (forall entry, In entry schema -> Constructed library (snd entry)) ->
  (safeParse (createStrictObjectSchema schema) value = Returned (SafeSuccess result) <->
   safeParse (createObjectSchema schema) value = Returned (SafeSuccess result) /\
   unrecognized schema (ownEntries value) = []).
Proof.
  intros Hc.
  assert (Hb : forall entry, In entry schema -> Behaves False (snd entry))
    by (intros entry Hin; apply library_behaves; apply (Hc entry Hin)).
  assert (Hp : forall object (entry : string * Schema), In entry schema ->
               Pure (internalSafeParse (snd entry) (readProperty (fst entry) object) None))
    by (intros object entry Hin; apply (behaves_pure _ (Hb entry Hin))).
  unfold createStrictObjectSchema, createObjectSchema, toSchema. cbn [shape strictMode].
  rewrite (safeParse_success value result (@objectSafeParseFn_behaves False schema true Hb)).
  rewrite (safeParse_success value result (@objectSafeParseFn_behaves False schema false Hb)).
  destruct (notAnObject value) eqn:N.
  { unfold objectSafeParseFn. rewrite N. split; [discriminate | intros [H _]; discriminate H]. }
  destruct (notAnObject_false _ N) as (classes & object & ->). simpl ownEntries.
  rewrite !objectSafeParseFn_fastOutcome by exact Hb.
  unfold unrecognized. rewrite <- existsb_false_filter. split.
  - intros E.
    destruct (@fastLoop_success _ _ _ _ schema [] _ result (Hp (VObject classes object)) E) as (ds & Hds & Hfin).
    rewrite (@fastLoop_success_intro _ _ _ _ schema ds [] _ (Hp (VObject classes object)) Hds).
    simpl andb in *.
    destruct (existsb (fun key => negb (keyIn key schema)) (keys object));
      [discriminate Hfin | split; [exact Hfin | reflexivity]].
  - intros [E Hex].
    destruct (@fastLoop_success _ _ _ _ schema [] _ result (Hp (VObject classes object)) E) as (ds & Hds & Hfin).
    rewrite (@fastLoop_success_intro _ _ _ _ schema ds [] _ (Hp (VObject classes object)) Hds).
    rewrite Hex. simpl andb in *. exact Hfin.
Qed.

Lemma strict_object_accepts_witness :
  (forall entry, In entry [("name", createStringSchema)] -> Constructed library (snd entry)) /\
  safeParse (createStrictObjectSchema [("name", createStringSchema)])
            (obj [("name", VString "a"); ("toString", num 1)])
  = Returned (SafeSuccess (obj [("name", VString "a")])) /\
  forall result,
    safeParse (createStrictObjectSchema [("name", createStringSchema)])
              (obj [("name", VString "a"); ("extra", num 1)])
    <> Returned (SafeSuccess result).
Proof.
  assert (Hc : forall entry, In entry [("name", createStringSchema)] ->
                             Constructed library (snd entry))
    by (intros entry [<- | []]; apply c_string).
  split; [exact Hc |]. split.
  - apply (@strict_object_accepts _ (obj [("name", VString "a"); ("toString", num 1)])
             (obj [("name", VString "a")]) Hc).
    split; reflexivity.
  - intros result Hs.
    apply (@strict_object_accepts _ (obj [("name", VString "a"); ("extra", num 1)]) result Hc)
      in Hs.
    destruct Hs as [_ Hu]. discriminate Hu.
Defined.

Lemma Forall2_outputs_left A B (R : A -> B -> Prop) xs ys :
  Forall2 R xs ys -> Forall (fun x => exists y, R x y) xs.
Proof.
  intros H. induction H as [| x y xs ys Hxy _ IH]; constructor; [exists y; exact Hxy | exact IH].
Qed.

Lemma forOf_all_accepted B (fastRun diagRun : B -> M Result) ys errors :
  (forall y, In y ys -> Coherent False (fastRun y) (diagRun y)) ->
  Forall (fun y => exists data, fastOutcome (fastRun y) = Returned (Success data)) ys ->
  forOf (fun y => diagRun y ;;; ret tt) ys errors = (Returned tt, errors).
Proof.
  induction ys as [| y rest IH]; intros Hc Hall; simpl; [reflexivity |].
  inversion Hall as [| ? ? (data & Hy) Hrest]. subst.
  destruct (Hc y (or_introl eq_refl)) as [_ Hd]. specialize (Hd errors). rewrite Hy in Hd.
  unfold bind at 1. unfold bind at 1. rewrite Hd. unfold ret at 1.
  apply IH; [intros z Hz; apply Hc; right; exact Hz | exact Hrest].
Qed.

(** X13: when the fields of an object pass but the object has own keys for
    which [key in schema] is false (keys that the shape does not declare and
    that are not keys of [Object.prototype]), the strict object schema fails
    with exactly one error, at its own path, that lists those keys in the
    order of the input. *)
Theorem strict_object_reports_unrecognized_keys schema classes object result :
  (forall entry, In entry schema -> Constructed library (snd entry)) ->
  safeParse (createObjectSchema schema) (VObject classes object) = Returned (SafeSuccess result) ->
  unrecognized schema object <> [] ->
  safeParse (createStrictObjectSchema schema) (VObject classes object) =
  Returned (SafeFailure
              ("Validation failed: Unrecognized keys: " ++ join ", " (unrecognized schema object)
               ++ " (at path /)")
              [mkError [] ("Unrecognized keys: " ++ join ", " (unrecognized schema object))]).
Proof.
  intros Hc Hs Hne.
  assert (Hb : forall entry, In entry schema -> Behaves False (snd entry))
    by (intros entry Hin; apply library_behaves; apply (Hc entry Hin)).
  assert (Hp : forall entry : string * Schema, In entry schema ->
               Pure (internalSafeParse (snd entry)
                       (readProperty (fst entry) (VObject classes object)) None))
    by (intros entry Hin; apply (behaves_pure _ (Hb entry Hin))).
  unfold createObjectSchema, toSchema in Hs. cbn [shape strictMode] in Hs.
  apply (safeParse_success _ _ (@objectSafeParseFn_behaves False schema false Hb)) in Hs.
  rewrite objectSafeParseFn_fastOutcome in Hs by exact Hb.
  destruct (@fastLoop_success _ _ _ _ schema [] _ result Hp Hs) as (ds & Hds & _).
  assert (Hex : existsb (fun key => negb (keyIn key schema)) (keys object) = true).
  { destruct (existsb _ (keys object)) eqn:E; [reflexivity |].
    apply existsb_false_filter in E. contradiction. }
  assert (Hlt : Nat.ltb 0 (length (unrecognized schema object)) = true)
    by (apply existsb_filter_nonempty; exact Hex).
  assert (Hfast : fastOutcome
            (fastLoop (fun entry => internalSafeParse (snd entry) (readProperty (fst entry) (VObject classes object)) None)
               (fun entry data parsedObject => setProperty (fst entry) data parsedObject)
               schema []
               (fun parsedObject =>
                  if true && existsb (fun key => negb (keyIn key schema)) (keys object)
                  then ret Failure else ret (Success (VObject plain parsedObject))))
            = Returned Failure).
  { rewrite (@fastLoop_success_intro _ _ _ _ schema ds [] _ Hp Hds). rewrite Hex. reflexivity. }
  rewrite safeParse_run.
  unfold createStrictObjectSchema, toSchema. cbn [shape strictMode].
  change (objectSafeParseFn schema true (VObject classes object) (Some []) [])
    with (twoPhase
            (fastLoop (fun entry => internalSafeParse (snd entry) (readProperty (fst entry) (VObject classes object)) None)
               (fun entry data parsedObject => setProperty (fst entry) data parsedObject)
               schema []
               (fun parsedObject =>
                  if true && existsb (fun key => negb (keyIn key schema)) (keys object)
                  then ret Failure else ret (Success (VObject plain parsedObject))))
            (fun c =>
               forOf (fun entry =>
                        internalSafeParse (snd entry) (readProperty (fst entry) (VObject classes object))
                          (Some (c ++ [Key (fst entry)])%list) ;;; ret tt) schema ;;;
               let unrecognizedKeys := unrecognized schema object in
               if Nat.ltb 0 (length unrecognizedKeys)
               then push (mkError c ("Unrecognized keys: " ++ join ", " unrecognizedKeys))
               else ret tt)
            (Some []) []).
  rewrite twoPhase_run_failed; [| | exact Hfast].
  2: { apply fastLoop_pure; [exact Hp |].
       intros parsedObject. destruct (true && _); apply pure_ret. }
  unfold bind at 1. unfold bind at 1.
  rewrite (@forOf_all_accepted _
             (fun entry : string * Schema =>
                internalSafeParse (snd entry) (readProperty (fst entry) (VObject classes object)) None)
             (fun entry : string * Schema =>
                internalSafeParse (snd entry) (readProperty (fst entry) (VObject classes object))
                  (Some ([] ++ [Key (fst entry)])%list)) schema []).
  - cbv zeta. rewrite Hlt. reflexivity.
  - intros entry Hin. apply (Hb entry Hin).
  - apply Forall2_outputs_left in Hds. exact Hds.
Qed.

Lemma strict_object_reports_unrecognized_keys_witness :
  (forall entry, In entry [("name", createStringSchema)] -> Constructed library (snd entry)) /\
  unrecognized [("name", createStringSchema)]
    [("b", num 1); ("name", VString "a"); ("valueOf", num 3); ("a", num 2)]
  <> [] /\
  safeParse (createStrictObjectSchema [("name", createStringSchema)])
            (obj [("b", num 1); ("name", VString "a"); ("valueOf", num 3); ("a", num 2)])
  = Returned (SafeFailure "Validation failed: Unrecognized keys: b, a (at path /)"
                [mkError [] "Unrecognized keys: b, a"]).
Proof.
  assert (Hc : forall entry, In entry [("name", createStringSchema)] ->
                             Constructed library (snd entry))
    by (intros entry [<- | []]; apply c_string).
  assert (Hne : unrecognized [("name", createStringSchema)]
                  [("b", num 1); ("name", VString "a"); ("valueOf", num 3); ("a", num 2)] <> [])
    by discriminate.
  split; [exact Hc |]. split; [exact Hne |].
  apply (@strict_object_reports_unrecognized_keys _ plain
           [("b", num 1); ("name", VString "a"); ("valueOf", num 3); ("a", num 2)]
           (obj [("name", VString "a")]) Hc eq_refl Hne).
Defined.

(* ------------------------------------------------------------------------- *)
(** ** How [optional], [nullable] and [nullish] compose *)

Lemma nullish_run schema value context errors :
  Pure (schema value None) ->
  createNullishSchema schema value context errors =
  createNullableSchema (createOptionalSchema schema) value context errors.
Proof.
  intros Hp. remember (fastOutcome (schema value None)) as F eqn:HF.
  assert (Hp' : forall e, schema value None e = (F, e)) by (subst F; exact Hp).
  clear HF Hp.
  unfold createNullishSchema, createNullableSchema, createOptionalSchema, createUnionSchema.
  destruct value; destruct context as [p |]; destruct F as [[d |] | m];
    repeat (cbv beta iota zeta delta
              [createUnionSchema firstSuccess forOf internalSafeParse bind ret
               createNullSchema createUndefinedSchema report push negb];
            rewrite ?Hp');
    try reflexivity;
    match goal with
    | |- context [schema ?v (Some ?q) ?e] =>
        destruct (schema v (Some q) e) as [[[? |] | ?] ?]; reflexivity
    end.
Qed.

(** X14: [nullish(s)] is [nullable(optional(s))]: on every input [safeParse]
    returns the same result, errors included; and it accepts the same values,
    with the same data, as [optional(nullable(s))]. *)
Theorem nullish_is_nullable_optional schema value :
  Constructed library schema ->
  safeParse (nullish schema) value = safeParse (nullable (optional schema)) value /\
  forall data,
    safeParse (nullish schema) value = Returned (SafeSuccess data) <->
    safeParse (optional (nullable schema)) value = Returned (SafeSuccess data).
Proof.
  intros Hc. pose proof (library_behaves Hc) as Hb.
  unfold nullish, nullable, optional. split.
  - rewrite !safeParse_run. rewrite (@nullish_run schema value (Some []) [] (behaves_pure value Hb)).
    reflexivity.
  - intros data.
    pose proof (library_behaves (c_nullable Hc)) as Hn.
    rewrite (safeParse_success value data (library_behaves (c_nullish Hc))).
    rewrite (safeParse_success value data (library_behaves (c_optional (c_nullable Hc)))).
    rewrite createNullishSchema_fastOutcome by exact Hb.
    rewrite createOptionalSchema_fastOutcome by exact Hn.
    rewrite createNullableSchema_fastOutcome by exact Hb.
    destruct value; reflexivity.
Qed.

Lemma nullish_is_nullable_optional_witness :
  Constructed library createStringSchema /\
  safeParse (nullish createStringSchema) (num 1)
  = safeParse (nullable (optional createStringSchema)) (num 1) /\
  safeParse (nullish createStringSchema) (num 1)
  = Returned (SafeFailure
                "Validation failed: Expected null, got number (at path /), Expected undefined, got number (at path /), Expected string, got number (at path /)"
                [mkError [] "Expected null, got number"; mkError [] "Expected undefined, got number";
                 mkError [] "Expected string, got number"]).
Proof.
  split; [apply c_string |]. split; [| vm_compute; reflexivity].
  apply (@nullish_is_nullable_optional createStringSchema (num 1) (c_string library)).
Defined.

(* ------------------------------------------------------------------------- *)
(** ** Literal sets *)

Lemma literals_firstSuccess literals value :
  fastOutcome (firstSuccess (map createSingleLiteralSchema literals) value) =
  if existsb (strictEq value) literals then Returned (Success value) else Returned Failure.
Proof.
  induction literals as [| literal rest IH]; [reflexivity |].
  cbn [map]. rewrite firstSuccess_cons
    by (apply (behaves_pure value (createSingleLiteralSchema_behaves False literal))).
  cbn [existsb]. unfold createSingleLiteralSchema at 1. unfold fastOutcome at 1.
  destruct (strictEq value literal) eqn:E; cbn.
  - rewrite (strictEq_literal _ _ E). reflexivity.
  - exact IH.
Qed.

(** X15: a literal schema built from an array accepts exactly the values
    strictly equal to one of the literals and returns the value; none accepts
    [NaN], not even [literal(NaN)] or an array that holds [NaN]. *)
Theorem literal_array_accepts literals value result :
  (safeParse (createLiteralSchema (inr literals)) value = Returned (SafeSuccess result) <->
   result = value /\ existsb (strictEq value) literals = true) /\
  safeParse (createLiteralSchema (inr literals)) (VNumber NaN) <> Returned (SafeSuccess result) /\
  safeParse (createLiteralSchema (inl (LNumber NaN))) value <> Returned (SafeSuccess result).
Proof.
  assert (Hb : forall ls, Behaves False (createLiteralSchema (inr ls))).
  { intros ls. apply createUnionSchema_behaves; [intros [] |].
    intros s Hs. apply in_map_iff in Hs. destruct Hs as (literal & <- & _).
    apply createSingleLiteralSchema_behaves. }
  assert (Hfast : forall ls v,
             fastOutcome (createLiteralSchema (inr ls) v None) =
             if existsb (strictEq v) ls then Returned (Success v) else Returned Failure).
  { intros ls v. unfold createLiteralSchema. rewrite createUnionSchema_fastOutcome.
    - apply literals_firstSuccess.
    - intros s Hs. apply in_map_iff in Hs. destruct Hs as (literal & <- & _).
      apply (behaves_pure v (createSingleLiteralSchema_behaves False literal)). }
  split; [| split].
  - rewrite (safeParse_success value result (Hb literals)), Hfast.
    destruct (existsb (strictEq value) literals); split.
    + intros E. inversion E. split; reflexivity.
    + intros [-> _]. reflexivity.
    + discriminate.
    + intros [_ E]. discriminate E.
  - rewrite (safeParse_success (VNumber NaN) result (Hb literals)), Hfast.
    assert (Hnan : existsb (strictEq (VNumber NaN)) literals = false).
    { induction literals as [| [s | n | b | |] rest IH]; simpl; try exact IH; reflexivity. }
    rewrite Hnan. discriminate.
  - rewrite (safeParse_success value result
               (createSingleLiteralSchema_behaves False (LNumber NaN))).
    unfold createLiteralSchema, createSingleLiteralSchema, fastOutcome.
    destruct value; try discriminate. destruct n; discriminate.
Qed.

(* ------------------------------------------------------------------------- *)
(** ** A union that reaches a record *)

Lemma firstSuccess_throws before thrower after value msg errors :
  (forall s, In s before -> Pure (s value None)) ->
  (forall s, In s before -> fastOutcome (s value None) = Returned Failure) ->
  (forall e, thrower value None e = (Thrown msg, e)) ->
  firstSuccess (before ++ thrower :: after) value errors = (Thrown msg, errors).
Proof.
  induction before as [| s rest IH]; intros Hp Hf Ht; simpl.
  - unfold bind, internalSafeParse. rewrite Ht. reflexivity.
  - unfold bind at 1. unfold internalSafeParse at 1.
    rewrite (Hp s (or_introl eq_refl) errors), (Hf s (or_introl eq_refl)).
    apply IH; [intros s' Hs'; apply Hp | intros s' Hs'; apply Hf | exact Ht]; right; exact Hs'.
Qed.

(** X16: a union whose earlier branches fail on a value that is not an object
    throws the exception of a record branch as soon as it reaches it, whatever
    the branches after it would accept. *)
Theorem union_reaching_record_throws before schema after value :
  (forall s, In s before -> Constructed library s) ->
  (forall s, In s before ->
     exists msg errors, safeParse s value = Returned (SafeFailure msg errors)) ->
  notAnObject value = true ->
  safeParse (createUnionSchema (before ++ createRecordSchema schema :: after)) value =
  Thrown ("Expected object, got " ++ getType value).
Proof.
  intros Hc Hf Hn.
  assert (Hb : forall s, In s before -> Behaves False s)
    by (intros s Hin; apply library_behaves; apply (Hc s Hin)).
  assert (Hrun : firstSuccess (before ++ createRecordSchema schema :: after) value []
                 = (Thrown ("Expected object, got " ++ getType value), [])).
  { apply firstSuccess_throws.
    - intros s Hin. apply (behaves_pure value (Hb s Hin)).
    - intros s Hin. destruct (Hf s Hin) as (msg & errors & Hs).
      apply (safeParse_failure_run _ (Hb s Hin) Hs).
    - intros e. apply createRecordSchema_throws. exact Hn. }
  rewrite safeParse_run. unfold createUnionSchema, bind. rewrite Hrun. reflexivity.
Qed.

Lemma union_reaching_record_throws_witness :
  (forall s, In s [createStringSchema] -> Constructed library s) /\
  notAnObject (num 5) = true /\
  safeParse (createUnionSchema [createStringSchema; createRecordSchema createNumberSchema;
                                createNumberSchema]) (num 5)
  = Thrown "Expected object, got number".
Proof.
  assert (Hc : forall s, In s [createStringSchema] -> Constructed library s)
    by (intros s [<- | []]; apply c_string).
  split; [exact Hc |]. split; [reflexivity |].
  apply (@union_reaching_record_throws [createStringSchema] createNumberSchema
           [createNumberSchema] (num 5) Hc); [| reflexivity].
  intros s [<- | []]. eexists. eexists. reflexivity.
Defined.

(* ------------------------------------------------------------------------- *)
(** ** Instances of the corollaries on exceptions and contexts *)

Lemma context_independent_verdict_witness :
  Constructed library (createRecordSchema createNumberSchema) /\
  (internalSafeParse (createRecordSchema createNumberSchema) (obj [("c", VString "x")]) None
     [mkError [] "earlier"]
   = (Returned Failure, [mkError [] "earlier"]) /\
   exists o new,
     internalSafeParse (createRecordSchema createNumberSchema) (obj [("c", VString "x")])
       (Some [Key "a"]) [mkError [] "earlier"]
     = (o, ([mkError [] "earlier"] ++ new)%list) /\
     forall data, o <> Returned (Success data)).
Proof.
  assert (Hc : Constructed library (createRecordSchema createNumberSchema)).
  { apply c_record; [exact I | apply c_number]. }
  split; [exact Hc |].
  exact (@context_independent_verdict _ (obj [("c", VString "x")]) [Key "a"]
           [mkError [] "earlier"] Hc).
Defined.

Lemma context_independent_verdict_without_record_witness :
  Constructed withoutRecord (createArraySchema createNumberSchema) /\
  exists new,
    internalSafeParse (createArraySchema createNumberSchema) (VArray [num 1; VString "x"]) None
      [mkError [] "earlier"]
    = (Returned Failure, [mkError [] "earlier"]) /\
    internalSafeParse (createArraySchema createNumberSchema) (VArray [num 1; VString "x"])
      (Some [Key "a"]) [mkError [] "earlier"]
    = (Returned Failure, ([mkError [] "earlier"] ++ new)%list).
Proof.
  assert (Hc : Constructed withoutRecord (createArraySchema createNumberSchema)).
  { apply c_array. apply c_number. }
  split; [exact Hc |].
  exact (@context_independent_verdict_without_record _ (VArray [num 1; VString "x"]) [Key "a"]
           [mkError [] "earlier"] Hc).
Defined.

(* ------------------------------------------------------------------------- *)
(** ** The errors of tuples and records *)

(** X20: a tuple that fails on an array of another length reports that one
    error at its own path and validates no item; on an array of the right
    length its errors are, schema after schema, the errors [safeParse] of the
    schema reports for the item at its index, with the index put before their
    paths. *)
Theorem tuple_errors schema items msg errors :
  (forall s, In s schema -> Constructed library s) ->
  safeParse (createTupleSchema schema) (VArray items) = Returned (SafeFailure msg errors) ->
  errors =
    if Nat.eqb (length items) (length schema) then
      concat (map (fun entry : nat * Schema =>
                     map (relocate [Index (fst entry)])
                         (failureErrors (snd entry) (itemAt items (fst entry))))
                  (indexed schema))
    else
      [mkError [] ("Expected array of length " ++ natToString (length schema)
                   ++ ", got array of length " ++ natToString (length items))].
Proof.
  intros Hc Hs.
  assert (Hb : forall s, In s schema -> Behaves False s)
    by (intros s Hin; apply library_behaves; apply (Hc s Hin)).
  assert (Hbi : forall entry : nat * Schema, In entry (indexed schema) -> Behaves False (snd entry))
    by (intros [index s] Hin; apply (Hb s (@indexed_in _ _ _ _ Hin))).
  assert (Hri : forall entry : nat * Schema, In entry (indexed schema) -> Relocatable (snd entry))
    by (intros [index s] Hin; apply constructed_relocatable;
        apply (Hc s (@indexed_in _ _ _ _ Hin))).
  destruct (safeParse_failure_run _ (createTupleSchema_behaves schema Hb) Hs) as [Hfast Hrun].
  destruct (Nat.eqb (length items) (length schema)) eqn:L.
  - rewrite createTupleSchema_fastOutcome in Hfast by assumption.
    unfold createTupleSchema in Hrun. change (negb (isArray (VArray items))) with false in Hrun.
    change (arrayItems (VArray items)) with items in Hrun. cbv iota zeta in Hrun.
    rewrite L in Hrun. change (negb true) with false in Hrun. cbv iota in Hrun.
    change (twoPhase
              (fastLoop (fun entry : nat * Schema =>
                           internalSafeParse (snd entry) (itemAt items (fst entry)) None)
                 (fun _ data parsedItems => (parsedItems ++ [data])%list) (indexed schema) []
                 (fun parsedItems => ret (Success (VArray parsedItems))))
              (fun c => forOf (fun entry : nat * Schema =>
                                 internalSafeParse (snd entry) (itemAt items (fst entry))
                                   (Some (c ++ [Index (fst entry)])%list) ;;; ret tt)
                          (indexed schema)) (Some []) [] = (Returned Failure, errors)) in Hrun.
    rewrite twoPhase_run_failed in Hrun; [| | exact Hfast].
    2: { apply fastLoop_pure; [| intros c; apply pure_ret].
         intros entry Hin. apply (behaves_pure _ (Hbi entry Hin)). }
    apply bind_returned_inv in Hrun. destruct Hrun as ([] & errors1 & Hloop & Hret).
    inversion Hret. subst errors1.
    apply (@loop_errors _ _ snd (fun entry => itemAt items (fst entry))
             (fun entry => [Index (fst entry)]) _ [] errors) in Hloop; auto.
  - unfold createTupleSchema in Hrun. change (negb (isArray (VArray items))) with false in Hrun.
    change (arrayItems (VArray items)) with items in Hrun. cbv iota zeta in Hrun.
    rewrite L in Hrun. change (negb false) with true in Hrun. cbv iota in Hrun.
    inversion Hrun. reflexivity.
Qed.

Lemma tuple_errors_witness :
  (forall s, In s [createStringSchema; createNumberSchema] -> Constructed library s) /\
  safeParse (createTupleSchema [createStringSchema; createNumberSchema])
            (VArray [VString "a"])
  = Returned (SafeFailure
                "Validation failed: Expected array of length 2, got array of length 1 (at path /)"
                [mkError [] "Expected array of length 2, got array of length 1"]) /\
  [mkError [] "Expected array of length 2, got array of length 1"]
  = [mkError [] ("Expected array of length " ++ natToString 2
                 ++ ", got array of length " ++ natToString 1)].
Proof.
  assert (Hc : forall s, In s [createStringSchema; createNumberSchema] -> Constructed library s)
    by (intros s [<- | [<- | []]]; constructor).
  split; [exact Hc |]. split; [vm_compute; reflexivity |].
  apply (@tuple_errors [createStringSchema; createNumberSchema] [VString "a"]
           "Validation failed: Expected array of length 2, got array of length 1 (at path /)"
           _ Hc).
  vm_compute. reflexivity.
Defined.

(** X21: the errors of a record that fails on an object are, property after
    property in the order of the object's keys, the errors [safeParse] of the
    value schema reports for the property, with the key put before their
    paths; the record adds no error of its own. *)
Theorem record_errors schema classes entries msg errors :
  Constructed library schema ->
  safeParse (createRecordSchema schema) (VObject classes entries)
  = Returned (SafeFailure msg errors) ->
  errors = concat (map (fun entry : string * Value =>
                          map (relocate [Key (fst entry)]) (failureErrors schema (snd entry)))
                       entries).
Proof.
  intros Hc Hs.
  pose proof (library_behaves Hc) as Hb. pose proof (constructed_relocatable Hc) as Hr.
  destruct (safeParse_failure_run _ (createRecordSchema_behaves Hb) Hs) as [Hfast Hrun].
  rewrite createRecordSchema_fastOutcome in Hfast by exact Hb.
  unfold createRecordSchema in Hrun. simpl notAnObject in Hrun. cbv iota in Hrun.
  simpl ownEntries in Hrun. cbv zeta in Hrun.
  change (twoPhase
            (fastLoop (fun entry : string * Value => internalSafeParse schema (snd entry) None)
               (fun entry data parsedObject => setProperty (fst entry) data parsedObject)
               entries []
               (fun parsedObject => ret (Success (VObject plain parsedObject))))
            (fun c => forOf (fun entry : string * Value =>
                               internalSafeParse schema (snd entry)
                                 (Some (c ++ [Key (fst entry)])%list) ;;; ret tt)
                        entries) (Some []) [] = (Returned Failure, errors)) in Hrun.
  rewrite twoPhase_run_failed in Hrun; [| | exact Hfast].
  2: { apply fastLoop_pure; [| intros c; apply pure_ret].
       intros x _. apply (behaves_pure _ Hb). }
  apply bind_returned_inv in Hrun. destruct Hrun as ([] & errors1 & Hloop & Hret).
  inversion Hret. subst errors1.
  apply (@loop_errors _ _ (fun _ => schema) snd (fun entry => [Key (fst entry)]) _ [] errors)
    in Hloop; auto.
Qed.

Lemma record_errors_witness :
  Constructed library createNumberSchema /\
  safeParse (createRecordSchema createNumberSchema)
            (VObject plain [("a", num 1); ("b", VString "x"); ("c", VNull)])
  = Returned (SafeFailure
                "Validation failed: Expected number, got string (at path /b), Expected number, got null (at path /c)"
                [mkError [Key "b"] "Expected number, got string";
                 mkError [Key "c"] "Expected number, got null"]) /\
  [mkError [Key "b"] "Expected number, got string"; mkError [Key "c"] "Expected number, got null"]
  = concat (map (fun entry : string * Value =>
                   map (relocate [Key (fst entry)]) (failureErrors createNumberSchema (snd entry)))
                [("a", num 1); ("b", VString "x"); ("c", VNull)]).
Proof.
  split; [apply c_number |]. split; [vm_compute; reflexivity |].
  eapply (@record_errors createNumberSchema plain
            [("a", num 1); ("b", VString "x"); ("c", VNull)]);
    [apply c_number | vm_compute; reflexivity].
Defined.
